(** * google-docs-manager: Markdown <-> Google Docs translation engine

    A shallow embedding of the conversion package
    ([DocsToMarkdown], [MarkdownToDocsRequests], [parseInlineFormatting],
    [ParseColor]), of the document package ([GetStructure], [FindSection])
    and of the older copy of the compiler kept in package main
    ([markdownToDocsRequests]), with the properties the specification
    states about them.

    Go strings are immutable byte sequences: they are modelled as lists of
    8-bit characters.  [int64] values are integers of [Z] with the
    wrap-around of the machine addition written out ([add64]). *)

From Stdlib Require Import ZArith List Ascii String Bool Lia Arith.
From Stdlib Require Import Numbers.DecimalString.
From Stdlib Require Numbers.DecimalFacts Numbers.DecimalPos.
Import ListNotations.

Open Scope Z_scope.

(** ** Go values *)

Definition gostring := list ascii.

(** A string literal of the source, as its bytes. *)
Definition lit (s : string) : gostring := list_ascii_of_string s.

Definition byteval (c : ascii) : Z := Z.of_N (N_of_ascii c).

Definition chr (n : Z) : ascii := ascii_of_N (Z.to_N n).

(** The one-byte string "\n". *)
Definition nl : gostring := [chr 10].

Definition min_int64 : Z := - 2 ^ 63.
Definition max_int64 : Z := 2 ^ 63 - 1.

Definition in_int64 (z : Z) : Prop := min_int64 <= z <= max_int64.

(** Two's complement reduction of an integer to 64 bits. *)
Definition wrap64 (z : Z) : Z := (z + 2 ^ 63) mod 2 ^ 64 - 2 ^ 63.

(** [a + b] on int64. *)
Definition add64 (a b : Z) : Z := wrap64 (a + b).

(** [a - b] on int64. *)
Definition sub64 (a b : Z) : Z := wrap64 (a - b).

(** [len(s)] converted to int64. *)
Definition len64 (s : gostring) : Z := Z.of_nat (List.length s).

(** [s[lo:hi]]; Go panics unless [0 <= lo <= hi <= len(s)]. *)
Definition slice (s : gostring) (lo hi : Z) : option gostring :=
  if (0 <=? lo) && (lo <=? hi) && (hi <=? len64 s)
  then Some (firstn (Z.to_nat (hi - lo)) (skipn (Z.to_nat lo) s))
  else None.

(** ** Package unicode/utf8 *)

Module utf8.

Definition RuneError : Z := 0xFFFD.
Definition RuneSelf : Z := 0x80.
Definition UTFMax : Z := 4.

Definition maskx : Z := 0x3F.
Definition mask2 : Z := 0x1F.
Definition mask3 : Z := 0x0F.
Definition mask4 : Z := 0x07.

Definition locb : Z := 0x80.
Definition hicb : Z := 0xBF.

(** Entries of the [first] table: the low three bits are the length of the
    sequence, the high four bits index [acceptRanges]. *)
Definition xx : Z := 0xF1.
Definition as_ : Z := 0xF0.
Definition s1 : Z := 0x02.
Definition s2 : Z := 0x13.
Definition s3 : Z := 0x03.
Definition s4 : Z := 0x23.
Definition s5 : Z := 0x34.
Definition s6 : Z := 0x04.
Definition s7 : Z := 0x44.

(** [first[c]], information about the first byte of a sequence. *)
Definition first (c : Z) : Z :=
  if c <? 0x80 then as_
  else if c <? 0xC2 then xx
  else if c <? 0xE0 then s1
  else if c =? 0xE0 then s2
  else if c <? 0xED then s3
  else if c =? 0xED then s4
  else if c <? 0xF0 then s3
  else if c =? 0xF0 then s5
  else if c <? 0xF4 then s6
  else if c =? 0xF4 then s7
  else xx.

(** [acceptRanges[i]] as the pair (lo, hi) of the second byte. *)
Definition acceptRanges (i : Z) : Z * Z :=
  match i with
  | 0 => (locb, hicb)
  | 1 => (0xA0, hicb)
  | 2 => (locb, 0x9F)
  | 3 => (0x90, hicb)
  | 4 => (locb, 0x8F)
  | _ => (0, 0)
  end.

Definition outside (c lo hi : Z) : bool := (c <? lo) || (hi <? c).

(** [DecodeRuneInString(s)]: the first rune of [s] and its width in bytes;
    an invalid or short sequence decodes to [(RuneError, 1)]. *)
Definition DecodeRuneInString (s : gostring) : Z * nat :=
  match s with
  | [] => (RuneError, 0%nat)
  | b0 :: t0 =>
    let c0 := byteval b0 in
    let x := first c0 in
    if as_ <=? x then ((if x =? as_ then c0 else RuneError), 1%nat)
    else
      let sz := Z.land x 7 in
      let '(lo, hi) := acceptRanges (Z.shiftr x 4) in
      if len64 s <? sz then (RuneError, 1%nat)
      else match t0 with
      | [] => (RuneError, 1%nat)
      | b1 :: t1 =>
        let c1 := byteval b1 in
        if outside c1 lo hi then (RuneError, 1%nat)
        else if sz <=? 2
        then (Z.lor (Z.shiftl (Z.land c0 mask2) 6) (Z.land c1 maskx), 2%nat)
        else match t1 with
        | [] => (RuneError, 1%nat)
        | b2 :: t2 =>
          let c2 := byteval b2 in
          if outside c2 locb hicb then (RuneError, 1%nat)
          else if sz <=? 3
          then (Z.lor (Z.lor (Z.shiftl (Z.land c0 mask3) 12)
                             (Z.shiftl (Z.land c1 maskx) 6))
                      (Z.land c2 maskx), 3%nat)
          else match t2 with
          | [] => (RuneError, 1%nat)
          | b3 :: _ =>
            let c3 := byteval b3 in
            if outside c3 locb hicb then (RuneError, 1%nat)
            else (Z.lor (Z.lor (Z.lor (Z.shiftl (Z.land c0 mask4) 18)
                                      (Z.shiftl (Z.land c1 maskx) 12))
                               (Z.shiftl (Z.land c2 maskx) 6))
                        (Z.land c3 maskx), 4%nat)
          end
        end
      end
  end.

(** The width by which the loop of [RuneCountInString] advances at the
    head of [s] (the body of that loop, which decodes no rune value). *)
Definition runeStep (s : gostring) : nat :=
  match s with
  | [] => 0%nat
  | b0 :: t0 =>
    let c := byteval b0 in
    if c <? RuneSelf then 1%nat
    else
      let x := first c in
      if x =? xx then 1%nat
      else
        let size := Z.land x 7 in
        if len64 s <? size then 1%nat
        else
          let '(lo, hi) := acceptRanges (Z.shiftr x 4) in
          match t0 with
          | [] => 1%nat
          | b1 :: t1 =>
            if outside (byteval b1) lo hi then 1%nat
            else if size =? 2 then 2%nat
            else match t1 with
            | [] => 1%nat
            | b2 :: t2 =>
              if outside (byteval b2) locb hicb then 1%nat
              else if size =? 3 then 3%nat
              else match t2 with
              | [] => 1%nat
              | b3 :: _ =>
                if outside (byteval b3) locb hicb then 1%nat else 4%nat
              end
            end
          end
  end.

(** The loop [for i := 0; i < ns; n++] of [RuneCountInString]: [skip] is
    the number of bytes of the current sequence still to be passed. *)
Fixpoint countFrom (skip : nat) (s : gostring) : nat :=
  match s with
  | [] => 0%nat
  | _ :: t =>
    match skip with
    | S k => countFrom k t
    | O => S (countFrom (runeStep s - 1) t)
    end
  end.

Definition RuneCountInString (s : gostring) : nat := countFrom 0 s.

(** [RuneStart(b)]: [b] is not a continuation byte. *)
Definition RuneStart (b : ascii) : bool :=
  negb (Z.land (byteval b) 0xC0 =? 0x80).

(** The loop [for start--; start >= lim; start--] of
    [DecodeLastRuneInString]; it runs at most three times, the fourth
    call sees [start < lim]. *)
Fixpoint lastStart (fuel : nat) (s : gostring) (start lim : Z) : Z :=
  match fuel with
  | O => start
  | S f =>
    if start <? lim then start
    else if RuneStart (nth (Z.to_nat start) s zero) then start
    else lastStart f s (start - 1) lim
  end.

(** [DecodeLastRuneInString(s)]: the last rune of [s] and its width. *)
Definition DecodeLastRuneInString (s : gostring) : Z * nat :=
  let end_ := len64 s in
  if end_ =? 0 then (RuneError, 0%nat)
  else
    let r := byteval (nth (Z.to_nat (end_ - 1)) s zero) in
    if r <? RuneSelf then (r, 1%nat)
    else
      let lim := Z.max 0 (end_ - UTFMax) in
      let start := Z.max 0 (lastStart 4 s (end_ - 2) lim) in
      let '(r', size) := DecodeRuneInString (skipn (Z.to_nat start) s) in
      if start + Z.of_nat size =? end_ then (r', size)
      else (RuneError, 1%nat).

End utf8.

(** ** Package unicode *)

Module unicode.

(** [IsSpace(r)]: the Latin-1 spaces by the switch of the source, the
    others by the White_Space range table. *)
Definition IsSpace (r : Z) : bool :=
  if (0 <=? r) && (r <=? 0xFF)
  then (r =? 9) || (r =? 10) || (r =? 11) || (r =? 12) || (r =? 13)
       || (r =? 32) || (r =? 0x85) || (r =? 0xA0)
  else (r =? 0x1680) || ((0x2000 <=? r) && (r <=? 0x200A))
       || (r =? 0x2028) || (r =? 0x2029) || (r =? 0x202F)
       || (r =? 0x205F) || (r =? 0x3000).

End unicode.

(** ** Package strings *)

Module strings.

(** The [asciiSpace] table: '\t', '\n', '\v', '\f', '\r', ' '. *)
Definition asciiSpace (c : ascii) : bool :=
  let v := byteval c in
  (v =? 9) || (v =? 10) || (v =? 11) || (v =? 12) || (v =? 13) || (v =? 32).

Definition isASCII (c : ascii) : bool := byteval c <? utf8.RuneSelf.

(** [indexFunc(s, f, truth)]: the loop [for i, r := range s]; [skip] counts
    the remaining bytes of the rune decoded last, [i] is the index of the
    head of [s] in the whole string.  -1 when no rune answers [truth]. *)
Fixpoint indexFuncFrom (f : Z -> bool) (truth : bool) (skip : nat) (i : Z)
    (s : gostring) : Z :=
  match s with
  | [] => -1
  | _ :: t =>
    match skip with
    | S k => indexFuncFrom f truth k (i + 1) t
    | O =>
      let '(r, size) := utf8.DecodeRuneInString s in
      if Bool.eqb (f r) truth then i
      else indexFuncFrom f truth (size - 1) (i + 1) t
    end
  end.

Definition indexFunc (s : gostring) (f : Z -> bool) (truth : bool) : Z :=
  indexFuncFrom f truth 0 0 s.

(** [lastIndexFunc(s, f, truth)]: the loop [for i := len(s); i > 0;];
    every turn lowers [i] by at least one, [len(s)] turns suffice. *)
Fixpoint lastIndexFuncLoop (fuel : nat) (f : Z -> bool) (truth : bool)
    (s : gostring) (i : Z) : Z :=
  match fuel with
  | O => -1
  | S n =>
    if 0 <? i then
      let '(r, size) := utf8.DecodeLastRuneInString (firstn (Z.to_nat i) s) in
      let i' := i - Z.of_nat size in
      if Bool.eqb (f r) truth then i'
      else lastIndexFuncLoop n f truth s i'
    else -1
  end.

Definition lastIndexFunc (s : gostring) (f : Z -> bool) (truth : bool) : Z :=
  lastIndexFuncLoop (List.length s) f truth s (len64 s).

Definition TrimLeftFunc (s : gostring) (f : Z -> bool) : gostring :=
  let i := indexFunc s f false in
  if i =? -1 then [] else skipn (Z.to_nat i) s.

Definition TrimRightFunc (s : gostring) (f : Z -> bool) : gostring :=
  let i := lastIndexFunc s f false in
  let i' :=
    if (0 <=? i)
       && (utf8.RuneSelf <=? byteval (nth (Z.to_nat i) s zero))
    then i + Z.of_nat (snd (utf8.DecodeRuneInString (skipn (Z.to_nat i) s)))
    else i + 1 in
  firstn (Z.to_nat i') s.

Definition TrimFunc (s : gostring) (f : Z -> bool) : gostring :=
  TrimRightFunc (TrimLeftFunc s f) f.

(** Second loop of [TrimSpace], [for ; stop > start; stop--]: [r] is
    [s[start:stop]] reversed, its head is [s[stop-1]]. *)
Fixpoint trimStop (r : gostring) : gostring :=
  match r with
  | [] => []
  | c :: r' =>
    if utf8.RuneSelf <=? byteval c then TrimRightFunc (rev r) unicode.IsSpace
    else if asciiSpace c then trimStop r'
    else rev r
  end.

(** First loop of [TrimSpace], [for ; start < len(s); start++]: the
    argument is [s[start:]]. *)
Fixpoint trimStart (s : gostring) : gostring :=
  match s with
  | [] => trimStop []
  | c :: s' =>
    if utf8.RuneSelf <=? byteval c then TrimFunc s unicode.IsSpace
    else if asciiSpace c then trimStart s'
    else trimStop (rev s)
  end.

(** [TrimSpace(s)]: [s] without leading and trailing white space. *)
Definition TrimSpace (s : gostring) : gostring := trimStart s.

Definition eqbytes (a b : gostring) : bool :=
  if list_eq_dec ascii_dec a b then true else false.

(** [HasPrefix(s, prefix)]. *)
Definition HasPrefix (s prefix : gostring) : bool :=
  (List.length prefix <=? List.length s)%nat
  && eqbytes (firstn (List.length prefix) s) prefix.

(** [TrimPrefix(s, prefix)]. *)
Definition TrimPrefix (s prefix : gostring) : gostring :=
  if HasPrefix s prefix then skipn (List.length prefix) s else s.

(** [Split(s, "\n")]: the substrings between the line feeds, one more
    than there are line feeds. *)
Fixpoint SplitLines (s : gostring) : list gostring :=
  match s with
  | [] => [[]]
  | c :: t =>
    if Ascii.eqb c (chr 10) then [] :: SplitLines t
    else match SplitLines t with
         | l :: ls => (c :: l) :: ls
         | [] => [[c]]
         end
  end.

Section EqualFold.

(** The Unicode case orbits are a table of package unicode: the walk
    [r := SimpleFold(sr); for r != sr && r < tr { r = SimpleFold(r) }]
    of [EqualFold], with its answer [r == tr], is taken as a parameter. *)
Variable simpleFoldReaches : Z -> Z -> bool.

(** One turn of the comparison of two runes. *)
Definition foldRunes (sr tr : Z) : bool :=
  if tr =? sr then true
  else
    let lo := Z.min sr tr in
    let hi := Z.max sr tr in
    if hi <? utf8.RuneSelf
    then (65 <=? lo) && (lo <=? 90) && (hi =? lo + 32)
    else simpleFoldReaches lo hi.

(** The loop after [hasUnicode:], [for _, sr := range s], which takes the
    runes of [t] off its front one by one. *)
Fixpoint foldUnicode (skip : nat) (s t : gostring) : bool :=
  match s with
  | [] => (List.length t =? 0)%nat
  | _ :: s' =>
    match skip with
    | S k => foldUnicode k s' t
    | O =>
      let '(sr, size) := utf8.DecodeRuneInString s in
      match t with
      | [] => false
      | _ :: _ =>
        let '(tr, tsize) := utf8.DecodeRuneInString t in
        if foldRunes sr tr then foldUnicode (size - 1) s' (skipn tsize t)
        else false
      end
    end
  end.

(** [EqualFold(s, t)]: the ASCII loop over the common length, which jumps
    to [hasUnicode] at the first byte pair with a high bit. *)
Fixpoint EqualFold (s t : gostring) : bool :=
  match s, t with
  | sb :: s', tb :: t' =>
    let sr := byteval sb in
    let tr := byteval tb in
    if utf8.RuneSelf <=? Z.lor sr tr then foldUnicode 0 s t
    else if tr =? sr then EqualFold s' t'
    else
      let lo := Z.min sr tr in
      let hi := Z.max sr tr in
      if (65 <=? lo) && (lo <=? 90) && (hi =? lo + 32) then EqualFold s' t'
      else false
  | _, _ => (List.length s =? List.length t)%nat
  end.

End EqualFold.

End strings.

(** ** Package regexp, for the two patterns of the source

    The source compiles two patterns, both of the shape
    [D([^d]+)D|E([^e]+)E] where the delimiters [D], [E] are one or two
    copies of the bytes [d] = '*' and [e] = '_':
    - bold:   [\*\*([^*]+)\*\*|__([^_]+)__]
    - italic: [\*([^*]+)\*|_([^_]+)_]
    Go matches leftmost-first; a delimiter byte is ASCII and is never part
    of a longer sequence, and a class [[^d]] takes any rune but [d], an
    invalid byte included, so the match is decided byte by byte: the
    content is the longest run of bytes other than [d], it must be
    non-empty and be followed by the closing delimiter. *)

Module regexp.

(** One result of [FindAllStringSubmatchIndex]: the six indices
    [match[0]] .. [match[5]], -1 for a group that took no part. *)
Record submatch : Type := mkSubmatch {
  m0 : Z; m1 : Z; m2 : Z; m3 : Z; m4 : Z; m5 : Z
}.

(** [n] copies of the byte [d] at the head of [s]: what follows them. *)
Fixpoint delim (n : nat) (d : ascii) (s : gostring) : option gostring :=
  match n with
  | O => Some s
  | S k =>
    match s with
    | c :: t => if Ascii.eqb c d then delim k d t else None
    | [] => None
    end
  end.

(** The longest prefix of [s] without the byte [d], and the rest. *)
Fixpoint run (d : ascii) (s : gostring) : gostring * gostring :=
  match s with
  | [] => ([], [])
  | c :: t =>
    if Ascii.eqb c d then ([], s)
    else let '(a, b) := run d t in (c :: a, b)
  end.

(** One alternative [D([^d]+)D] at the head of [s]: its content. *)
Definition alternative (n : nat) (d : ascii) (s : gostring)
    : option gostring :=
  match delim n d s with
  | None => None
  | Some s1 =>
    let '(content, s2) := run d s1 in
    match content with
    | [] => None
    | _ :: _ =>
      match delim n d s2 with
      | Some _ => Some content
      | None => None
      end
    end
  end.

Definition star : ascii := chr 42.
Definition underscore : ascii := chr 95.

(** The pattern with delimiters of [n] bytes, tried at the head of [s],
    which is at index [pos] of the text. *)
Definition matchAt (n : nat) (pos : Z) (s : gostring) : option submatch :=
  let w := Z.of_nat n in
  match alternative n star s with
  | Some c =>
    let k := len64 c in
    Some (mkSubmatch pos (pos + w + k + w) (pos + w) (pos + w + k) (-1) (-1))
  | None =>
    match alternative n underscore s with
    | Some c =>
      let k := len64 c in
      Some (mkSubmatch pos (pos + w + k + w) (-1) (-1) (pos + w) (pos + w + k))
    | None => None
    end
  end.

(** [FindAllStringSubmatchIndex(text, -1)]: the successive matches, each
    search starting where the match before ended; [skip] counts the bytes
    of the last match still to be passed. *)
Fixpoint findAllFrom (n : nat) (skip : nat) (pos : Z) (s : gostring)
    : list submatch :=
  match s with
  | [] => []
  | _ :: t =>
    match skip with
    | S k => findAllFrom n k (pos + 1) t
    | O =>
      match matchAt n pos s with
      | Some m =>
        m :: findAllFrom n (Z.to_nat (m1 m - m0 m) - 1) (pos + 1) t
      | None => findAllFrom n 0 (pos + 1) t
      end
    end
  end.

Definition FindAllStringSubmatchIndex (n : nat) (text : gostring)
    : list submatch :=
  findAllFrom n 0 0 text.

(** The text of group [lo, hi) for the template: empty when the group
    took no part in the match. *)
Definition group (s : gostring) (pos lo hi : Z) : gostring :=
  if 0 <=? lo
  then firstn (Z.to_nat (hi - lo)) (skipn (Z.to_nat (lo - pos)) s)
  else [].

(** [ReplaceAllString(text, "$1$2")]: every match gives way to the text
    of its first group followed by the text of its second. *)
Fixpoint replaceAllFrom (n : nat) (skip : nat) (s : gostring) : gostring :=
  match s with
  | [] => []
  | c :: t =>
    match skip with
    | S k => replaceAllFrom n k t
    | O =>
      match matchAt n 0 s with
      | Some m =>
        (group s 0 (m2 m) (m3 m) ++ group s 0 (m4 m) (m5 m))
          ++ replaceAllFrom n (Z.to_nat (m1 m - m0 m) - 1) t
      | None => c :: replaceAllFrom n 0 t
      end
    end
  end.

Definition ReplaceAllString (n : nat) (text : gostring) : gostring :=
  replaceAllFrom n 0 text.

End regexp.

(** ** A small error monad: [None] is a run-time panic *)

Definition bind {A B : Type} (x : option A) (f : A -> option B) : option B :=
  match x with
  | Some a => f a
  | None => None
  end.

Notation "x <- e ;; k" := (bind e (fun x => k))
  (at level 61, e at next level, right associativity).
Notation "' p <- e ;; k" := (bind e (fun p => k))
  (at level 61, p pattern, e at next level, right associativity).

(** A [for _, x := range xs] loop whose body may panic. *)
Fixpoint foldM {S X : Type} (body : S -> X -> option S) (xs : list X)
    (st : S) : option S :=
  match xs with
  | [] => Some st
  | x :: rest => st' <- body st x ;; foldM body rest st'
  end.

(** ** Package fmt *)

Module fmt.

(** The verb [%d] of [Sprintf] on an int. *)
Definition Sprintf_d (n : Z) : gostring :=
  lit (NilEmpty.string_of_int (Z.to_int n)).

(** *** Scanning, as [Sscanf] does it

    The scanner reads runes from the input; [budget] is the number of
    runes it may still read before the width of the verb is used up.
    [None] is a scan error: [Sscanf] returns and the operands that are
    left keep their values. *)

Definition hugeWid : Z := 2 ^ 30.

Definition getRune (budget : Z) (s : gostring) : option (Z * gostring) :=
  if budget <=? 0 then None
  else match s with
       | [] => None
       | _ :: _ =>
         let '(r, size) := utf8.DecodeRuneInString s in
         Some (r, skipn size s)
       end.

(** The [space] table of the scanner. *)
Definition isSpace (r : Z) : bool :=
  ((0x0009 <=? r) && (r <=? 0x000D)) || (r =? 0x0020) || (r =? 0x0085)
  || (r =? 0x00A0) || (r =? 0x1680) || ((0x2000 <=? r) && (r <=? 0x200A))
  || (r =? 0x2028) || (r =? 0x2029) || (r =? 0x202F) || (r =? 0x205F)
  || (r =? 0x3000).

Definition peekIs (c : Z) (budget : Z) (s : gostring) : bool :=
  match getRune budget s with
  | Some (r, _) => r =? c
  | None => false
  end.

(** [SkipSpace()] when a newline is no space ([Sscanf]). *)
Fixpoint SkipSpace (fuel : nat) (budget : Z) (s : gostring)
    : option (Z * gostring) :=
  match fuel with
  | O => Some (budget, s)
  | S f =>
    match getRune budget s with
    | None => Some (budget, s)
    | Some (r, s') =>
      if (r =? 13) && peekIs 10 (budget - 1) s'
      then SkipSpace f (budget - 1) s'
      else if r =? 10 then None
      else if negb (isSpace r) then Some (budget, s)
      else SkipSpace f (budget - 1) s'
    end
  end.

(** The value of a digit of the given base, if the rune is one. *)
Definition digitOf (base : Z) (r : Z) : option Z :=
  if (48 <=? r) && (r <=? 57) then Some (r - 48)
  else if base =? 16 then
    if (97 <=? r) && (r <=? 102) then Some (r - 87)
    else if (65 <=? r) && (r <=? 70) then Some (r - 55)
    else None
  else None.

(** The runes [accept(digits)] takes for the verbs [%d] and [%x]: the
    digits of the base ("0123456789", "0123456789aAbBcCdDeEfF"); the
    scanner takes '_' for the verb [%v] only. *)
Definition acceptsDigit (base : Z) (r : Z) : bool :=
  match digitOf base r with
  | Some _ => true
  | None => false
  end.

(** [for s.accept(digits) {}]: the token in reading order, and the rest. *)
Fixpoint acceptDigits (fuel : nat) (base : Z) (budget : Z) (s : gostring)
    : list Z * gostring :=
  match fuel with
  | O => ([], s)
  | S f =>
    match getRune budget s with
    | Some (r, s') =>
      if acceptsDigit base r
      then let '(tok, rest) := acceptDigits f base (budget - 1) s' in
           (r :: tok, rest)
      else ([], s)
    | None => ([], s)
    end
  end.

(** [strconv.ParseInt(tok, base, 64)] on the digits of a token: a rune
    that is no digit of the base is a syntax error, a value outside
    int64 a range error. *)
Fixpoint parseDigits (base : Z) (acc : Z) (tok : list Z) : option Z :=
  match tok with
  | [] => Some acc
  | r :: rest =>
    match digitOf base r with
    | Some d => parseDigits base (acc * base + d) rest
    | None => None
    end
  end.

(** [scanInt] for the verbs [%d] (base 10) and [%x] (base 16). *)
Definition scanInt (base : Z) (budget : Z) (s : gostring)
    : option (Z * gostring) :=
  '(b1, s1) <- SkipSpace (S (List.length s)) budget s ;;
  '(r, s2) <- getRune b1 s1 ;;
  let '(neg, b3, s3) :=
    if (r =? 43) || (r =? 45) then (r =? 45, b1 - 1, s2)
    else (false, b1, s1) in
  '(r', _) <- getRune b3 s3 ;;
  if acceptsDigit base r' then
    let '(tok, rest) := acceptDigits (List.length s3) base b3 s3 in
    v <- parseDigits base 0 tok ;;
    let i := if neg then - v else v in
    if (min_int64 <=? i) && (i <=? max_int64) then Some (i, rest) else None
  else None.

(** [Sscanf(str, "HEADING_%d", &level)] on a string that has the prefix
    "HEADING_"; [level] is 0 before the call. *)
Definition Sscanf_HEADING_d (afterPrefix : gostring) : Z :=
  match SkipSpace (S (List.length afterPrefix)) hugeWid afterPrefix with
  | None => 0
  | Some (_, s1) =>
    match scanInt 10 hugeWid s1 with
    | Some (level, _) => level
    | None => 0
    end
  end.

(** One verb [%02x] of the format of [ParseColor]. *)
Definition scanHex2 (s : gostring) : option (Z * gostring) :=
  '(_, s1) <- SkipSpace (S (List.length s)) hugeWid s ;;
  scanInt 16 2 s1.

(** [Sscanf(str, "%02x%02x%02x", &r, &g, &b)] with [r], [g], [b] zero
    before the call: the values of the three operands after it. *)
Definition Sscanf_02x3 (s : gostring) : Z * Z * Z :=
  match scanHex2 s with
  | None => (0, 0, 0)
  | Some (r, s1) =>
    match scanHex2 s1 with
    | None => (r, 0, 0)
    | Some (g, s2) =>
      match scanHex2 s2 with
      | None => (r, g, 0)
      | Some (b, _) => (r, g, b)
      end
    end
  end.

End fmt.

(** ** The types of google.golang.org/api/docs/v1 that the code reads

    A pointer the code tests against nil is an [option]; a slice is a
    list.  [doc.Body] is dereferenced without a test, it is a field. *)

Module docs.

Record Link : Type := mkLink { Url : gostring }.

Record TextStyle : Type := mkTextStyle {
  Bold : bool;
  Italic : bool;
  StyleLink : option Link
}.

Record TextRun : Type := mkTextRun {
  Content : gostring;
  RunStyle : option TextStyle
}.

Record ParagraphElement : Type := mkParagraphElement {
  ElementTextRun : option TextRun
}.

Record ParagraphStyle : Type := mkParagraphStyle {
  NamedStyleType : gostring
}.

Record Paragraph : Type := mkParagraph {
  Elements : list ParagraphElement;
  ParaStyle : option ParagraphStyle
}.

Inductive StructuralElement : Type :=
| mkStructuralElement (startIndex endIndex : Z)
    (paragraph : option Paragraph) (table : option Table)
with Table : Type :=
| mkTable (tableRows : list TableRow)
with TableRow : Type :=
| mkTableRow (tableCells : list TableCell)
with TableCell : Type :=
| mkTableCell (content : list StructuralElement).

Definition StartIndex (e : StructuralElement) : Z :=
  match e with mkStructuralElement s _ _ _ => s end.
Definition EndIndex (e : StructuralElement) : Z :=
  match e with mkStructuralElement _ e' _ _ => e' end.
Definition ElementParagraph (e : StructuralElement) : option Paragraph :=
  match e with mkStructuralElement _ _ p _ => p end.
Definition ElementTable (e : StructuralElement) : option Table :=
  match e with mkStructuralElement _ _ _ t => t end.
Definition TableRows (t : Table) : list TableRow :=
  match t with mkTable rows => rows end.
Definition TableCells (r : TableRow) : list TableCell :=
  match r with mkTableRow cells => cells end.
Definition CellContent (c : TableCell) : list StructuralElement :=
  match c with mkTableCell content => content end.

Record Body : Type := mkBody { BodyContent : list StructuralElement }.

Record Document : Type := mkDocument {
  Title : gostring;
  DocBody : Body
}.

(** [docs.Request]: the code sets exactly one of its fields.
    [UpdateTextStyle] carries the [Bold] and [Italic] of its [TextStyle]. *)
Inductive Request : Type :=
| InsertText (index : Z) (text : gostring)
| UpdateParagraphStyle (startIndex endIndex : Z)
    (namedStyleType : gostring) (fields : gostring)
| UpdateTextStyle (startIndex endIndex : Z) (bold italic : bool)
    (fields : gostring).

End docs.

Import docs.

(** ** Package conversion: the renderer *)

Module conversion.

Import strings.

(** [GetParagraphText]: the text runs of a paragraph, joined and trimmed. *)
Definition GetParagraphText (paragraph : Paragraph) : gostring :=
  TrimSpace
    (fold_left
       (fun text element =>
          match ElementTextRun element with
          | Some run => text ++ Content run
          | None => text
          end)
       (Elements paragraph) []).

(** The body of the loop of [formatParagraphAsMarkdown] for one text run:
    what it writes to the builder. *)
Definition formatRun (run : TextRun) : gostring :=
  let content := Content run in
  match RunStyle run with
  | Some style =>
    let content :=
      if Bold style then lit "**" ++ TrimSpace content ++ lit "**"
      else content in
    let content :=
      if Italic style then lit "*" ++ TrimSpace content ++ lit "*"
      else content in
    match StyleLink style with
    | Some link =>
      lit "[" ++ TrimSpace content ++ lit "](" ++ Url link ++ lit ")"
    | None => content
    end
  | None => content
  end.

Definition formatParagraphAsMarkdown (paragraph : Paragraph) : gostring :=
  let result :=
    fold_left
      (fun text element =>
         match ElementTextRun element with
         | Some run => text ++ formatRun run
         | None => text
         end)
      (Elements paragraph) [] in
  if negb (eqbytes (TrimSpace result) []) then result ++ nl ++ nl
  else [].

Definition getTableCellText (cell : TableCell) : gostring :=
  TrimSpace
    (fold_left
       (fun text element =>
          match ElementParagraph element with
          | Some paragraph => text ++ GetParagraphText paragraph
          | None => text
          end)
       (CellContent cell) []).

(** The body of the loop of [tableToMarkdown] for the row of index
    [rowIdx]: what it appends to the builder [md]. *)
Definition tableRowToMarkdown (md : gostring) (rowIdx : nat) (row : TableRow)
    : gostring :=
  let md := md ++ lit "|" in
  let md :=
    fold_left
      (fun md cell => md ++ lit " " ++ getTableCellText cell ++ lit " |")
      (TableCells row) md in
  let md := md ++ nl in
  if (rowIdx =? 0)%nat then
    let md := md ++ lit "|" in
    let md := fold_left (fun md _ => md ++ lit " --- |") (TableCells row) md in
    md ++ nl
  else md.

(** [for rowIdx, row := range table.TableRows]. *)
Fixpoint tableRowsFrom (rowIdx : nat) (rows : list TableRow) (md : gostring)
    : gostring :=
  match rows with
  | [] => md
  | row :: rest =>
    tableRowsFrom (S rowIdx) rest (tableRowToMarkdown md rowIdx row)
  end.

Definition tableToMarkdown (table : Table) : gostring :=
  tableRowsFrom 0 (TableRows table) [] ++ nl.

(** The heading prefix the [switch] of [DocsToMarkdown] chooses for a
    named style, if it is one of the six cases. *)
Definition headingPrefix (styleType : gostring) : option gostring :=
  if eqbytes styleType (lit "HEADING_1") then Some (lit "# ")
  else if eqbytes styleType (lit "HEADING_2") then Some (lit "## ")
  else if eqbytes styleType (lit "HEADING_3") then Some (lit "### ")
  else if eqbytes styleType (lit "HEADING_4") then Some (lit "#### ")
  else if eqbytes styleType (lit "HEADING_5") then Some (lit "##### ")
  else if eqbytes styleType (lit "HEADING_6") then Some (lit "###### ")
  else None.

(** The body of the loop of [DocsToMarkdown] for one element: what it
    writes to the builder. *)
Definition elementToMarkdown (element : StructuralElement) : gostring :=
  match ElementParagraph element with
  | Some paragraph =>
    match ParaStyle paragraph with
    | Some style =>
      if negb (eqbytes (NamedStyleType style) []) then
        let text := GetParagraphText paragraph in
        match headingPrefix (NamedStyleType style) with
        | Some hashes => hashes ++ text ++ nl ++ nl
        | None => formatParagraphAsMarkdown paragraph
        end
      else formatParagraphAsMarkdown paragraph
    | None => formatParagraphAsMarkdown paragraph
    end
  | None =>
    match ElementTable element with
    | Some table => tableToMarkdown table
    | None => []
    end
  end.

Definition DocsToMarkdown (doc : Document) : gostring :=
  fold_left (fun md element => md ++ elementToMarkdown element)
    (BodyContent (DocBody doc))
    (lit "# " ++ Title doc ++ nl ++ nl).

(** ** Package conversion: the compiler *)

Definition runeCount64 (s : gostring) : Z :=
  Z.of_nat (utf8.RuneCountInString s).

(** The content of a match: the first group if it took part, else the
    second, else the empty string. *)
Definition matchContent (text : gostring) (m : regexp.submatch)
    : option gostring :=
  if negb (regexp.m2 m =? -1) && negb (regexp.m3 m =? -1)
  then slice text (regexp.m2 m) (regexp.m3 m)
  else if negb (regexp.m4 m =? -1) && negb (regexp.m5 m =? -1)
  then slice text (regexp.m4 m) (regexp.m5 m)
  else Some [].

(** The body of the two loops of [parseInlineFormatting], which differ in
    the style they set: the state is the requests and [offset]. *)
Definition styleMatch (isBold : bool) (text : gostring) (startIndex : Z)
    (st : list Request * Z) (m : regexp.submatch)
    : option (list Request * Z) :=
  let '(requests, offset) := st in
  let matchStart := regexp.m0 m in
  let matchEnd := regexp.m1 m in
  content <- matchContent text m ;;
  whole <- slice text matchStart matchEnd ;;
  before <- slice text 0 matchStart ;;
  let contentRuneCount := runeCount64 content in
  let matchRuneCount := runeCount64 whole in
  let markerLength := sub64 matchRuneCount contentRuneCount in
  let matchStartRunes := runeCount64 before in
  let adjustedStart := sub64 matchStartRunes offset in
  let adjustedEnd := add64 adjustedStart contentRuneCount in
  Some (requests ++
          [UpdateTextStyle (add64 startIndex adjustedStart)
             (add64 startIndex adjustedEnd) isBold (negb isBold)
             (if isBold then lit "bold" else lit "italic")],
        add64 offset markerLength).

Definition parseInlineFormatting (text : gostring) (startIndex : Z)
    : option (gostring * list Request) :=
  let matches := regexp.FindAllStringSubmatchIndex 2 text in
  '(requests, _) <- foldM (styleMatch true text startIndex) matches ([], 0) ;;
  let plainText := regexp.ReplaceAllString 2 text in
  let italicMatches := regexp.FindAllStringSubmatchIndex 1 plainText in
  '(requests, _) <-
    foldM (styleMatch false plainText startIndex) italicMatches
      (requests, 0) ;;
  let plainText := regexp.ReplaceAllString 1 plainText in
  Some (plainText, requests).

(** [for _, c := range line { if c == '#' { level++ } else { break } }]. *)
Fixpoint headingLevel (skip : nat) (line : gostring) : Z :=
  match line with
  | [] => 0
  | _ :: t =>
    match skip with
    | S k => headingLevel k t
    | O =>
      let '(c, size) := utf8.DecodeRuneInString line in
      if c =? 35 then 1 + headingLevel (size - 1) t else 0
    end
  end.

(** The body of the loop of [MarkdownToDocsRequests] for one line: the
    state is the requests and [currentIndex]. *)
Definition compileLine (st : list Request * Z) (line : gostring)
    : option (list Request * Z) :=
  let '(requests, currentIndex) := st in
  let line := TrimSpace line in
  if eqbytes line [] then
    Some (requests ++ [InsertText currentIndex nl], add64 currentIndex 1)
  else if HasPrefix line (lit "#") then
    let level := headingLevel 0 line in
    rest <- slice line level (len64 line) ;;
    let text := TrimSpace rest in
    let styleType := lit "HEADING_" ++ fmt.Sprintf_d level in
    let textLen := runeCount64 text in
    Some (requests ++
            [InsertText currentIndex (text ++ nl);
             UpdateParagraphStyle currentIndex
               (add64 (add64 currentIndex textLen) 1) styleType
               (lit "namedStyleType")],
          add64 currentIndex (add64 textLen 1))
  else
    '(processedText, formatRequests) <-
      parseInlineFormatting line currentIndex ;;
    let textLen := runeCount64 processedText in
    Some ((requests ++ [InsertText currentIndex (processedText ++ nl)])
            ++ formatRequests,
          add64 currentIndex (add64 textLen 1)).

Definition MarkdownToDocsRequests (markdown : gostring) (startIndex : Z)
    : option (list Request) :=
  let lines := SplitLines markdown in
  '(requests, _) <- foldM compileLine lines ([], startIndex) ;;
  Some requests.

(** ** Package conversion: colors *)

(** [docs.RgbColor], its channels in units of 1/255: the source stores
    [float64(r) / 255.0]. *)
Record RgbColor : Type := mkRgbColor { Red : Z; Green : Z; Blue : Z }.

(** [ParseColor]; [None] is the nil pointer. *)
Definition ParseColor (hexColor : gostring) : option RgbColor :=
  let hexColor := TrimPrefix hexColor (lit "#") in
  if negb (List.length hexColor =? 6)%nat then None
  else
    let '(r, g, b) := fmt.Sscanf_02x3 hexColor in
    Some (mkRgbColor r g b).

End conversion.

(** ** Package main: the older copy of the translation (helpers.go) *)

Module main.

Import strings.

(** [formatParagraphAsMarkdown] of package main. *)
Definition formatParagraphAsMarkdown (paragraph : Paragraph) : gostring :=
  let result :=
    fold_left
      (fun text element =>
         match ElementTextRun element with
         | Some run =>
           let content := Content run in
           let content :=
             match RunStyle run with
             | Some style =>
               let content :=
                 if Bold style then lit "**" ++ TrimSpace content ++ lit "**"
                 else content in
               let content :=
                 if Italic style then lit "*" ++ TrimSpace content ++ lit "*"
                 else content in
               match StyleLink style with
               | Some link =>
                 lit "[" ++ TrimSpace content ++ lit "](" ++ Url link
                   ++ lit ")"
               | None => content
               end
             | None => content
             end in
           text ++ content
         | None => text
         end)
      (Elements paragraph) [] in
  if negb (eqbytes (TrimSpace result) []) then result ++ nl ++ nl
  else [].

(** The body of the loop over the bold matches: the first group is
    sliced whether it took part in the match or not. *)
Definition boldMatch (plainText : gostring) (startIndex : Z)
    (requests : list Request) (m : regexp.submatch)
    : option (list Request) :=
  let start := regexp.m0 m in
  let end_ := regexp.m1 m in
  content <- slice plainText (regexp.m2 m) (regexp.m3 m) ;;
  _ <- (if eqbytes content []
        then slice plainText (regexp.m4 m) (regexp.m5 m)
        else Some content) ;;
  Some (requests ++
          [UpdateTextStyle (add64 startIndex start) (add64 startIndex end_)
             true false (lit "bold")]).

Definition parseInlineFormatting (text : gostring) (startIndex : Z)
    : option (gostring * list Request) :=
  let plainText := text in
  let matches := regexp.FindAllStringSubmatchIndex 2 plainText in
  requests <- foldM (boldMatch plainText startIndex) matches [] ;;
  let plainText := regexp.ReplaceAllString 2 plainText in
  let plainText := regexp.ReplaceAllString 1 plainText in
  Some (plainText, requests).

(** The body of the loop of [markdownToDocsRequests]: lengths are
    [len(text)], the number of bytes. *)
Definition compileLine (st : list Request * Z) (line : gostring)
    : option (list Request * Z) :=
  let '(requests, currentIndex) := st in
  let line := TrimSpace line in
  if eqbytes line [] then
    Some (requests ++ [InsertText currentIndex nl], add64 currentIndex 1)
  else if HasPrefix line (lit "#") then
    let level := conversion.headingLevel 0 line in
    rest <- slice line level (len64 line) ;;
    let text := TrimSpace rest in
    let styleType := lit "HEADING_" ++ fmt.Sprintf_d level in
    Some (requests ++
            [InsertText currentIndex (text ++ nl);
             UpdateParagraphStyle currentIndex
               (add64 (add64 currentIndex (len64 text)) 1) styleType
               (lit "namedStyleType")],
          add64 currentIndex (add64 (len64 text) 1))
  else
    '(processedText, formatRequests) <-
      parseInlineFormatting line currentIndex ;;
    Some ((requests ++ [InsertText currentIndex (processedText ++ nl)])
            ++ formatRequests,
          add64 currentIndex (add64 (len64 processedText) 1)).

Definition markdownToDocsRequests (markdown : gostring) (startIndex : Z)
    : option (list Request) :=
  let lines := SplitLines markdown in
  '(requests, _) <- foldM compileLine lines ([], startIndex) ;;
  Some requests.

End main.

(** ** Package document: the structure extractor *)

Module document.

Import strings.

Record Section : Type := mkSection {
  SectionEndIndex : Z;
  Level : Z;
  SectionStartIndex : Z;
  SectionTitle : gostring
}.

(** The body of the loop of [GetStructure] for one element: the section
    it appends, if any. *)
Definition sectionOf (element : StructuralElement) : option Section :=
  match ElementParagraph element with
  | Some paragraph =>
    match ParaStyle paragraph with
    | Some style =>
      let styleType := NamedStyleType style in
      if negb (eqbytes styleType []) && HasPrefix styleType (lit "HEADING_")
      then
        let level := fmt.Sscanf_HEADING_d (skipn 8 styleType) in
        let text := conversion.GetParagraphText paragraph in
        Some (mkSection (EndIndex element) level (StartIndex element) text)
      else None
    | None => None
    end
  | None => None
  end.

Definition GetStructure (doc : Document) : list Section :=
  fold_left
    (fun sections element =>
       match sectionOf element with
       | Some section => sections ++ [section]
       | None => sections
       end)
    (BodyContent (DocBody doc)) [].

Section Lookup.

Variable simpleFoldReaches : Z -> Z -> bool.

(** The loop of [FindSection], which returns at the first match. *)
Fixpoint findIn (sections : list Section) (sectionName : gostring)
    : option Section :=
  match sections with
  | [] => None
  | section :: rest =>
    if EqualFold simpleFoldReaches (SectionTitle section) sectionName
    then Some section
    else findIn rest sectionName
  end.

(** [FindSection]; [None] is the nil pointer. *)
Definition FindSection (doc : Document) (sectionName : gostring)
    : option Section :=
  findIn (GetStructure doc) sectionName.

End Lookup.

End document.

(** ** Package cli: the requests the commands build

    A command fetches the document, builds a list of requests and sends
    it in one batch update.  The definitions below are the code of a
    command between the two calls, as a function of the document it
    fetched and of its parsed arguments: [None] is a run-time panic,
    [Failed] the error the command returns without sending anything,
    [Sent] the requests it passes to [BatchUpdate]. *)

Module cli.

(** The requests of the commands: the deletion of a range, and the
    requests of the conversion package. *)
Inductive BatchRequest : Type :=
| DeleteContentRange (startIndex endIndex : Z)
| Conversion (request : Request).

Inductive Outcome : Type :=
| Failed (message : gostring)
| Sent (requests : list BatchRequest).

(** [xs[i]] for an [int] index: Go panics unless [0 <= i < len(xs)]. *)
Definition index {A : Type} (xs : list A) (i : Z) : option A :=
  if i <? 0 then None else nth_error xs (Z.to_nat i).

(** [len(xs)], an [int]. *)
Definition len {A : Type} (xs : list A) : Z := Z.of_nat (List.length xs).

(** The loop of [runUpdateTableCell] over [doc.Body.Content], which
    breaks at the first table that starts at the index; [None] is the nil
    table. *)
Fixpoint findTable (content : list StructuralElement) (tableStartIndex : Z)
    : option Table :=
  match content with
  | [] => None
  | element :: rest =>
    match ElementTable element with
    | Some table =>
      if StartIndex element =? tableStartIndex then Some table
      else findTable rest tableStartIndex
    | None => findTable rest tableStartIndex
    end
  end.

(** [runUpdateTableCell], from the document to the requests. *)
Definition runUpdateTableCell (doc : Document) (tableStartIndex : Z)
    (row col : Z) (text : gostring) : option Outcome :=
  match findTable (BodyContent (DocBody doc)) tableStartIndex with
  | None =>
    Some (Failed (lit "table not found at index "
                    ++ fmt.Sprintf_d tableStartIndex))
  | Some table =>
    outOfBounds <-
      (if row >=? len (TableRows table) then Some true
       else first <- index (TableRows table) 0 ;;
            Some (col >=? len (TableCells first))) ;;
    if (outOfBounds : bool) then Some (Failed (lit "row/col out of bounds"))
    else
      tableRow <- index (TableRows table) row ;;
      cell <- index (TableCells tableRow) col ;;
      first <- index (CellContent cell) 0 ;;
      let startIdx := StartIndex first in
      last <- index (CellContent cell) (len (CellContent cell) - 1) ;;
      let endIdx := EndIndex last in
      Some (Sent [DeleteContentRange startIdx (sub64 endIdx 1);
                  Conversion (InsertText startIdx text)])
  end.

(** [runSetMarkdown], from the document and the content of the file to
    the requests. *)
Definition runSetMarkdown (doc : Document) (content : gostring)
    : option Outcome :=
  last <- index (BodyContent (DocBody doc))
            (len (BodyContent (DocBody doc)) - 1) ;;
  let endIndex := EndIndex last in
  let requests :=
    if endIndex >? 2 then [DeleteContentRange 1 (sub64 endIndex 1)]
    else [] in
  markdownRequests <- conversion.MarkdownToDocsRequests content 1 ;;
  Some (Sent (requests ++ map Conversion markdownRequests)).

Section Sections.

Variable simpleFoldReaches : Z -> Z -> bool.

(** [runInsertAfter], from the document to the requests; it has no
    panic. *)
Definition runInsertAfter (doc : Document) (sectionName text : gostring)
    : Outcome :=
  match document.FindSection simpleFoldReaches doc sectionName with
  | None => Failed (lit "section not found: " ++ sectionName)
  | Some section =>
    Sent [Conversion
            (InsertText (document.SectionEndIndex section)
               (nl ++ text ++ nl))]
  end.

(** [runUpdateSection], from the document and the content of the file
    to the requests. *)
Definition runUpdateSection (doc : Document)
    (sectionName content : gostring) : option Outcome :=
  match document.FindSection simpleFoldReaches doc sectionName with
  | None => Some (Failed (lit "section not found: " ++ sectionName))
  | Some section =>
    let requests :=
      [DeleteContentRange (document.SectionEndIndex section)
         (add64 (document.SectionEndIndex section) 1)] in
    markdownRequests <-
      conversion.MarkdownToDocsRequests content
        (document.SectionEndIndex section) ;;
    Some (Sent (requests ++ map Conversion markdownRequests))
  end.

End Sections.

End cli.

(** * Notions the statements use *)

Import strings.

(** The text runs of a paragraph, in order. *)
Definition textRuns (paragraph : Paragraph) : list TextRun :=
  flat_map
    (fun element =>
       match ElementTextRun element with
       | Some run => [run]
       | None => []
       end)
    (Elements paragraph).

(** Every rune of the string, decoded from the left, is white space
    ([skip] as in the loops over runes above). *)
Fixpoint allSpaceFrom (skip : nat) (s : gostring) : bool :=
  match s with
  | [] => true
  | _ :: t =>
    match skip with
    | S k => allSpaceFrom k t
    | O =>
      let '(r, size) := utf8.DecodeRuneInString s in
      unicode.IsSpace r && allSpaceFrom (size - 1) t
    end
  end.

Definition whitespaceOnly (s : gostring) : Prop := allSpaceFrom 0 s = true.


(** The number of occurrences of a byte. *)
Definition countByte (c : ascii) (s : gostring) : nat :=
  List.length (filter (Ascii.eqb c) s).

Definition pipe : ascii := chr 124.
Definition lf : ascii := chr 10.

(** A cell text that holds neither a pipe nor a line feed. *)
Definition plainCell (s : gostring) : Prop :=
  countByte pipe s = 0%nat /\ countByte lf s = 0%nat.

(** The pipe-delimited line of a table row. *)
Definition rowLine (row : TableRow) : gostring :=
  lit "|" ++
  flat_map (fun cell => lit " " ++ conversion.getTableCellText cell ++ lit " |")
    (TableCells row).

(** The header separator for a row. *)
Definition separatorLine (row : TableRow) : gostring :=
  lit "|" ++ flat_map (fun _ => lit " --- |") (TableCells row).

(** The lines of a rendered table: the first row, the separator, the
    other rows. *)
Definition tableLines (rows : list TableRow) : list gostring :=
  match rows with
  | [] => []
  | header :: others =>
    rowLine header :: separatorLine header :: map rowLine others
  end.

(** The row index is past the header row. *)
Definition tableRowsFromAfterFirst (rowIdx : nat) : bool :=
  negb (rowIdx =? 0)%nat.

(** A string of ASCII bytes. *)
Definition asciiOnly (s : gostring) : Prop :=
  Forall (fun c => byteval c < 0x80) s.

(** The value of a byte with the letters 'A' .. 'Z' lowered. *)
Definition lowerByte (c : ascii) : Z :=
  let v := byteval c in
  if (65 <=? v) && (v <=? 90) then v + 32 else v.

(** The two headings of the example of the section lookup. *)
Definition headingElement (startIndex endIndex : Z) (style text : string)
    : StructuralElement :=
  mkStructuralElement startIndex endIndex
    (Some (mkParagraph
             [mkParagraphElement (Some (mkTextRun (lit text ++ nl) None))]
             (Some (mkParagraphStyle (lit style)))))
    None.

Definition introDoc : Document :=
  mkDocument (lit "Notes")
    (mkBody [headingElement 1 7 "HEADING_1" "Intro";
             headingElement 7 21 "HEADING_2" "intro details"]).

Definition hash : ascii := chr 35.

(** The number of '#' bytes a line begins with. *)
Fixpoint leadingHashes (line : gostring) : nat :=
  match line with
  | c :: t => if Ascii.eqb c hash then S (leadingHashes t) else 0%nat
  | [] => 0%nat
  end.

(** The two bytes of U+00E9, one rune. *)
Definition eAcute : gostring := [chr 195; chr 169].

(** [text[lo:hi]] for indices in range. *)
Definition sub (text : gostring) (lo hi : Z) : gostring :=
  firstn (Z.to_nat (hi - lo)) (skipn (Z.to_nat lo) text).

(** The content a match encloses: its first group, else its second. *)
Definition contentOf (text : gostring) (m : regexp.submatch) : gostring :=
  if 0 <=? regexp.m2 m then sub text (regexp.m2 m) (regexp.m3 m)
  else sub text (regexp.m4 m) (regexp.m5 m).

(** The rune position of a match in the text that is scanned. *)
Definition matchStartRunes (text : gostring) (m : regexp.submatch) : Z :=
  conversion.runeCount64 (sub text 0 (regexp.m0 m)).

(** The rune length of the content of a match. *)
Definition contentRunes (text : gostring) (m : regexp.submatch) : Z :=
  conversion.runeCount64 (contentOf text m).

(** The rune length of the markers of a match: what stripping it
    removes. *)
Definition markerRunes (text : gostring) (m : regexp.submatch) : Z :=
  conversion.runeCount64 (sub text (regexp.m0 m) (regexp.m1 m))
  - contentRunes text m.

(** The rune length of the markers removed by the matches before the
    [k]-th of a stage. *)
Definition removedBefore (text : gostring) (ms : list regexp.submatch)
    (k : nat) : Z :=
  fold_right Z.add 0 (map (markerRunes text) (firstn k ms)).

(** The range of the [k]-th match of a stage, relative to the start
    index: from its rune position less the markers removed before it, over
    the rune length of its content. *)
Definition styleRange (text : gostring) (ms : list regexp.submatch)
    (k : nat) (m : regexp.submatch) : Z * Z :=
  let start := matchStartRunes text m - removedBefore text ms k in
  (start, start + contentRunes text m).

(** The text style operation over a range moved to the start index [s],
    in int64. *)
Definition styleOp (isBold : bool) (s : Z) (r : Z * Z) : Request :=
  UpdateTextStyle (wrap64 (s + fst r)) (wrap64 (s + snd r)) isBold
    (negb isBold) (if isBold then lit "bold" else lit "italic").

(** The operations of a stage, one per match, in the order of the
    matches. *)
Definition stageOps (isBold : bool) (text : gostring) (s : Z)
    (ms : list regexp.submatch) : list Request :=
  map (fun km => styleOp isBold s (styleRange text ms (fst km) (snd km)))
    (combine (seq 0 (List.length ms)) ms).

(** A match of the pattern with delimiters of [n] bytes: it lies in the
    text as delimiter, content, delimiter, and its indices say so. *)
Definition wellFormed (n : nat) (text : gostring) (m : regexp.submatch)
    : Prop :=
  exists d c before after,
    byteval d < 0x80 /\ c <> []
    /\ text = before ++ repeat d n ++ c ++ repeat d n ++ after
    /\ regexp.m0 m = len64 before
    /\ regexp.m1 m = len64 before + Z.of_nat n + len64 c + Z.of_nat n
    /\ ((regexp.m2 m = len64 before + Z.of_nat n
         /\ regexp.m3 m = len64 before + Z.of_nat n + len64 c
         /\ regexp.m4 m = -1 /\ regexp.m5 m = -1)
        \/ (regexp.m2 m = -1 /\ regexp.m3 m = -1
            /\ regexp.m4 m = len64 before + Z.of_nat n
            /\ regexp.m5 m = len64 before + Z.of_nat n + len64 c)).

(** A trimmed line on which the inline-formatting pass finds nothing to
    do: a heading line, or a line neither pattern matches. *)
Definition noInlineSpan (l : gostring) : Prop :=
  HasPrefix l (lit "#") = true
  \/ (regexp.FindAllStringSubmatchIndex 2 l = []
      /\ regexp.FindAllStringSubmatchIndex 1 l = []).

(** ** Round trip: the documents and the operations it is stated for *)

(** An ASCII byte that is not white space. *)
Definition nonBlankAscii (c : ascii) : Prop :=
  byteval c < 0x80 /\ asciiSpace c = false.

(** A text that is not empty and begins and ends with such a byte:
    trimming leaves it as it is. *)
Definition edgeAscii (t : gostring) : Prop :=
  match t with
  | [] => False
  | c :: _ => nonBlankAscii c /\ nonBlankAscii (last t c)
  end.


(** The named style of the heading level [level]. *)
Definition headingStyle (level : nat) : gostring :=
  lit "HEADING_" ++ fmt.Sprintf_d (Z.of_nat level).



(** The named style of a paragraph, empty when it has none. *)
Definition namedStyle (paragraph : Paragraph) : gostring :=
  match ParaStyle paragraph with
  | Some style => NamedStyleType style
  | None => []
  end.

(** The level of a named style that is one of the six heading styles. *)
Definition headingLevelOf (styleType : gostring) : option nat :=
  if eqbytes styleType (lit "HEADING_1") then Some 1%nat
  else if eqbytes styleType (lit "HEADING_2") then Some 2%nat
  else if eqbytes styleType (lit "HEADING_3") then Some 3%nat
  else if eqbytes styleType (lit "HEADING_4") then Some 4%nat
  else if eqbytes styleType (lit "HEADING_5") then Some 5%nat
  else if eqbytes styleType (lit "HEADING_6") then Some 6%nat
  else None.










(** ** What the compiled operations insert, and where *)

(** The texts the operations insert, in order. *)
Definition insertedTexts (ops : list Request) : list gostring :=
  flat_map
    (fun r =>
       match r with
       | InsertText _ text => [text]
       | _ => []
       end)
    ops.

(** The number of runes the operations insert. *)
Definition runesInserted (ops : list Request) : Z :=
  fold_right (fun text n => conversion.runeCount64 text + n) 0
    (insertedTexts ops).

(** An operation with its indices moved by [d], in int64. *)
Definition shiftRequest (d : Z) (r : Request) : Request :=
  match r with
  | InsertText index text => InsertText (wrap64 (index + d)) text
  | UpdateParagraphStyle startIndex endIndex style fields =>
    UpdateParagraphStyle (wrap64 (startIndex + d)) (wrap64 (endIndex + d))
      style fields
  | UpdateTextStyle startIndex endIndex bold italic fields =>
    UpdateTextStyle (wrap64 (startIndex + d)) (wrap64 (endIndex + d))
      bold italic fields
  end.

(** ** Styled runs *)

Definition star : ascii := chr 42.

(** The markers of a style: two stars for bold, one more for italic. *)
Definition stars (style : TextStyle) : gostring :=
  repeat star
    ((if Bold style then 2 else 0) + (if Italic style then 1 else 0)).

(** ** Colors *)

(** The value of a hexadecimal digit, in either case. *)
Definition hexValue (c : ascii) : option Z :=
  let b := byteval c in
  if (48 <=? b) && (b <=? 57) then Some (b - 48)
  else if (97 <=? b) && (b <=? 102) then Some (b - 87)
  else if (65 <=? b) && (b <=? 70) then Some (b - 55)
  else None.

(** ** The older copy and bold spans with underscores *)

(** The text holds a bold span written with underscores: a match of the
    bold pattern in which the first group took no part. *)
Definition hasUnderscoreBold (text : gostring) : bool :=
  existsb (fun m => regexp.m2 m =? -1)
    (regexp.FindAllStringSubmatchIndex 2 text).

(** ** Texts the inline pass leaves alone *)

(** A text without the bytes the inline patterns begin with. *)
Definition noMarker (s : gostring) : Prop :=
  countByte regexp.star s = 0%nat /\ countByte regexp.underscore s = 0%nat.

(** The text a line inserts when the inline pass has nothing to do: the
    trimmed line, without its hashes and trimmed again if it begins with
    one. *)
Definition lineText (line : gostring) : gostring :=
  let line := TrimSpace line in
  if HasPrefix line (lit "#")
  then TrimSpace (skipn (leadingHashes line) line)
  else line.

(** The operation sets a text style. *)
Definition isTextStyle (r : Request) : bool :=
  match r with
  | UpdateTextStyle _ _ _ _ _ => true
  | _ => false
  end.

(** The operation sets a paragraph style. *)
Definition isParagraphStyle (r : Request) : bool :=
  match r with
  | UpdateParagraphStyle _ _ _ _ => true
  | _ => false
  end.

(** A cell text the compiler inserts as it is: no line feed, no star, no
    underscore. *)
Definition verbatimCell (cell : TableCell) : Prop :=
  countByte lf (conversion.getTableCellText cell) = 0%nat
  /\ noMarker (conversion.getTableCellText cell).

(** ** Sections by name *)

(** The element is a heading paragraph whose title the name matches, up
    to case folding. *)
Definition headingNamed (simpleFoldReaches : Z -> Z -> bool)
    (sectionName : gostring) (element : StructuralElement) : bool :=
  match document.sectionOf element with
  | Some section =>
    EqualFold simpleFoldReaches (document.SectionTitle section) sectionName
  | None => false
  end.

(** The runes of a string, as [for _, r := range s] yields them: every
    byte that begins no valid sequence counts as one rune, U+FFFD
    ([skip] as in the loops over runes above). *)
Fixpoint runesFrom (skip : nat) (s : gostring) : list Z :=
  match s with
  | [] => []
  | _ :: t =>
    match skip with
    | S k => runesFrom k t
    | O =>
      let '(r, size) := utf8.DecodeRuneInString s in
      r :: runesFrom (size - 1) t
    end
  end.

Definition runes (s : gostring) : list Z := runesFrom 0 s.

(** Two runes that are equal up to case: the same rune, or an ASCII
    capital and its small letter, or, when one of them is not ASCII, two
    runes of one orbit of the simple case folding of Unicode, which is
    the parameter [simpleFoldReaches] of [EqualFold]. *)
Definition sameUpToCase (simpleFoldReaches : Z -> Z -> bool) (a b : Z)
    : Prop :=
  a = b
  \/ (Z.max a b < 0x80 /\ 65 <= Z.min a b <= 90
      /\ Z.max a b = Z.min a b + 32)
  \/ (0x80 <= Z.max a b /\ simpleFoldReaches (Z.min a b) (Z.max a b) = true).

(** * Properties *)

(** ** Arithmetic on int64 *)

Lemma wrap64_id (z : Z) : in_int64 z -> wrap64 z = z.
Proof.
  unfold in_int64, min_int64, max_int64, wrap64. intros H.
  rewrite Z.mod_small; lia.
Qed.

Lemma wrap64_wrap (a b : Z) : wrap64 (wrap64 a + b) = wrap64 (a + b).
Proof.
  unfold wrap64.
  replace ((a + 2 ^ 63) mod 2 ^ 64 - 2 ^ 63 + b + 2 ^ 63)
    with ((a + 2 ^ 63) mod 2 ^ 64 + b) by ring.
  rewrite Zplus_mod_idemp_l. f_equal. f_equal. ring.
Qed.

Lemma add64_assoc3 (c n : Z) : add64 (add64 c n) 1 = wrap64 (c + n + 1).
Proof. unfold add64. apply wrap64_wrap. Qed.

Lemma add64_step (c n : Z) : add64 c (add64 n 1) = wrap64 (c + n + 1).
Proof.
  unfold add64. rewrite (Z.add_comm c), wrap64_wrap. f_equal. ring.
Qed.

(** ** Lists of bytes *)

Lemma eqbytes_true (a b : gostring) : eqbytes a b = true <-> a = b.
Proof.
  unfold eqbytes. destruct (list_eq_dec ascii_dec a b); split; congruence.
Qed.

Lemma eqbytes_refl (a : gostring) : eqbytes a a = true.
Proof. now apply eqbytes_true. Qed.

Lemma fold_left_append {X : Type} (f : X -> gostring) (xs : list X)
    (acc : gostring) :
  fold_left (fun text x => text ++ f x) xs acc = acc ++ flat_map f xs.
Proof.
  revert acc. induction xs as [| x xs IH]; intros acc; simpl.
  - now rewrite app_nil_r.
  - rewrite IH. now rewrite <- app_assoc.
Qed.

(** ** Bytes, runes and white space *)

Lemma byteval_range (c : ascii) : 0 <= byteval c < 256.
Proof.
  unfold byteval. pose proof (N_ascii_bounded c). lia.
Qed.

Lemma decode_ascii (b : ascii) (t : gostring) :
  byteval b < 0x80 ->
  utf8.DecodeRuneInString (b :: t) = (byteval b, 1%nat).
Proof.
  intros H. unfold utf8.DecodeRuneInString, utf8.first.
  replace (byteval b <? 0x80) with true by (symmetry; apply Z.ltb_lt; lia).
  reflexivity.
Qed.

Lemma IsSpace_ascii (c : ascii) :
  byteval c < 0x80 -> unicode.IsSpace (byteval c) = asciiSpace c.
Proof.
  intros H. pose proof (byteval_range c) as R.
  unfold unicode.IsSpace, asciiSpace.
  replace (0 <=? byteval c) with true by (symmetry; apply Z.leb_le; lia).
  replace (byteval c <=? 0xFF) with true by (symmetry; apply Z.leb_le; lia).
  replace (byteval c =? 0x85) with false by (symmetry; apply Z.eqb_neq; lia).
  replace (byteval c =? 0xA0) with false by (symmetry; apply Z.eqb_neq; lia).
  cbn [andb]. now rewrite !orb_false_r.
Qed.

Lemma allSpace_indexFunc (s : gostring) : forall skip i,
  allSpaceFrom skip s = true ->
  indexFuncFrom unicode.IsSpace false skip i s = -1.
Proof.
  induction s as [| c s IH]; intros skip i H; [reflexivity |].
  cbn [allSpaceFrom indexFuncFrom] in *.
  destruct skip as [| k]; [| now apply IH].
  destruct (utf8.DecodeRuneInString (c :: s)) as [r size].
  apply andb_true_iff in H. destruct H as [Hr Hs].
  rewrite Hr. cbn [Bool.eqb]. now apply IH.
Qed.

Lemma TrimRightFunc_nil (f : Z -> bool) : TrimRightFunc [] f = [].
Proof. reflexivity. Qed.

(** A string of white space only trims to the empty string. *)
Lemma TrimSpace_whitespaceOnly (s : gostring) :
  whitespaceOnly s -> TrimSpace s = [].
Proof.
  unfold whitespaceOnly, TrimSpace.
  induction s as [| c s IH]; intros H; [reflexivity |].
  cbn [trimStart].
  destruct (utf8.RuneSelf <=? byteval c) eqn:E.
  - unfold TrimFunc, TrimLeftFunc, indexFunc.
    rewrite allSpace_indexFunc by assumption. reflexivity.
  - apply Z.leb_gt in E. unfold utf8.RuneSelf in E.
    cbn [allSpaceFrom] in H. rewrite decode_ascii in H by assumption.
    apply andb_true_iff in H. destruct H as [Hc Hs].
    rewrite IsSpace_ascii in Hc by assumption. rewrite Hc.
    now apply IH.
Qed.

(** ** The renderer: paragraphs (C7) *)

Lemma fold_left_runs (f : TextRun -> gostring) (els : list ParagraphElement)
    (acc : gostring) :
  fold_left
    (fun text element =>
       match ElementTextRun element with
       | Some run => text ++ f run
       | None => text
       end) els acc
  = acc ++ flat_map f
             (flat_map
                (fun element =>
                   match ElementTextRun element with
                   | Some run => [run]
                   | None => []
                   end) els).
Proof.
  revert acc. induction els as [| e els IH]; intros acc; simpl.
  - now rewrite app_nil_r.
  - rewrite IH. destruct (ElementTextRun e); simpl.
    + now rewrite <- app_assoc.
    + reflexivity.
Qed.

Lemma formatParagraph_rendered (p : Paragraph) :
  conversion.formatParagraphAsMarkdown p
  = if eqbytes (TrimSpace (flat_map conversion.formatRun (textRuns p))) []
    then []
    else flat_map conversion.formatRun (textRuns p) ++ nl ++ nl.
Proof.
  unfold conversion.formatParagraphAsMarkdown, textRuns.
  rewrite fold_left_runs. cbn [app].
  now destruct (eqbytes _ []).
Qed.

Lemma main_formatParagraph_same (p : Paragraph) :
  main.formatParagraphAsMarkdown p = conversion.formatParagraphAsMarkdown p.
Proof. reflexivity. Qed.

Definition plainRun (text : string) : ParagraphElement :=
  mkParagraphElement (Some (mkTextRun (lit text) None)).

(** C7, as stated, fails: a run whose trimmed text is empty is not
    skipped.  The unstyled runs "a", " ", "b" render as "a b" followed by
    two line feeds; without the middle run the paragraph renders as "ab"
    followed by two line feeds. *)
Lemma formatParagraph_keeps_blank_run :
  TrimSpace (conversion.formatRun (mkTextRun (lit " ") None)) = []
  /\ conversion.formatParagraphAsMarkdown
       (mkParagraph [plainRun "a"; plainRun " "; plainRun "b"] None)
     = lit "a b" ++ nl ++ nl
  /\ conversion.formatParagraphAsMarkdown
       (mkParagraph [plainRun "a"; plainRun "b"] None)
     = lit "ab" ++ nl ++ nl
  /\ lit "a b" ++ nl ++ nl <> lit "ab" ++ nl ++ nl.
Proof.
  repeat split; try reflexivity. discriminate.
Qed.

(** C7, amended: the formatted text of every text run of a non-heading
    paragraph is appended in order, a run whose trimmed text is empty
    included; a paragraph whose rendered text is white space only emits
    nothing, any other emits its rendered text followed by two line
    feeds.  Both copies of the renderer do so. *)
Theorem formatParagraph_appends_every_run (p : Paragraph) :
  let rendered := flat_map conversion.formatRun (textRuns p) in
  (conversion.formatParagraphAsMarkdown p
   = if eqbytes (TrimSpace rendered) [] then [] else rendered ++ nl ++ nl)
  /\ main.formatParagraphAsMarkdown p = conversion.formatParagraphAsMarkdown p
  /\ (whitespaceOnly rendered -> conversion.formatParagraphAsMarkdown p = [])
  /\ (conversion.formatParagraphAsMarkdown p <> [] ->
      conversion.formatParagraphAsMarkdown p = rendered ++ nl ++ nl).
Proof.
  cbv zeta.
  split; [apply formatParagraph_rendered |].
  split; [apply main_formatParagraph_same |].
  rewrite formatParagraph_rendered. split.
  - intros H. now rewrite (TrimSpace_whitespaceOnly _ H).
  - destruct (eqbytes _ []); [congruence | reflexivity].
Qed.

(** ** Lines and byte counts *)

Lemma countByte_app (c : ascii) (a b : gostring) :
  countByte c (a ++ b) = (countByte c a + countByte c b)%nat.
Proof. unfold countByte. now rewrite filter_app, length_app. Qed.

Lemma countByte_cons (c d : ascii) (s : gostring) :
  countByte c (d :: s)
  = ((if Ascii.eqb c d then 1 else 0) + countByte c s)%nat.
Proof. unfold countByte. simpl. now destruct (Ascii.eqb c d). Qed.

(** A piece without line feed, then a line feed: the piece is a line. *)
Lemma SplitLines_line (a b : gostring) :
  countByte lf a = 0%nat ->
  SplitLines (a ++ lf :: b) = a :: SplitLines b.
Proof.
  induction a as [| c a IH]; intros H.
  - reflexivity.
  - rewrite countByte_cons in H.
    change ((c :: a) ++ lf :: b) with (c :: (a ++ lf :: b)).
    cbn [SplitLines]. fold lf.
    destruct (Ascii.eqb c lf) eqn:E.
    + rewrite Ascii.eqb_sym, E in H. discriminate.
    + rewrite IH; [reflexivity |].
      destruct (Ascii.eqb lf c); [discriminate | exact H].
Qed.

Lemma SplitLines_last (a : gostring) :
  countByte lf a = 0%nat -> SplitLines a = [a].
Proof.
  induction a as [| c a IH]; intros H; [reflexivity |].
  rewrite countByte_cons in H. cbn [SplitLines]. fold lf.
  destruct (Ascii.eqb c lf) eqn:E.
  - rewrite Ascii.eqb_sym, E in H. discriminate.
  - rewrite IH; [reflexivity |].
    destruct (Ascii.eqb lf c); [discriminate | exact H].
Qed.

(** A string between two ASCII bytes that are no white space is its own
    trimming. *)
Lemma TrimSpace_edges (c d : ascii) (s : gostring) :
  byteval c < 0x80 -> asciiSpace c = false ->
  byteval d < 0x80 -> asciiSpace d = false ->
  TrimSpace ((c :: s) ++ [d]) = (c :: s) ++ [d].
Proof.
  intros Hc Sc Hd Sd. unfold TrimSpace.
  change ((c :: s) ++ [d]) with (c :: (s ++ [d])). cbn [trimStart].
  replace (utf8.RuneSelf <=? byteval c) with false
    by (symmetry; apply Z.leb_gt; exact Hc).
  rewrite Sc.
  change (c :: s ++ [d]) with ((c :: s) ++ [d]).
  rewrite rev_app_distr. cbn [rev app trimStop].
  replace (utf8.RuneSelf <=? byteval d) with false
    by (symmetry; apply Z.leb_gt; exact Hd).
  rewrite Sd.
  now rewrite rev_app_distr, rev_involutive.
Qed.

Lemma TrimSpace_single (c : ascii) :
  byteval c < 0x80 -> asciiSpace c = false -> TrimSpace [c] = [c].
Proof.
  intros Hc Sc. unfold TrimSpace. cbn [trimStart].
  replace (utf8.RuneSelf <=? byteval c) with false
    by (symmetry; apply Z.leb_gt; exact Hc).
  rewrite Sc. cbn [rev app trimStop].
  replace (utf8.RuneSelf <=? byteval c) with false
    by (symmetry; apply Z.leb_gt; exact Hc).
  now rewrite Sc.
Qed.

(** ** The renderer: tables (C8) *)

Lemma tableRow_block (md : gostring) (rowIdx : nat) (row : TableRow) :
  conversion.tableRowToMarkdown md rowIdx row
  = md ++ rowLine row ++ nl
       ++ (if (rowIdx =? 0)%nat then separatorLine row ++ nl else []).
Proof.
  unfold conversion.tableRowToMarkdown, rowLine, separatorLine. cbv zeta.
  destruct (rowIdx =? 0)%nat.
  - rewrite (fold_left_append (fun _ : TableCell => lit " --- |")).
    rewrite (fold_left_append
               (fun cell => lit " " ++ conversion.getTableCellText cell
                              ++ lit " |")).
    now rewrite <- !app_assoc.
  - rewrite (fold_left_append
               (fun cell => lit " " ++ conversion.getTableCellText cell
                              ++ lit " |")).
    now rewrite app_nil_r, <- !app_assoc.
Qed.

Lemma tableRowsFrom_later (rows : list TableRow) : forall i md,
  tableRowsFromAfterFirst i = true ->
  conversion.tableRowsFrom i rows md
  = md ++ flat_map (fun row => rowLine row ++ nl) rows.
Proof.
  induction rows as [| row rows IH]; intros i md Hi; simpl.
  - now rewrite app_nil_r.
  - rewrite IH by reflexivity. rewrite tableRow_block.
    unfold tableRowsFromAfterFirst in Hi.
    apply negb_true_iff in Hi. rewrite Hi.
    now rewrite app_nil_r, <- !app_assoc.
Qed.

Lemma tableToMarkdown_lines (table : Table) :
  conversion.tableToMarkdown table
  = flat_map (fun line => line ++ nl) (tableLines (TableRows table)) ++ nl.
Proof.
  unfold conversion.tableToMarkdown. f_equal.
  destruct (TableRows table) as [| header others]; [reflexivity |].
  cbn [conversion.tableRowsFrom tableLines flat_map].
  rewrite tableRowsFrom_later by reflexivity.
  rewrite tableRow_block. cbn [Nat.eqb app].
  rewrite <- !app_assoc. do 4 f_equal.
  induction others as [| row rows IH]; [reflexivity |].
  cbn [map flat_map]. now rewrite IH.
Qed.

Lemma SplitLines_lines (ls : list gostring) (rest : gostring) :
  Forall (fun l => countByte lf l = 0%nat) ls ->
  SplitLines (flat_map (fun l => l ++ nl) ls ++ rest) = ls ++ SplitLines rest.
Proof.
  induction 1 as [| l ls Hl Hls IH]; [reflexivity |].
  cbn [flat_map]. rewrite <- !app_assoc.
  change (nl ++ flat_map (fun l0 => l0 ++ nl) ls ++ rest)
    with (lf :: (flat_map (fun l0 => l0 ++ nl) ls ++ rest)).
  rewrite SplitLines_line by exact Hl. now rewrite IH.
Qed.

Lemma rowLine_counts (row : TableRow) :
  Forall (fun cell => plainCell (conversion.getTableCellText cell))
    (TableCells row) ->
  countByte pipe (rowLine row) = S (List.length (TableCells row))
  /\ countByte lf (rowLine row) = 0%nat.
Proof.
  unfold rowLine. rewrite !countByte_app.
  induction 1 as [| cell cells [Hp Hn] Hcells [IHp IHn]];
    [split; reflexivity |].
  cbn [flat_map List.length]. rewrite !countByte_app in *.
  rewrite Hp, Hn. split.
  - change (countByte pipe (lit "|")) with 1%nat in *.
    change (countByte pipe (lit " ")) with 0%nat.
    change (countByte pipe (lit " |")) with 1%nat. lia.
  - change (countByte lf (lit "|")) with 0%nat in *.
    change (countByte lf (lit " ")) with 0%nat.
    change (countByte lf (lit " |")) with 0%nat. lia.
Qed.

Lemma separatorLine_counts (row : TableRow) :
  countByte pipe (separatorLine row) = S (List.length (TableCells row))
  /\ countByte lf (separatorLine row) = 0%nat.
Proof.
  unfold separatorLine. rewrite !countByte_app.
  induction (TableCells row) as [| cell cells [IHp IHn]];
    [split; reflexivity |].
  cbn [flat_map List.length]. rewrite !countByte_app in *. split.
  - change (countByte pipe (lit "|")) with 1%nat in *.
    change (countByte pipe (lit " --- |")) with 1%nat. lia.
  - change (countByte lf (lit "|")) with 0%nat in *.
    change (countByte lf (lit " --- |")) with 0%nat. lia.
Qed.

Lemma tableLines_no_lf (rows : list TableRow) :
  Forall
    (fun row =>
       Forall (fun cell => plainCell (conversion.getTableCellText cell))
         (TableCells row)) rows ->
  Forall (fun l => countByte lf l = 0%nat) (tableLines rows).
Proof.
  intros H. destruct H as [| header others Hh Ho]; [constructor |].
  cbn [tableLines]. constructor; [apply rowLine_counts, Hh |].
  constructor; [apply separatorLine_counts |].
  induction Ho as [| row rows Hr Hrows IH]; [constructor |].
  cbn [map]. constructor; [apply rowLine_counts, Hr | exact IH].
Qed.

(** A line that opens with a pipe and closes with one is not blank. *)
Lemma pipe_line_not_blank (l : gostring) :
  TrimSpace (lit "|" ++ l ++ lit "|") = lit "|" ++ l ++ lit "|".
Proof.
  change (lit "|" ++ l ++ lit "|") with ((pipe :: l) ++ [pipe]).
  apply TrimSpace_edges; reflexivity.
Qed.

Definition cellOf (text : string) : TableCell :=
  mkTableCell
    [mkStructuralElement 0 0 (Some (mkParagraph [plainRun text] None)) None].

(** C8, as stated, fails: a cell text with a pipe in it adds a pipe to
    its line.  The 2 x 2 table with the cell texts "a|b", "c", "d", "e"
    has a first line with four pipes. *)
Lemma tableToMarkdown_pipe_in_cell :
  SplitLines
    (conversion.tableToMarkdown
       (mkTable [mkTableRow [cellOf "a|b"; cellOf "c"];
                 mkTableRow [cellOf "d"; cellOf "e"]]))
  = [lit "| a|b | c |"; lit "| --- | --- |"; lit "| d | e |"; []; []]
  /\ countByte pipe (lit "| a|b | c |") = 4%nat.
Proof. split; reflexivity. Qed.

(** C8, amended: for every table whose cell texts hold neither a pipe
    nor a line feed, the renderer emits one pipe-delimited line per row
    with one cell per column, and a separator line right after row 0,
    whatever row 0 holds; the lines are followed by one empty line.  A
    2 x 2 table of such cells renders as three lines that are not blank,
    with three pipes each. *)
Theorem tableToMarkdown_shape (table : Table) :
  Forall
    (fun row =>
       Forall (fun cell => plainCell (conversion.getTableCellText cell))
         (TableCells row)) (TableRows table) ->
  SplitLines (conversion.tableToMarkdown table)
  = tableLines (TableRows table) ++ [[]; []]
  /\ (forall row, In row (TableRows table) ->
      countByte pipe (rowLine row) = S (List.length (TableCells row))
      /\ countByte pipe (separatorLine row)
         = S (List.length (TableCells row)))
  /\ (forall a b c d,
      TableRows table = [mkTableRow [a; b]; mkTableRow [c; d]] ->
      exists header separator data,
        SplitLines (conversion.tableToMarkdown table)
        = [header; separator; data; []; []]
        /\ countByte pipe header = 3%nat
        /\ countByte pipe separator = 3%nat
        /\ countByte pipe data = 3%nat
        /\ TrimSpace header = header /\ header <> []
        /\ TrimSpace separator = separator /\ separator <> []
        /\ TrimSpace data = data /\ data <> []).
Proof.
  intros H.
  assert (Hsplit : SplitLines (conversion.tableToMarkdown table)
                   = tableLines (TableRows table) ++ [[]; []]).
  { rewrite tableToMarkdown_lines.
    rewrite SplitLines_lines by now apply tableLines_no_lf.
    reflexivity. }
  split; [exact Hsplit |]. split.
  - intros row Hin. rewrite Forall_forall in H.
    split; [apply rowLine_counts, H, Hin | apply separatorLine_counts].
  - intros a b c d E. rewrite Hsplit, E. rewrite E in H.
    inversion H as [| r0 rs H0 Hrest]; subst.
    inversion Hrest as [| r1 rs' H1 _]; subst.
    exists (rowLine (mkTableRow [a; b])),
      (separatorLine (mkTableRow [a; b])), (rowLine (mkTableRow [c; d])).
    split; [reflexivity |].
    split; [apply (rowLine_counts _ H0) |].
    split; [apply separatorLine_counts |].
    split; [apply (rowLine_counts _ H1) |].
    unfold rowLine, separatorLine. cbn [TableCells flat_map].
    rewrite !app_nil_r.
    repeat split; try discriminate.
    + rewrite <- !app_assoc. rewrite (app_assoc (lit " ")).
      rewrite !(app_assoc _ _ (lit " |")).
      change (lit " |") with ([chr 32] ++ lit "|").
      rewrite !app_assoc. rewrite <- !(app_assoc (lit "|")).
      apply pipe_line_not_blank.
    + rewrite <- !app_assoc. rewrite (app_assoc (lit " ")).
      rewrite !(app_assoc _ _ (lit " |")).
      change (lit " |") with ([chr 32] ++ lit "|").
      rewrite !app_assoc. rewrite <- !(app_assoc (lit "|")).
      apply pipe_line_not_blank.
Qed.

Definition table2x2 : Table :=
  mkTable [mkTableRow [cellOf "Name"; cellOf "Age"];
           mkTableRow [cellOf "Ann"; cellOf "41"]].

Lemma tableToMarkdown_shape_witness :
  Forall
    (fun row =>
       Forall (fun cell => plainCell (conversion.getTableCellText cell))
         (TableCells row)) (TableRows table2x2)
  /\ SplitLines (conversion.tableToMarkdown table2x2)
     = [lit "| Name | Age |"; lit "| --- | --- |"; lit "| Ann | 41 |";
        []; []].
Proof.
  assert (H : Forall
                (fun row =>
                   Forall
                     (fun cell =>
                        plainCell (conversion.getTableCellText cell))
                     (TableCells row)) (TableRows table2x2))
    by (repeat constructor).
  split; [exact H |].
  exact (proj1 (tableToMarkdown_shape table2x2 H)).
Defined.

(** ** Colors (C9) *)

Lemma ParseColor_length (hexColor : gostring) :
  (List.length (TrimPrefix hexColor (lit "#")) = 6%nat ->
   conversion.ParseColor hexColor
   = Some (let '(r, g, b) :=
             fmt.Sscanf_02x3 (TrimPrefix hexColor (lit "#")) in
           conversion.mkRgbColor r g b))
  /\ (List.length (TrimPrefix hexColor (lit "#")) <> 6%nat ->
      conversion.ParseColor hexColor = None).
Proof.
  unfold conversion.ParseColor. split; intros H.
  - rewrite H. cbn [Nat.eqb negb].
    now destruct (fmt.Sscanf_02x3 _) as [[r g] b].
  - apply Nat.eqb_neq in H. now rewrite H.
Qed.

(** C9 on the code: six bytes that are no hexadecimal digits still give
    a color.  Of "12zzzz" the first verb reads 0x12 and the second one
    fails, the error of [Sscanf] is dropped and the color (18, 0, 0) in
    255ths is returned; "zzzzzz" gives black; a well-formed color and a
    string of another length behave as the claim says. *)
Theorem ParseColor_partial_parse :
  conversion.ParseColor (lit "12zzzz") = Some (conversion.mkRgbColor 18 0 0)
  /\ conversion.ParseColor (lit "#zzzzzz")
     = Some (conversion.mkRgbColor 0 0 0)
  /\ conversion.ParseColor (lit "#ff8000")
     = Some (conversion.mkRgbColor 255 128 0)
  /\ conversion.ParseColor (lit "#ff80") = None.
Proof. repeat split; reflexivity. Qed.

(** ** The structure extractor (C6) *)

Lemma fold_left_sections (els : list StructuralElement)
    (acc : list document.Section) :
  fold_left
    (fun sections element =>
       match document.sectionOf element with
       | Some section => sections ++ [section]
       | None => sections
       end) els acc
  = acc ++ flat_map
             (fun element =>
                match document.sectionOf element with
                | Some section => [section]
                | None => []
                end) els.
Proof.
  revert acc. induction els as [| e els IH]; intros acc; simpl.
  - now rewrite app_nil_r.
  - rewrite IH. destruct (document.sectionOf e); simpl.
    + now rewrite <- app_assoc.
    + reflexivity.
Qed.

Lemma GetStructure_sections (doc : Document) :
  document.GetStructure doc
  = flat_map
      (fun element =>
         match document.sectionOf element with
         | Some section => [section]
         | None => []
         end)
      (BodyContent (DocBody doc)).
Proof.
  unfold document.GetStructure. now rewrite fold_left_sections.
Qed.

Section FindSectionFacts.

Variable simpleFoldReaches : Z -> Z -> bool.

Let matches (name : gostring) (section : document.Section) : bool :=
  EqualFold simpleFoldReaches (document.SectionTitle section) name.

Lemma findIn_some (name : gostring) (sections : list document.Section)
    (section : document.Section) :
  document.findIn simpleFoldReaches sections name = Some section <->
  exists before after,
    sections = before ++ section :: after
    /\ matches name section = true
    /\ Forall (fun s => matches name s = false) before.
Proof.
  unfold matches. induction sections as [| s rest IH]; cbn [document.findIn].
  - split; [discriminate |].
    intros (before & after & E & _). now destruct before.
  - destruct (EqualFold simpleFoldReaches (document.SectionTitle s) name)
      eqn:Es.
    + split.
      * intros [= <-]. exists [], rest. repeat split; [exact Es | constructor].
      * intros (before & after & E & Hm & Hb).
        destruct before as [| b before]; cbn in E.
        -- now injection E as -> _.
        -- injection E as -> _. inversion Hb; congruence.
    + rewrite IH. split.
      * intros (before & after & -> & Hm & Hb).
        exists (s :: before), after. repeat split; [exact Hm |].
        now constructor.
      * intros (before & after & E & Hm & Hb).
        destruct before as [| b before]; cbn in E.
        -- injection E as -> _. congruence.
        -- injection E as -> ->. exists before, after.
           repeat split; [exact Hm | now inversion Hb].
Qed.

Lemma findIn_none (name : gostring) (sections : list document.Section) :
  document.findIn simpleFoldReaches sections name = None <->
  Forall (fun s => matches name s = false) sections.
Proof.
  unfold matches. induction sections as [| s rest IH]; cbn [document.findIn].
  - split; [constructor | reflexivity].
  - destruct (EqualFold simpleFoldReaches (document.SectionTitle s) name)
      eqn:Es.
    + split; [discriminate |]. intros H. inversion H; congruence.
    + rewrite IH. split.
      * intros H. now constructor.
      * intros H. now inversion H.
Qed.

End FindSectionFacts.

Lemma lor_below (a b : Z) :
  0 <= a < 128 -> 0 <= b < 128 -> 0 <= Z.lor a b < 128.
Proof.
  intros Ha Hb.
  assert (H0 : 0 <= Z.lor a b) by (apply Z.lor_nonneg; lia).
  split; [exact H0 |].
  destruct (Z.eq_dec (Z.lor a b) 0) as [E | E]; [lia |].
  change 128 with (2 ^ 7). apply Z.log2_lt_pow2; [lia |].
  rewrite Z.log2_lor by lia.
  assert (La : Z.log2 a < 7).
  { destruct (Z.eq_dec a 0) as [-> | Na]; [reflexivity |].
    apply Z.log2_lt_pow2; [lia | change (2 ^ 7) with 128; lia]. }
  assert (Lb : Z.log2 b < 7).
  { destruct (Z.eq_dec b 0) as [-> | Nb]; [reflexivity |].
    apply Z.log2_lt_pow2; [lia | change (2 ^ 7) with 128; lia]. }
  lia.
Qed.

(** The comparison of two ASCII bytes in [EqualFold]. *)
Lemma fold_ascii_bytes (c d : ascii) :
  byteval c < 0x80 -> byteval d < 0x80 ->
  (if byteval d =? byteval c then true
   else (65 <=? Z.min (byteval c) (byteval d))
        && (Z.min (byteval c) (byteval d) <=? 90)
        && (Z.max (byteval c) (byteval d)
            =? Z.min (byteval c) (byteval d) + 32)) = true
  <-> lowerByte c = lowerByte d.
Proof.
  intros Hc Hd. unfold lowerByte.
  pose proof (byteval_range c). pose proof (byteval_range d).
  destruct (Z.eqb_spec (byteval d) (byteval c)) as [E | E].
  - rewrite E. tauto.
  - rewrite !andb_true_iff, !Z.leb_le, Z.eqb_eq.
    destruct (Z.leb_spec 65 (byteval c)), (Z.leb_spec (byteval c) 90),
      (Z.leb_spec 65 (byteval d)), (Z.leb_spec (byteval d) 90);
      cbn [andb]; lia.
Qed.

(** On ASCII strings [EqualFold] is equality of the whole strings up to
    the case of the letters: no prefix and no part of a title matches. *)
Lemma EqualFold_ascii (simpleFoldReaches : Z -> Z -> bool) (s : gostring) :
  forall t, asciiOnly s -> asciiOnly t ->
  EqualFold simpleFoldReaches s t = true
  <-> map lowerByte s = map lowerByte t.
Proof.
  induction s as [| c s IH]; intros [| d t] Hs Ht; cbn [EqualFold map].
  - cbn. tauto.
  - cbn. split; discriminate.
  - cbn. split; discriminate.
  - inversion Hs as [| ? ? Hc Hs']; inversion Ht as [| ? ? Hd Ht']; subst.
    pose proof (byteval_range c). pose proof (byteval_range d).
    replace (utf8.RuneSelf <=? Z.lor (byteval c) (byteval d)) with false
      by (symmetry; apply Z.leb_gt; unfold utf8.RuneSelf;
          apply lor_below; lia).
    pose proof (fold_ascii_bytes c d Hc Hd) as Hb.
    destruct (byteval d =? byteval c).
    + rewrite (IH t Hs' Ht'). split.
      * intros E. f_equal; [now apply Hb | exact E].
      * now intros [= _ E].
    + destruct ((65 <=? Z.min (byteval c) (byteval d))
                && (Z.min (byteval c) (byteval d) <=? 90)
                && (Z.max (byteval c) (byteval d)
                    =? Z.min (byteval c) (byteval d) + 32)).
      * rewrite (IH t Hs' Ht'). split.
        -- intros E. f_equal; [now apply Hb | exact E].
        -- now intros [= _ E].
      * split; [discriminate |]. intros [= E _].
        apply Hb in E. discriminate.
Qed.

(** ** Decoding: a byte with the high bit never decodes to an ASCII rune *)

Lemma lor_ge_l (a b : Z) : 0 <= a -> 0 <= b -> a <= Z.lor a b.
Proof.
  intros Ha Hb.
  assert (E : Z.lor a b = a + Z.ldiff b a).
  { rewrite Z.add_nocarry_lxor.
    - apply Z.bits_inj'. intros n Hn.
      rewrite Z.lor_spec, Z.lxor_spec, Z.ldiff_spec.
      now destruct (Z.testbit a n), (Z.testbit b n).
    - apply Z.bits_inj'. intros n Hn.
      rewrite Z.land_spec, Z.ldiff_spec, Z.bits_0.
      now destruct (Z.testbit a n), (Z.testbit b n). }
  assert (0 <= Z.ldiff b a) by (apply Z.ldiff_nonneg; lia). lia.
Qed.

Lemma lor2 (a b : Z) : 0 <= a -> 0 <= b -> Z.max a b <= Z.lor a b.
Proof.
  intros Ha Hb. pose proof (lor_ge_l a b Ha Hb).
  pose proof (lor_ge_l b a Hb Ha). rewrite (Z.lor_comm b a) in *. lia.
Qed.

Lemma lor3 (a b c : Z) :
  0 <= a -> 0 <= b -> 0 <= c ->
  Z.max a (Z.max b c) <= Z.lor (Z.lor a b) c.
Proof.
  intros Ha Hb Hc. pose proof (lor2 a b Ha Hb).
  assert (0 <= Z.lor a b) by (apply Z.lor_nonneg; lia).
  pose proof (lor2 (Z.lor a b) c). lia.
Qed.

Lemma lor4 (a b c d : Z) :
  0 <= a -> 0 <= b -> 0 <= c -> 0 <= d ->
  Z.max a (Z.max b (Z.max c d)) <= Z.lor (Z.lor (Z.lor a b) c) d.
Proof.
  intros Ha Hb Hc Hd. pose proof (lor3 a b c Ha Hb Hc).
  assert (0 <= Z.lor (Z.lor a b) c)
    by (apply Z.lor_nonneg; split; [apply Z.lor_nonneg |]; lia).
  pose proof (lor2 (Z.lor (Z.lor a b) c) d). lia.
Qed.

(** The nine kinds of first byte. *)
Lemma first_cases (c : Z) :
  (c < 0x80 /\ utf8.first c = utf8.as_)
  \/ utf8.first c = utf8.xx
  \/ (0xC2 <= c < 0xE0 /\ utf8.first c = utf8.s1)
  \/ (c = 0xE0 /\ utf8.first c = utf8.s2)
  \/ ((0xE1 <= c < 0xED \/ 0xEE <= c < 0xF0) /\ utf8.first c = utf8.s3)
  \/ (c = 0xED /\ utf8.first c = utf8.s4)
  \/ (c = 0xF0 /\ utf8.first c = utf8.s5)
  \/ (0xF1 <= c < 0xF4 /\ utf8.first c = utf8.s6)
  \/ (c = 0xF4 /\ utf8.first c = utf8.s7).
Proof.
  unfold utf8.first.
  repeat match goal with
  | |- context [if ?a <? ?b then _ else _] => destruct (Z.ltb_spec a b)
  | |- context [if ?a =? ?b then _ else _] => destruct (Z.eqb_spec a b)
  end; try lia;
  tauto
  || (repeat (try (left; split; [lia | reflexivity]); right);
      try (split; [lia | reflexivity])).
Qed.

Lemma outside_false (c lo hi : Z) :
  utf8.outside c lo hi = false -> lo <= c <= hi.
Proof.
  unfold utf8.outside. intros H. apply orb_false_iff in H.
  destruct H as [A B]. apply Z.ltb_ge in A. apply Z.ltb_ge in B. lia.
Qed.

Lemma outside_ascii (c lo hi : Z) :
  c < 0x80 -> 0x80 <= lo -> utf8.outside c lo hi = true.
Proof.
  intros Hc Hlo. unfold utf8.outside. apply orb_true_iff. left.
  apply Z.ltb_lt. lia.
Qed.

(** The masks as remainders, the shifts as products. *)
Ltac rune_value :=
  unfold utf8.mask2, utf8.mask3, utf8.mask4, utf8.maskx;
  change 0x1F with (Z.ones 5); change 0x0F with (Z.ones 4);
  change 0x07 with (Z.ones 3); change 0x3F with (Z.ones 6);
  rewrite ?Z.land_ones by lia; rewrite ?Z.shiftl_mul_pow2 by lia;
  change (2 ^ 3) with 8; change (2 ^ 4) with 16; change (2 ^ 5) with 32;
  change (2 ^ 6) with 64; change (2 ^ 12) with 4096;
  change (2 ^ 18) with 262144.

(** The entry of the [first] table known, its width and range follow. *)
Ltac eval_entry :=
  match goal with
  | E : utf8.first _ = ?v |- _ =>
    rewrite E;
    let q := eval vm_compute in (utf8.as_ <=? v) in
    change (utf8.as_ <=? v) with q;
    let k := eval vm_compute in (Z.land v 7) in
    change (Z.land v 7) with k;
    let p := eval vm_compute in (utf8.acceptRanges (Z.shiftr v 4)) in
    change (utf8.acceptRanges (Z.shiftr v 4)) with p;
    cbn -[Z.lor Z.land Z.shiftl byteval len64 utf8.outside]
  end.

Ltac split_outside :=
  match goal with
  | |- context [utf8.outside ?a ?b ?c] =>
    let O := fresh "O" in
    destruct (utf8.outside a b c) eqn:O;
    [cbn; lia | apply outside_false in O]
  end.

Lemma decode_high (b : ascii) (t : gostring) :
  0x80 <= byteval b -> 0x80 <= fst (utf8.DecodeRuneInString (b :: t)).
Proof.
  intros H. pose proof (byteval_range b) as R.
  unfold utf8.DecodeRuneInString.
  destruct (first_cases (byteval b))
    as [[A E] | [E | [[A E] | [[A E] | [[A E] | [[A E] | [[A E]
       | [[A E] | [A E]]]]]]]]];
    try lia; eval_entry; unfold utf8.RuneError; try (cbn; lia).
  all: match goal with
       | |- context [len64 ?s <? ?k] => destruct (len64 s <? k)
       end; [cbn; lia |].
  all: destruct t as [| b1 t1]; [cbn; lia |].
  all: split_outside; pose proof (byteval_range b1).
  all: try (destruct t1 as [| b2 t2]; [cbn; lia |];
            split_outside; pose proof (byteval_range b2)).
  all: try (destruct t2 as [| b3 t3]; [cbn; lia |];
            split_outside; pose proof (byteval_range b3)).
  all: cbn [fst]; rune_value.
  all: eapply Z.le_trans;
    [| first [apply lor4 | apply lor3 | apply lor2]];
    Z.to_euclidean_division_equations; lia.
Qed.

Lemma byteval_inj (c d : ascii) : byteval c = byteval d -> c = d.
Proof.
  unfold byteval. intros H. apply N2Z.inj in H.
  rewrite <- (ascii_N_embedding c), <- (ascii_N_embedding d).
  now rewrite H.
Qed.

Lemma eqb_byteval (c d : ascii) :
  Ascii.eqb c d = (byteval c =? byteval d).
Proof.
  destruct (Ascii.eqb_spec c d) as [-> | N].
  - now rewrite Z.eqb_refl.
  - symmetry. apply Z.eqb_neq. intros E. apply N. now apply byteval_inj.
Qed.

(** The loop over the runes of a line counts its leading '#' bytes. *)
Lemma headingLevel_leadingHashes (line : gostring) :
  conversion.headingLevel 0 line = Z.of_nat (leadingHashes line).
Proof.
  induction line as [| c t IH]; [reflexivity |].
  cbn [conversion.headingLevel leadingHashes].
  rewrite eqb_byteval. change (byteval hash) with 35.
  destruct (Z.ltb_spec (byteval c) 0x80) as [L | G].
  - rewrite decode_ascii by exact L.
    destruct (byteval c =? 35); [| reflexivity].
    cbn [Nat.sub]. rewrite IH. lia.
  - pose proof (decode_high c t G) as D.
    destruct (utf8.DecodeRuneInString (c :: t)) as [r size].
    cbn [fst] in D.
    replace (r =? 35) with false by (symmetry; apply Z.eqb_neq; lia).
    replace (byteval c =? 35) with false
      by (symmetry; apply Z.eqb_neq; lia).
    reflexivity.
Qed.

Lemma leadingHashes_le (line : gostring) :
  (leadingHashes line <= List.length line)%nat.
Proof.
  induction line as [| c t IH]; [apply Nat.le_refl |].
  cbn [leadingHashes List.length]. destruct (Ascii.eqb c hash); lia.
Qed.

Lemma slice_suffix (s : gostring) (n : nat) :
  (n <= List.length s)%nat ->
  slice s (Z.of_nat n) (len64 s) = Some (skipn n s).
Proof.
  intros H. unfold slice, len64.
  replace ((0 <=? Z.of_nat n) && (Z.of_nat n <=? Z.of_nat (List.length s))
           && (Z.of_nat (List.length s) <=? Z.of_nat (List.length s)))
    with true
    by (symmetry; rewrite !andb_true_iff, !Z.leb_le; lia).
  rewrite Nat2Z.id. f_equal. apply firstn_all2. rewrite length_skipn. lia.
Qed.

(** ** The compiler: heading lines (C4) *)

Lemma HasPrefix_hash (l : gostring) :
  HasPrefix l (lit "#") = true -> exists t, l = hash :: t.
Proof.
  destruct l as [| c t]; [discriminate |].
  unfold HasPrefix. cbn [lit list_ascii_of_string List.length firstn].
  intros H. apply andb_true_iff in H. destruct H as [_ H].
  apply eqbytes_true in H. injection H as ->. now exists t.
Qed.

(** C4: a line that, trimmed, begins with '#' is compiled at cursor [c]
    to [InsertText(c, text + "\n")] followed by the paragraph style
    HEADING_n over [c, c + runeLength(text) + 1), where [n] is the number
    of leading '#' and [text] what follows them, trimmed; the cursor
    advances by [runeLength(text) + 1]. *)
Theorem heading_line (requests : list Request) (c : Z) (line : gostring) :
  let l := TrimSpace line in
  let n := leadingHashes l in
  let text := TrimSpace (skipn n l) in
  HasPrefix l (lit "#") = true ->
  in_int64 c ->
  in_int64 (c + conversion.runeCount64 text + 1) ->
  (1 <= n)%nat
  /\ conversion.compileLine (requests, c) line
     = Some (requests ++
               [InsertText c (text ++ nl);
                UpdateParagraphStyle c
                  (c + conversion.runeCount64 text + 1)
                  (lit "HEADING_" ++ fmt.Sprintf_d (Z.of_nat n))
                  (lit "namedStyleType")],
             c + conversion.runeCount64 text + 1).
Proof.
  intros l n text Hp Hc Hend.
  destruct (HasPrefix_hash l Hp) as [t El].
  assert (Hn : (1 <= n)%nat).
  { subst n. rewrite El. cbn [leadingHashes].
    rewrite Ascii.eqb_refl. lia. }
  split; [exact Hn |].
  unfold conversion.compileLine. fold l. rewrite Hp.
  replace (eqbytes l []) with false
    by (rewrite El; reflexivity).
  rewrite headingLevel_leadingHashes. fold n.
  rewrite slice_suffix by apply leadingHashes_le.
  cbn [bind]. fold text.
  rewrite add64_assoc3, add64_step, wrap64_id by exact Hend.
  reflexivity.
Qed.

Lemma heading_line_witness :
  HasPrefix (TrimSpace (lit "###### Six")) (lit "#") = true
  /\ in_int64 1
  /\ conversion.compileLine ([], 1) (lit "###### Six")
     = Some ([InsertText 1 (lit "Six" ++ nl);
              UpdateParagraphStyle 1 5 (lit "HEADING_6")
                (lit "namedStyleType")], 5)
  /\ conversion.MarkdownToDocsRequests (lit "###### Six" ++ nl) 1
     = Some [InsertText 1 (lit "Six" ++ nl);
             UpdateParagraphStyle 1 5 (lit "HEADING_6")
               (lit "namedStyleType");
             InsertText 5 nl].
Proof.
  assert (H1 : HasPrefix (TrimSpace (lit "###### Six")) (lit "#") = true)
    by reflexivity.
  assert (H2 : in_int64 1) by (unfold in_int64; split; discriminate).
  assert (H3 : in_int64 5) by (unfold in_int64; split; discriminate).
  split; [exact H1 |]. split; [exact H2 |]. split.
  - exact (proj2 (heading_line [] 1 (lit "###### Six") H1 H2 H3)).
  - reflexivity.
Defined.

(** ** Decoding before an ASCII byte, trimming of padded lines *)

(** A test of the length against the width of the sequence. *)
Ltac len_test :=
  match goal with
  | |- context [len64 ?s <? ?k] =>
    let L := fresh "L" in
    destruct (Z.ltb_spec (len64 s) k) as [L | L];
    unfold len64 in L; cbn [List.length app] in L;
    rewrite ?length_app in L; cbn [List.length] in L; try lia
  end.

(** A byte tested against a range: out of it when it is ASCII. *)
Ltac same_outside :=
  match goal with
  | |- context [utf8.outside (byteval ?a) ?b ?c] =>
    first
      [ rewrite (outside_ascii (byteval a) b c)
          by (assumption || (unfold utf8.locb; lia))
      | destruct (utf8.outside (byteval a) b c) ]
  end.

Lemma decode_pad (b : ascii) (t : gostring) (d : ascii) (z : gostring) :
  byteval d < 0x80 ->
  utf8.DecodeRuneInString ((b :: t) ++ d :: z)
  = utf8.DecodeRuneInString (b :: t).
Proof.
  intros Hd. unfold utf8.DecodeRuneInString. cbn [app].
  destruct (first_cases (byteval b))
    as [[A E] | [E | [[A E] | [[A E] | [[A E] | [[A E] | [[A E]
       | [[A E] | [A E]]]]]]]]];
    eval_entry; try reflexivity.
  all: destruct t as [| b1 [| b2 [| b3 t]]]; cbn [app].
  all: repeat len_test.
  all: repeat same_outside; try reflexivity.
Qed.

Lemma decode_runeStep (s : gostring) :
  snd (utf8.DecodeRuneInString s) = utf8.runeStep s.
Proof.
  destruct s as [| b t]; [reflexivity |].
  unfold utf8.DecodeRuneInString, utf8.runeStep.
  destruct (first_cases (byteval b))
    as [[A E] | [E | [[A E] | [[A E] | [[A E] | [[A E] | [[A E]
       | [[A E] | [A E]]]]]]]]].
  1: { rewrite E. replace (byteval b <? utf8.RuneSelf) with true
         by (symmetry; apply Z.ltb_lt; exact A). reflexivity. }
  1: { rewrite E. cbn. now destruct (byteval b <? utf8.RuneSelf). }
  all: replace (byteval b <? utf8.RuneSelf) with false
         by (symmetry; apply Z.ltb_ge; unfold utf8.RuneSelf; lia).
  all: eval_entry.
  all: destruct (len64 (b :: t) <? _); [reflexivity |].
  all: destruct t as [| b1 [| b2 [| b3 t]]]; try reflexivity.
  all: repeat match goal with
       | |- context [utf8.outside ?a ?b ?c] => destruct (utf8.outside a b c)
       end; reflexivity.
Qed.

Lemma decode_size (b : ascii) (t : gostring) :
  (1 <= snd (utf8.DecodeRuneInString (b :: t)) <= List.length (b :: t))%nat.
Proof.
  unfold utf8.DecodeRuneInString.
  destruct (first_cases (byteval b))
    as [[A E] | [E | [[A E] | [[A E] | [[A E] | [[A E] | [[A E]
       | [[A E] | [A E]]]]]]]]];
    eval_entry; cbn [List.length snd]; try lia.
  all: destruct t as [| b1 [| b2 [| b3 t]]]; cbn [List.length].
  all: repeat match goal with
       | |- context [len64 ?s <? ?k] => destruct (len64 s <? k)
       | |- context [utf8.outside ?a ?b ?c] => destruct (utf8.outside a b c)
       end; cbn [snd]; lia.
Qed.

Lemma skipn_app_le {A : Type} (n : nat) (l1 l2 : list A) :
  (n <= List.length l1)%nat -> skipn n (l1 ++ l2) = skipn n l1 ++ l2.
Proof.
  intros H. rewrite skipn_app.
  replace (n - List.length l1)%nat with 0%nat by lia. reflexivity.
Qed.

Lemma firstn_app_le {A : Type} (n : nat) (l1 l2 : list A) :
  (n <= List.length l1)%nat -> firstn n (l1 ++ l2) = firstn n l1.
Proof.
  intros H. rewrite firstn_app.
  replace (n - List.length l1)%nat with 0%nat by lia.
  cbn [firstn]. now rewrite app_nil_r.
Qed.

















(** ** The compiler: every line is trimmed first (C10) *)

Lemma compileLine_blank (requests : list Request) (c : Z) (line : gostring) :
  TrimSpace line = [] ->
  conversion.compileLine (requests, c) line
  = Some (requests ++ [InsertText c nl], add64 c 1)
  /\ main.compileLine (requests, c) line
     = Some (requests ++ [InsertText c nl], add64 c 1).
Proof.
  intros E. unfold conversion.compileLine, main.compileLine.
  rewrite E. now split.
Qed.




(** ** Counting runes before an ASCII byte *)

Lemma runeStep_pad (b : ascii) (t : gostring) (d : ascii) (z : gostring) :
  byteval d < 0x80 ->
  utf8.runeStep ((b :: t) ++ d :: z) = utf8.runeStep (b :: t).
Proof.
  intros Hd. rewrite <- !decode_runeStep. now rewrite decode_pad.
Qed.

Lemma runeStep_size (b : ascii) (t : gostring) :
  (1 <= utf8.runeStep (b :: t) <= List.length (b :: t))%nat.
Proof. rewrite <- decode_runeStep. apply decode_size. Qed.

Lemma countFrom_pad (d : ascii) (z x : gostring) : forall skip,
  byteval d < 0x80 -> (skip <= List.length x)%nat ->
  utf8.countFrom skip (x ++ d :: z)
  = (utf8.countFrom skip x + utf8.countFrom 0 (d :: z))%nat.
Proof.
  induction x as [| c x IH]; intros skip Hd Hs.
  - assert (skip = 0%nat) by (cbn in Hs; lia). now subst skip.
  - cbn [app utf8.countFrom]. destruct skip as [| k].
    + change (c :: x ++ d :: z) with ((c :: x) ++ d :: z).
      rewrite runeStep_pad by exact Hd.
      pose proof (runeStep_size c x) as S. cbn [List.length] in S.
      rewrite IH by (exact Hd || lia). reflexivity.
    + apply IH; [exact Hd | cbn in Hs; lia].
Qed.

(** The rune count of a text and of what comes after an ASCII byte add
    up. *)
Lemma runeCount_pad (x : gostring) (d : ascii) (z : gostring) :
  byteval d < 0x80 ->
  utf8.RuneCountInString (x ++ d :: z)
  = (utf8.RuneCountInString x + utf8.RuneCountInString (d :: z))%nat.
Proof.
  intros Hd. unfold utf8.RuneCountInString.
  apply countFrom_pad; [exact Hd | lia].
Qed.

Lemma runeCount_line (text : gostring) :
  conversion.runeCount64 (text ++ nl) = conversion.runeCount64 text + 1.
Proof.
  unfold conversion.runeCount64, nl.
  rewrite runeCount_pad by (cbn; lia). cbn. lia.
Qed.

(** ** The compiler: rune counts and byte counts (C5) *)

(** In the conversion package the cursor moves by the rune count of the
    text a line inserts. *)
Lemma compileLine_cursor (requests requests' : list Request) (c c' : Z)
    (line : gostring) :
  conversion.compileLine (requests, c) line = Some (requests', c') ->
  exists text styles,
    requests' = requests ++ InsertText c text :: styles
    /\ c' = wrap64 (c + conversion.runeCount64 text).
Proof.
  unfold conversion.compileLine.
  destruct (eqbytes (TrimSpace line) []).
  - intros [= <- <-]. exists nl, []. split; [reflexivity |].
    reflexivity.
  - destruct (HasPrefix (TrimSpace line) (lit "#")).
    + destruct (slice _ _ _) as [rest |]; [| discriminate].
      cbn [bind]. intros [= <- <-].
      eexists _, [_]. split; [reflexivity |].
      now rewrite add64_step, runeCount_line, Z.add_assoc.
    + destruct (conversion.parseInlineFormatting _ _)
        as [[processedText formatRequests] |]; [| discriminate].
      cbn [bind]. intros [= <- <-].
      exists (processedText ++ nl), formatRequests. split.
      * now rewrite <- app_assoc.
      * now rewrite add64_step, runeCount_line, Z.add_assoc.
Qed.

(** C5 on the code.  The compiler of the conversion package counts
    runes: for every line the cursor moves by the rune count of the
    inserted text, and the line [eAcute] (one rune, two bytes) moves it
    from 1 to 3.  The copy in package main counts bytes with [len]: the
    same line moves its cursor from 1 to 4, and the heading range of
    "# " followed by [eAcute] ends at 4 where the conversion package
    ends it at 3. *)
Theorem legacy_cursor_counts_bytes :
  (forall requests requests' c c' line,
      conversion.compileLine (requests, c) line = Some (requests', c') ->
      exists text styles,
        requests' = requests ++ InsertText c text :: styles
        /\ c' = wrap64 (c + conversion.runeCount64 text))
  /\ conversion.MarkdownToDocsRequests (eAcute ++ nl ++ lit "x") 1
     = Some [InsertText 1 (eAcute ++ nl); InsertText 3 (lit "x" ++ nl)]
  /\ main.markdownToDocsRequests (eAcute ++ nl ++ lit "x") 1
     = Some [InsertText 1 (eAcute ++ nl); InsertText 4 (lit "x" ++ nl)]
  /\ conversion.MarkdownToDocsRequests (lit "# " ++ eAcute) 1
     = Some [InsertText 1 (eAcute ++ nl);
             UpdateParagraphStyle 1 3 (lit "HEADING_1")
               (lit "namedStyleType")]
  /\ main.markdownToDocsRequests (lit "# " ++ eAcute) 1
     = Some [InsertText 1 (eAcute ++ nl);
             UpdateParagraphStyle 1 4 (lit "HEADING_1")
               (lit "namedStyleType")].
Proof.
  split; [intros; eapply compileLine_cursor; eassumption |].
  repeat split; reflexivity.
Qed.

(** ** The inline-formatting pass (C1) *)

Lemma delim_split (n : nat) (d : ascii) : forall s t,
  regexp.delim n d s = Some t -> s = repeat d n ++ t.
Proof.
  induction n as [| n IH]; intros s t; cbn [regexp.delim repeat app].
  - now intros [= ->].
  - destruct s as [| c s]; [discriminate |].
    destruct (Ascii.eqb_spec c d) as [-> | N]; [| discriminate].
    intros H. now rewrite (IH s t H).
Qed.

Lemma run_split (d : ascii) (s : gostring) :
  s = fst (regexp.run d s) ++ snd (regexp.run d s).
Proof.
  induction s as [| c s IH]; [reflexivity |].
  cbn [regexp.run]. destruct (Ascii.eqb c d); [reflexivity |].
  destruct (regexp.run d s) as [a b]. cbn [fst snd app] in *.
  now rewrite <- IH.
Qed.

Lemma alternative_split (n : nat) (d : ascii) (s c : gostring) :
  regexp.alternative n d s = Some c ->
  c <> [] /\ exists rest, s = repeat d n ++ c ++ repeat d n ++ rest.
Proof.
  unfold regexp.alternative.
  destruct (regexp.delim n d s) as [s1 |] eqn:D1; [| discriminate].
  pose proof (run_split d s1) as R.
  destruct (regexp.run d s1) as [content s2]. cbn [fst snd] in R.
  destruct content as [| x content]; [discriminate |].
  destruct (regexp.delim n d s2) as [rest |] eqn:D2; [| discriminate].
  intros [= <-]. split; [discriminate |]. exists rest.
  apply delim_split in D1. apply delim_split in D2.
  now rewrite D1, R, D2.
Qed.

Lemma matchAt_wellFormed (n : nat) (before s : gostring)
    (m : regexp.submatch) :
  regexp.matchAt n (len64 before) s = Some m ->
  wellFormed n (before ++ s) m
  /\ regexp.m0 m = len64 before /\ regexp.m0 m < regexp.m1 m.
Proof.
  unfold regexp.matchAt.
  destruct (regexp.alternative n regexp.star s) as [c |] eqn:A1.
  - intros [= <-]. apply alternative_split in A1.
    destruct A1 as [Hc [rest ->]]. cbn [regexp.m0 regexp.m1].
    assert (0 < len64 c)
      by (destruct c; [congruence | unfold len64; cbn; lia]).
    split; [| split; [reflexivity | lia]].
    exists regexp.star, c, before, rest. cbn.
    repeat split; try assumption; try lia.
  - destruct (regexp.alternative n regexp.underscore s) as [c |] eqn:A2;
      [| discriminate].
    intros [= <-]. apply alternative_split in A2.
    destruct A2 as [Hc [rest ->]]. cbn [regexp.m0 regexp.m1].
    assert (0 < len64 c)
      by (destruct c; [congruence | unfold len64; cbn; lia]).
    split; [| split; [reflexivity | lia]].
    exists regexp.underscore, c, before, rest. cbn.
    repeat split; try assumption; try lia.
Qed.

Lemma findAllFrom_wellFormed (n : nat) (s : gostring) :
  forall skip before,
  Forall (wellFormed n (before ++ s))
    (regexp.findAllFrom n skip (len64 before) s).
Proof.
  induction s as [| c s IH]; intros skip before; [constructor |].
  cbn [regexp.findAllFrom].
  assert (Hnext : forall k,
    Forall (wellFormed n (before ++ c :: s))
      (regexp.findAllFrom n k (len64 before + 1) s)).
  { intros k. specialize (IH k (before ++ [c])).
    rewrite <- app_assoc in IH. cbn [app] in IH.
    replace (len64 (before ++ [c])) with (len64 before + 1) in IH
      by (unfold len64; rewrite length_app; cbn; lia).
    exact IH. }
  destruct skip as [| k]; [| apply Hnext].
  destruct (regexp.matchAt n (len64 before) (c :: s)) as [m |] eqn:M;
    [| apply Hnext].
  constructor; [| apply Hnext].
  now apply matchAt_wellFormed.
Qed.

Lemma wrap64_add_r (a b : Z) : wrap64 (a + wrap64 b) = wrap64 (a + b).
Proof. rewrite Z.add_comm, wrap64_wrap. f_equal. ring. Qed.

Lemma wrap64_sub_r (a b : Z) : wrap64 (a - wrap64 b) = wrap64 (a - b).
Proof.
  unfold wrap64.
  assert (E : a - ((b + 2 ^ 63) mod 2 ^ 64 - 2 ^ 63) + 2 ^ 63
              = a + 2 ^ 64 - (b + 2 ^ 63) mod 2 ^ 64).
  { generalize ((b + 2 ^ 63) mod 2 ^ 64). intros x. lia. }
  rewrite E, Zminus_mod_idemp_r. f_equal. f_equal. lia.
Qed.

Lemma slice_mid (a b c : gostring) (lo hi : Z) :
  lo = len64 a -> hi = len64 a + len64 b ->
  slice (a ++ b ++ c) lo hi = Some b /\ sub (a ++ b ++ c) lo hi = b.
Proof.
  intros -> ->. unfold slice, sub, len64.
  replace ((0 <=? Z.of_nat (List.length a))
           && (Z.of_nat (List.length a)
               <=? Z.of_nat (List.length a) + Z.of_nat (List.length b))
           && (Z.of_nat (List.length a) + Z.of_nat (List.length b)
               <=? Z.of_nat (List.length (a ++ b ++ c))))
    with true
    by (symmetry; rewrite !andb_true_iff, !Z.leb_le, !length_app; lia).
  rewrite Nat2Z.id.
  replace (Z.to_nat (Z.of_nat (List.length a) + Z.of_nat (List.length b)
                     - Z.of_nat (List.length a)))
    with (List.length b) by lia.
  rewrite skipn_app_le by lia. rewrite skipn_all, app_nil_l.
  rewrite firstn_app_le by lia. rewrite firstn_all. now split.
Qed.

Lemma slice_head (a c : gostring) (hi : Z) :
  hi = len64 a ->
  slice (a ++ c) 0 hi = Some a /\ sub (a ++ c) 0 hi = a.
Proof.
  intros H. apply (slice_mid [] a c 0 hi); [reflexivity |].
  rewrite H. unfold len64. cbn. lia.
Qed.

Lemma runeCount_ascii_head (d : ascii) (x : gostring) :
  byteval d < 0x80 ->
  utf8.RuneCountInString (d :: x) = S (utf8.RuneCountInString x).
Proof.
  intros Hd. unfold utf8.RuneCountInString. cbn [utf8.countFrom].
  unfold utf8.runeStep.
  replace (byteval d <? utf8.RuneSelf) with true
    by (symmetry; apply Z.ltb_lt; exact Hd).
  reflexivity.
Qed.

Lemma runeCount_repeat_head (d : ascii) (n : nat) (x : gostring) :
  byteval d < 0x80 ->
  utf8.RuneCountInString (repeat d n ++ x)
  = (n + utf8.RuneCountInString x)%nat.
Proof.
  intros Hd. induction n as [| n IH]; [reflexivity |].
  cbn [repeat app]. rewrite runeCount_ascii_head by exact Hd.
  rewrite IH. lia.
Qed.

Lemma runeCount_repeat_tail (d : ascii) (n : nat) (x : gostring) :
  byteval d < 0x80 ->
  utf8.RuneCountInString (x ++ repeat d n)
  = (utf8.RuneCountInString x + n)%nat.
Proof.
  intros Hd. destruct n as [| n].
  - cbn [repeat]. rewrite app_nil_r. lia.
  - cbn [repeat]. rewrite runeCount_pad by exact Hd.
    rewrite runeCount_ascii_head by exact Hd.
    rewrite <- (app_nil_r (repeat d n)).
    rewrite runeCount_repeat_head by exact Hd. cbn. lia.
Qed.

(** What a well-formed match gives to the loop body. *)
Lemma wellFormed_facts (n : nat) (text : gostring) (m : regexp.submatch) :
  wellFormed n text m ->
  conversion.matchContent text m = Some (contentOf text m)
  /\ slice text (regexp.m0 m) (regexp.m1 m)
     = Some (sub text (regexp.m0 m) (regexp.m1 m))
  /\ slice text 0 (regexp.m0 m) = Some (sub text 0 (regexp.m0 m))
  /\ markerRunes text m = 2 * Z.of_nat n.
Proof.
  intros (d & c & before & after & Hd & Hc & -> & E0 & E1 & G).
  assert (Hcontent :
            conversion.matchContent
              (before ++ repeat d n ++ c ++ repeat d n ++ after) m = Some c
            /\ contentOf
                 (before ++ repeat d n ++ c ++ repeat d n ++ after) m = c).
  { unfold conversion.matchContent, contentOf.
    assert (Hs : forall lo hi,
               lo = len64 before + Z.of_nat n ->
               hi = len64 before + Z.of_nat n + len64 c ->
               slice (before ++ repeat d n ++ c ++ repeat d n ++ after)
                 lo hi = Some c
               /\ sub (before ++ repeat d n ++ c ++ repeat d n ++ after)
                    lo hi = c).
    { intros lo hi Hlo Hhi.
      rewrite (app_assoc before (repeat d n)).
      apply slice_mid; unfold len64 in *;
        rewrite length_app, repeat_length; lia. }
    unfold len64 in *.
    destruct G as [(G2 & G3 & G4 & G5) | (G2 & G3 & G4 & G5)].
    - destruct (Hs _ _ G2 G3) as [S1 S2]. rewrite S1, S2.
      replace (regexp.m2 m =? -1) with false
        by (symmetry; apply Z.eqb_neq; lia).
      replace (regexp.m3 m =? -1) with false
        by (symmetry; apply Z.eqb_neq; lia).
      replace (0 <=? regexp.m2 m) with true
        by (symmetry; apply Z.leb_le; lia).
      now split.
    - destruct (Hs _ _ G4 G5) as [S1 S2]. rewrite S1, S2.
      rewrite G2, G3. cbn [Z.eqb negb andb Z.leb Z.compare].
      replace (regexp.m4 m =? -1) with false
        by (symmetry; apply Z.eqb_neq; lia).
      replace (regexp.m5 m =? -1) with false
        by (symmetry; apply Z.eqb_neq; lia).
      now split. }
  destruct Hcontent as [C1 C2].
  assert (Hwhole :
            slice (before ++ repeat d n ++ c ++ repeat d n ++ after)
              (regexp.m0 m) (regexp.m1 m)
            = Some (repeat d n ++ c ++ repeat d n)
            /\ sub (before ++ repeat d n ++ c ++ repeat d n ++ after)
                 (regexp.m0 m) (regexp.m1 m)
               = repeat d n ++ c ++ repeat d n).
  { replace (repeat d n ++ c ++ repeat d n ++ after)
      with ((repeat d n ++ c ++ repeat d n) ++ after)
      by (now rewrite <- !app_assoc).
    apply slice_mid; [exact E0 |].
    rewrite E1. unfold len64. rewrite !length_app, !repeat_length. lia. }
  destruct Hwhole as [W1 W2].
  destruct (slice_head before (repeat d n ++ c ++ repeat d n ++ after)
              (regexp.m0 m) E0) as [B1 B2].
  rewrite C1, C2, W1, W2, B1, B2. repeat split.
  unfold markerRunes, contentRunes. rewrite C2, W2.
  unfold conversion.runeCount64.
  rewrite runeCount_repeat_head, runeCount_repeat_tail by exact Hd. lia.
Qed.

Lemma styleMatch_wellFormed (n : nat) (isBold : bool) (text : gostring)
    (s r : Z) (requests : list Request) (m : regexp.submatch) :
  wellFormed n text m ->
  conversion.styleMatch isBold text s (requests, wrap64 r) m
  = Some (requests ++
            [styleOp isBold s
               (matchStartRunes text m - r,
                matchStartRunes text m - r + contentRunes text m)],
          wrap64 (r + markerRunes text m)).
Proof.
  intros H. destruct (wellFormed_facts n text m H) as (C & W & B & _).
  unfold conversion.styleMatch. rewrite C, W, B. cbn [bind].
  unfold styleOp, add64, sub64, markerRunes, contentRunes, matchStartRunes.
  cbn [fst snd].
  set (A := conversion.runeCount64 (sub text 0 (regexp.m0 m))).
  set (N := conversion.runeCount64 (contentOf text m)).
  set (W' := conversion.runeCount64
               (sub text (regexp.m0 m) (regexp.m1 m))).
  repeat (rewrite wrap64_add_r || rewrite wrap64_sub_r
          || rewrite wrap64_wrap).
  replace (s + (A - wrap64 r)) with (s + A - wrap64 r) by ring.
  replace (s + (wrap64 (A - r) + N)) with (wrap64 (A - r) + (s + N))
    by ring.
  rewrite wrap64_sub_r, wrap64_wrap.
  replace (s + A - r) with (s + (A - r)) by ring.
  replace (A - r + (s + N)) with (s + (A - r + N)) by ring.
  reflexivity.
Qed.

Lemma removedBefore_prefix (text : gostring)
    (pre rest : list regexp.submatch) :
  removedBefore text (pre ++ rest) (List.length pre)
  = fold_right Z.add 0 (map (markerRunes text) pre).
Proof.
  unfold removedBefore. rewrite firstn_app_le by lia.
  now rewrite firstn_all.
Qed.

Lemma foldM_stage (n : nat) (isBold : bool) (text : gostring) (s : Z)
    (rest : list regexp.submatch) :
  forall pre requests,
  Forall (wellFormed n text) rest ->
  exists offset,
    foldM (conversion.styleMatch isBold text s) rest
      (requests, wrap64 (removedBefore text (pre ++ rest) (List.length pre)))
    = Some (requests ++
              map (fun km =>
                     styleOp isBold s
                       (styleRange text (pre ++ rest) (fst km) (snd km)))
                (combine (seq (List.length pre) (List.length rest)) rest),
            offset).
Proof.
  induction rest as [| m rest IH]; intros pre requests H.
  - eexists. cbn [foldM List.length seq combine map].
    rewrite (app_nil_r requests). reflexivity.
  - inversion H as [| ? ? Hm Hrest]; subst.
    cbn [foldM]. rewrite (styleMatch_wellFormed n) by exact Hm.
    cbn [bind].
    specialize (IH (pre ++ [m])
                  (requests ++
                     [styleOp isBold s
                        (matchStartRunes text m
                         - removedBefore text (pre ++ m :: rest)
                             (List.length pre),
                         matchStartRunes text m
                         - removedBefore text (pre ++ m :: rest)
                             (List.length pre)
                         + contentRunes text m)]) Hrest).
    destruct IH as [offset IH]. exists offset.
    replace (removedBefore text (pre ++ m :: rest) (List.length pre)
             + markerRunes text m)
      with (removedBefore text ((pre ++ [m]) ++ rest)
              (List.length (pre ++ [m]))).
    + rewrite IH. rewrite <- !app_assoc. cbn [app].
      rewrite length_app. cbn [List.length seq combine map fst snd].
      replace (List.length pre + 1)%nat with (S (List.length pre)) by lia.
      reflexivity.
    + rewrite !removedBefore_prefix. rewrite map_app, fold_right_app.
      cbn [map fold_right].
      generalize (map (markerRunes text) pre). intros l.
      induction l as [| x l IHl]; cbn [fold_right]; lia.
Qed.

Lemma foldM_stageOps (n : nat) (isBold : bool) (text : gostring) (s : Z)
    (requests : list Request) :
  exists offset,
    foldM (conversion.styleMatch isBold text s)
      (regexp.FindAllStringSubmatchIndex n text) (requests, 0)
    = Some (requests ++
              stageOps isBold text s
                (regexp.FindAllStringSubmatchIndex n text),
            offset).
Proof.
  apply (foldM_stage n isBold text s _ [] requests).
  unfold regexp.FindAllStringSubmatchIndex.
  apply (findAllFrom_wellFormed n text 0%nat []).
Qed.


Lemma parseInlineFormatting_stages (text : gostring) (s : Z) :
  conversion.parseInlineFormatting text s
  = Some (regexp.ReplaceAllString 1 (regexp.ReplaceAllString 2 text),
          stageOps true text s (regexp.FindAllStringSubmatchIndex 2 text)
            ++ stageOps false (regexp.ReplaceAllString 2 text) s
                 (regexp.FindAllStringSubmatchIndex 1
                    (regexp.ReplaceAllString 2 text))).
Proof.
  unfold conversion.parseInlineFormatting.
  destruct (foldM_stageOps 2 true text s []) as [o1 E1]. rewrite E1.
  cbn [bind app].
  destruct (foldM_stageOps 1 false (regexp.ReplaceAllString 2 text) s
              (stageOps true text s
                 (regexp.FindAllStringSubmatchIndex 2 text))) as [o2 E2].
  rewrite E2. reflexivity.
Qed.

Lemma nth_error_combine_seq {X : Type} (xs : list X) : forall a k x,
  nth_error xs k = Some x ->
  nth_error (combine (seq a (List.length xs)) xs) k = Some ((a + k)%nat, x).
Proof.
  induction xs as [| y xs IH]; intros a k x H.
  - destruct k; discriminate.
  - cbn [List.length seq combine]. destruct k as [| k]; cbn in *.
    + injection H as ->. now rewrite Nat.add_0_r.
    + rewrite (IH (S a) k x H). f_equal. f_equal. lia.
Qed.

(** The [k]-th operation of a stage is the one of its [k]-th match. *)
Lemma stageOps_nth (isBold : bool) (text : gostring) (s : Z)
    (ms : list regexp.submatch) (k : nat) (m : regexp.submatch) :
  nth_error ms k = Some m ->
  nth_error (stageOps isBold text s ms) k
  = Some (styleOp isBold s (styleRange text ms k m)).
Proof.
  intros H. unfold stageOps. rewrite nth_error_map.
  now rewrite (nth_error_combine_seq ms 0 k m H).
Qed.

(** Every match of a stage loses its two delimiters. *)
Lemma removedBefore_delimiters (n : nat) (text : gostring) (k : nat) :
  (k <= List.length (regexp.FindAllStringSubmatchIndex n text))%nat ->
  removedBefore text (regexp.FindAllStringSubmatchIndex n text) k
  = 2 * Z.of_nat n * Z.of_nat k.
Proof.
  pose proof (findAllFrom_wellFormed n text 0%nat []) as W.
  change (regexp.findAllFrom n 0 (len64 []) text)
    with (regexp.FindAllStringSubmatchIndex n text) in W.
  cbn [app] in W. revert k W.
  generalize (regexp.FindAllStringSubmatchIndex n text). intros ms.
  unfold removedBefore.
  induction ms as [| m ms IH]; intros k W Hk.
  - cbn in Hk. replace k with 0%nat by lia. cbn. lia.
  - destruct k as [| k]; [cbn; lia |].
    inversion W as [| ? ? Wm Wms]; subst.
    cbn [firstn map fold_right].
    destruct (wellFormed_facts n text m Wm) as (_ & _ & _ & ->).
    rewrite IH by (assumption || (cbn in Hk; lia)). lia.
Qed.

Lemma styleOp_in_range (isBold : bool) (s : Z) (r : Z * Z) :
  in_int64 (s + fst r) -> in_int64 (s + snd r) ->
  styleOp isBold s r
  = UpdateTextStyle (s + fst r) (s + snd r) isBold (negb isBold)
      (if isBold then lit "bold" else lit "italic").
Proof.
  intros H1 H2. unfold styleOp. now rewrite !wrap64_id.
Qed.

(** A closed term replaced by its value. *)
Ltac eval_closed t :=
  let v := eval vm_compute in t in change t with v.

Lemma compile_bold_ab (requests : list Request) (s : Z) :
  conversion.compileLine (requests, s) (lit "**ab**")
  = Some (requests ++
            [InsertText s (lit "ab" ++ nl);
             UpdateTextStyle (wrap64 (s + 0)) (wrap64 (s + 2)) true false
               (lit "bold")],
          wrap64 (s + 2 + 1)).
Proof.
  unfold conversion.compileLine.
  eval_closed (TrimSpace (lit "**ab**")).
  cbn [eqbytes list_eq_dec HasPrefix List.length lit list_ascii_of_string
       Nat.leb andb].
  change (eqbytes _ []) with false.
  change (HasPrefix _ (lit "#")) with false. cbv iota.
  rewrite parseInlineFormatting_stages. cbn [bind].
  eval_closed (regexp.ReplaceAllString 2
                 ["*"%char; "*"%char; "a"%char; "b"%char; "*"%char;
                  "*"%char]).
  eval_closed (regexp.FindAllStringSubmatchIndex 2
                 ["*"%char; "*"%char; "a"%char; "b"%char; "*"%char;
                  "*"%char]).
  eval_closed (regexp.ReplaceAllString 1 ["a"%char; "b"%char]).
  eval_closed (regexp.FindAllStringSubmatchIndex 1 ["a"%char; "b"%char]).
  unfold stageOps. cbn [List.length seq combine map fst snd app].
  unfold styleOp.
  match goal with
  | |- context [styleRange ?t ?ms ?k ?m] =>
    eval_closed (styleRange t ms k m)
  end.
  cbn [fst snd].
  eval_closed (conversion.runeCount64 ["a"%char; "b"%char]).
  rewrite add64_step, <- app_assoc. reflexivity.
Qed.

Lemma compileLine_paragraph (requests : list Request) (c : Z)
    (line : gostring) :
  TrimSpace line <> [] ->
  HasPrefix (TrimSpace line) (lit "#") = false ->
  conversion.compileLine (requests, c) line
  = Some ((requests ++
             [InsertText c
                (regexp.ReplaceAllString 1
                   (regexp.ReplaceAllString 2 (TrimSpace line)) ++ nl)])
            ++ stageOps true (TrimSpace line) c
                 (regexp.FindAllStringSubmatchIndex 2 (TrimSpace line))
            ++ stageOps false (regexp.ReplaceAllString 2 (TrimSpace line)) c
                 (regexp.FindAllStringSubmatchIndex 1
                    (regexp.ReplaceAllString 2 (TrimSpace line))),
          wrap64
            (c + conversion.runeCount64
                   (regexp.ReplaceAllString 1
                      (regexp.ReplaceAllString 2 (TrimSpace line))) + 1)).
Proof.
  intros Hne Hp. unfold conversion.compileLine. rewrite Hp.
  replace (eqbytes (TrimSpace line) []) with false
    by (symmetry; destruct (eqbytes (TrimSpace line) []) eqn:E;
        [apply eqbytes_true in E; congruence | reflexivity]).
  rewrite parseInlineFormatting_stages. cbn [bind].
  now rewrite add64_step.
Qed.

(** The ranges of the inline-formatting pass, stage by stage (the
    formula C1 quotes).  The pass returns the text with the bold and then
    the italic markers removed, and one style operation per match, the
    bold ones before the italic ones.  The range of the [k]-th match of a
    stage starts at [s] plus the rune position of the match in the text
    that stage scans, less the rune length of the markers removed by the
    matches before it in that stage (two delimiters each), and spans the
    rune length of its content.  The line "**ab**" inserts "ab\n" with a
    bold range [s, s+2); "**bold** and *italic*" from 5 inserts
    "bold and italic\n" with bold [5,9) and italic [14,20). *)
Theorem inline_ranges (text : gostring) (s : Z) :
  conversion.parseInlineFormatting text s
  = Some (regexp.ReplaceAllString 1 (regexp.ReplaceAllString 2 text),
          stageOps true text s (regexp.FindAllStringSubmatchIndex 2 text)
            ++ stageOps false (regexp.ReplaceAllString 2 text) s
                 (regexp.FindAllStringSubmatchIndex 1
                    (regexp.ReplaceAllString 2 text)))
  /\ (forall isBold scanned ms k m,
      nth_error ms k = Some m ->
      nth_error (stageOps isBold scanned s ms) k
      = Some (UpdateTextStyle
                (wrap64 (s + (matchStartRunes scanned m
                              - removedBefore scanned ms k)))
                (wrap64 (s + (matchStartRunes scanned m
                              - removedBefore scanned ms k
                              + contentRunes scanned m)))
                isBold (negb isBold)
                (if isBold then lit "bold" else lit "italic")))
  /\ (forall n scanned k,
      (k <= List.length (regexp.FindAllStringSubmatchIndex n scanned))%nat ->
      removedBefore scanned (regexp.FindAllStringSubmatchIndex n scanned) k
      = 2 * Z.of_nat n * Z.of_nat k)
  /\ (forall isBold r,
      in_int64 (s + fst r) -> in_int64 (s + snd r) ->
      styleOp isBold s r
      = UpdateTextStyle (s + fst r) (s + snd r) isBold (negb isBold)
          (if isBold then lit "bold" else lit "italic"))
  /\ (forall requests,
      in_int64 s -> in_int64 (s + 3) ->
      conversion.compileLine (requests, s) (lit "**ab**")
      = Some (requests ++
                [InsertText s (lit "ab" ++ nl);
                 UpdateTextStyle s (s + 2) true false (lit "bold")],
              s + 3))
  /\ conversion.compileLine ([], 5) (lit "**bold** and *italic*")
     = Some ([InsertText 5 (lit "bold and italic" ++ nl);
              UpdateTextStyle 5 9 true false (lit "bold");
              UpdateTextStyle 14 20 false true (lit "italic")], 21).
Proof.
  split; [apply parseInlineFormatting_stages |].
  split; [intros isBold scanned ms k m H;
          now rewrite (stageOps_nth isBold scanned s ms k m H) |].
  split; [intros n scanned k; apply removedBefore_delimiters |].
  split; [intros isBold r; apply styleOp_in_range |].
  split; [| reflexivity].
  intros requests Hs Hs3. rewrite compile_bold_ab.
  unfold in_int64, min_int64, max_int64 in Hs, Hs3.
  rewrite !wrap64_id
    by (unfold in_int64, min_int64, max_int64; lia).
  replace (s + 0) with s by lia.
  replace (s + 2 + 1) with (s + 3) by lia.
  reflexivity.
Qed.

(** C1 on the code: the bold ranges do not address the text the compiler
    inserts.  They are computed on the text without its bold markers, in
    which the italic markers still stand, and they are not moved when the
    italic stage removes these.  The line "*i* **b**" from 1 inserts
    "i b\n", which lies over [1,5) with "b" over [3,4), and sets bold
    over [5,6), where nothing was inserted.  The renderer writes a bold
    and italic run "hi" as "***hi***"; compiled from 1 this inserts
    "hi\n" with italic over [1,3), the text, and bold over [2,4), the
    "i" and the line feed. *)
Theorem bold_ranges_ignore_italic_markers :
  conversion.MarkdownToDocsRequests (lit "*i* **b**") 1
  = Some [InsertText 1 (lit "i b" ++ nl);
          UpdateTextStyle 5 6 true false (lit "bold");
          UpdateTextStyle 1 2 false true (lit "italic")]
  /\ sub (lit "i b" ++ nl) (3 - 1) (4 - 1) = lit "b"
  /\ sub (lit "i b" ++ nl) (5 - 1) (6 - 1) = []
  /\ conversion.formatRun
       (mkTextRun (lit "hi") (Some (mkTextStyle true true None)))
     = lit "***hi***"
  /\ conversion.MarkdownToDocsRequests (lit "***hi***") 1
     = Some [InsertText 1 (lit "hi" ++ nl);
             UpdateTextStyle 2 4 true false (lit "bold");
             UpdateTextStyle 1 3 false true (lit "italic")]
  /\ sub (lit "hi" ++ nl) (1 - 1) (3 - 1) = lit "hi"
  /\ sub (lit "hi" ++ nl) (2 - 1) (4 - 1) = lit "i" ++ nl.
Proof. repeat split; vm_compute; reflexivity. Qed.

(** ** The two copies of the compiler (C3) *)

Lemma runeCount_ascii (x : gostring) :
  asciiOnly x -> conversion.runeCount64 x = len64 x.
Proof.
  unfold conversion.runeCount64, len64.
  induction 1 as [| c x Hc Hx IH]; [reflexivity |].
  rewrite runeCount_ascii_head by exact Hc. cbn [List.length]. lia.
Qed.

Lemma asciiOnly_skipn (n : nat) (x : gostring) :
  asciiOnly x -> asciiOnly (skipn n x).
Proof.
  unfold asciiOnly. revert x. induction n as [| n IH]; intros x H;
    [exact H |].
  destruct x as [| c x]; [constructor |].
  cbn [skipn]. apply IH. now inversion H.
Qed.

Lemma asciiOnly_trimStop (r : gostring) :
  asciiOnly r -> asciiOnly (trimStop r).
Proof.
  unfold asciiOnly. induction 1 as [| c r Hc Hr IH]; [constructor |].
  cbn [trimStop].
  replace (utf8.RuneSelf <=? byteval c) with false
    by (symmetry; apply Z.leb_gt; exact Hc).
  destruct (asciiSpace c); [exact IH |].
  apply Forall_rev. now constructor.
Qed.

Lemma asciiOnly_TrimSpace (x : gostring) :
  asciiOnly x -> asciiOnly (TrimSpace x).
Proof.
  unfold TrimSpace. intros H. induction H as [| c x Hc Hx IH];
    [constructor |].
  cbn [trimStart].
  replace (utf8.RuneSelf <=? byteval c) with false
    by (symmetry; apply Z.leb_gt; exact Hc).
  destruct (asciiSpace c); [exact IH |].
  apply asciiOnly_trimStop. unfold asciiOnly. apply Forall_rev.
  now constructor.
Qed.

Lemma asciiOnly_SplitLines (md : gostring) :
  asciiOnly md -> Forall asciiOnly (SplitLines md).
Proof.
  induction 1 as [| c md Hc Hmd IH]; [repeat constructor |].
  cbn [SplitLines]. destruct (Ascii.eqb c (chr 10)).
  - constructor; [constructor | exact IH].
  - destruct (SplitLines md) as [| l ls].
    + repeat constructor. exact Hc.
    + inversion IH; subst. constructor; [| assumption].
      now constructor.
Qed.

Lemma matchAt_none (n : nat) (pos pos' : Z) (s : gostring) :
  regexp.matchAt n pos s = None -> regexp.matchAt n pos' s = None.
Proof.
  unfold regexp.matchAt.
  destruct (regexp.alternative n regexp.star s); [discriminate |].
  destruct (regexp.alternative n regexp.underscore s);
    [discriminate | reflexivity].
Qed.

Lemma replaceAll_no_match (n : nat) (s : gostring) : forall pos,
  regexp.findAllFrom n 0 pos s = [] -> regexp.replaceAllFrom n 0 s = s.
Proof.
  induction s as [| c s IH]; intros pos H; [reflexivity |].
  cbn [regexp.findAllFrom regexp.replaceAllFrom] in *.
  destruct (regexp.matchAt n pos (c :: s)) eqn:M; [discriminate |].
  rewrite (matchAt_none n pos 0 _ M). f_equal. now apply (IH (pos + 1)).
Qed.

Lemma foldM_ext {S X : Type} (f g : S -> X -> option S) (xs : list X) :
  Forall (fun x => forall st, f st x = g st x) xs ->
  forall st, foldM f xs st = foldM g xs st.
Proof.
  induction 1 as [| x xs Hx Hxs IH]; intros st; [reflexivity |].
  cbn [foldM]. rewrite Hx. destruct (g st x); cbn [bind]; [apply IH |].
  reflexivity.
Qed.

Lemma compileLine_agree (st : list Request * Z) (line : gostring) :
  asciiOnly line -> noInlineSpan (TrimSpace line) ->
  main.compileLine st line = conversion.compileLine st line.
Proof.
  intros Ha Hn. destruct st as [requests c].
  apply asciiOnly_TrimSpace in Ha.
  unfold main.compileLine, conversion.compileLine.
  destruct (eqbytes (TrimSpace line) []); [reflexivity |].
  destruct (HasPrefix (TrimSpace line) (lit "#")) eqn:Hp.
  - rewrite headingLevel_leadingHashes.
    rewrite slice_suffix by apply leadingHashes_le. cbn [bind].
    rewrite runeCount_ascii
      by (apply asciiOnly_TrimSpace, asciiOnly_skipn, Ha).
    reflexivity.
  - destruct Hn as [Hn | [H2 H1]]; [congruence |].
    rewrite parseInlineFormatting_stages.
    unfold main.parseInlineFormatting. rewrite H2. cbn [foldM bind].
    assert (R2 : regexp.ReplaceAllString 2 (TrimSpace line)
                 = TrimSpace line)
      by (apply (replaceAll_no_match 2 _ 0), H2).
    rewrite R2, H1.
    assert (R1 : regexp.ReplaceAllString 1 (TrimSpace line)
                 = TrimSpace line)
      by (apply (replaceAll_no_match 1 _ 0), H1).
    rewrite R1. cbn [stageOps List.length seq combine map app].
    rewrite runeCount_ascii by exact Ha. reflexivity.
Qed.

(** C3 on the code: the older copy does not do what the newer one does
    where the inline pass has something to do.  For "**ab**" from 1 the older copy sets bold over
    [1,7), the bytes of the match with its markers, the newer over [1,3);
    for "*a*" the older copy emits no italic operation; for "__x__" the
    older copy slices with the index -1 of the absent first group and
    panics. *)
Lemma compilers_differ_on_inline_spans :
  main.markdownToDocsRequests (lit "**ab**") 1
  = Some [InsertText 1 (lit "ab" ++ nl);
          UpdateTextStyle 1 7 true false (lit "bold")]
  /\ conversion.MarkdownToDocsRequests (lit "**ab**") 1
     = Some [InsertText 1 (lit "ab" ++ nl);
             UpdateTextStyle 1 3 true false (lit "bold")]
  /\ main.markdownToDocsRequests (lit "*a*") 1
     = Some [InsertText 1 (lit "a" ++ nl)]
  /\ conversion.MarkdownToDocsRequests (lit "*a*") 1
     = Some [InsertText 1 (lit "a" ++ nl);
             UpdateTextStyle 1 2 false true (lit "italic")]
  /\ main.markdownToDocsRequests (lit "__x__") 1 = None
  /\ conversion.MarkdownToDocsRequests (lit "__x__") 1
     = Some [InsertText 1 (lit "x" ++ nl);
             UpdateTextStyle 1 2 true false (lit "bold")].
Proof. repeat split; reflexivity. Qed.

(** Where the two copies are known to agree: on every markdown input of
    ASCII bytes whose lines, heading lines apart, hold no bold and no
    italic span (neither pattern matches), and for every start index,
    they produce the same sequence of operations. *)
Theorem compilers_agree_without_inline (markdown : gostring) (s : Z) :
  asciiOnly markdown ->
  Forall (fun line => noInlineSpan (TrimSpace line)) (SplitLines markdown) ->
  main.markdownToDocsRequests markdown s
  = conversion.MarkdownToDocsRequests markdown s.
Proof.
  intros Ha Hn.
  unfold main.markdownToDocsRequests, conversion.MarkdownToDocsRequests.
  rewrite (foldM_ext main.compileLine conversion.compileLine); [reflexivity |].
  apply asciiOnly_SplitLines in Ha.
  rewrite Forall_forall in *. intros line Hin st.
  apply compileLine_agree; [apply Ha | apply Hn]; exact Hin.
Qed.

Definition plainMarkdown : gostring :=
  lit "# Title" ++ nl ++ nl ++ lit "  plain a*b text" ++ nl.

Lemma compilers_agree_without_inline_witness :
  asciiOnly plainMarkdown
  /\ Forall (fun line => noInlineSpan (TrimSpace line))
       (SplitLines plainMarkdown)
  /\ main.markdownToDocsRequests plainMarkdown 1
     = conversion.MarkdownToDocsRequests plainMarkdown 1
  /\ conversion.MarkdownToDocsRequests plainMarkdown 1
     = Some [InsertText 1 (lit "Title" ++ nl);
             UpdateParagraphStyle 1 7 (lit "HEADING_1")
               (lit "namedStyleType");
             InsertText 7 nl;
             InsertText 8 (lit "plain a*b text" ++ nl);
             InsertText 23 nl].
Proof.
  assert (H1 : asciiOnly plainMarkdown)
    by (repeat constructor).
  assert (H2 : Forall (fun line => noInlineSpan (TrimSpace line))
                 (SplitLines plainMarkdown)).
  { repeat constructor; first [left; reflexivity | right; split; reflexivity]. }
  split; [exact H1 |]. split; [exact H2 |]. split.
  - exact (compilers_agree_without_inline plainMarkdown 1 H1 H2).
  - reflexivity.
Defined.

(** ** Round trip of rendering and compiling *)

Lemma SplitLines_cons (a : gostring) :
  exists l ls, SplitLines a = l :: ls.
Proof.
  induction a as [| c a [l [ls IH]]]; [now exists [], [] |].
  cbn [SplitLines]. destruct (Ascii.eqb c (chr 10)).
  - now exists [], (SplitLines a).
  - rewrite IH. now exists (c :: l), ls.
Qed.

Lemma SplitLines_app_lf (a b : gostring) :
  SplitLines (a ++ lf :: b) = SplitLines a ++ SplitLines b.
Proof.
  induction a as [| c a IH]; [reflexivity |].
  cbn [app SplitLines]. fold lf. destruct (Ascii.eqb c lf).
  - now rewrite IH.
  - rewrite IH. destruct (SplitLines_cons a) as [l [ls E]].
    now rewrite E.
Qed.



Lemma foldM_app {S X : Type} (f : S -> X -> option S) (xs ys : list X) :
  forall st,
  foldM f (xs ++ ys) st = bind (foldM f xs st) (foldM f ys).
Proof.
  induction xs as [| x xs IH]; intros st; [reflexivity |].
  cbn [app foldM]. destruct (f st x) as [st' |]; cbn [bind];
    [apply IH | reflexivity].
Qed.



Lemma edgeAscii_TrimSpace (t : gostring) : edgeAscii t -> TrimSpace t = t.
Proof.
  destruct t as [| c s]; [intros [] |]. intros [[Hc Sc] [Hd Sd]].
  destruct s as [| c' s'].
  - now apply TrimSpace_single.
  - change (last (c :: c' :: s') c) with (last (c' :: s') c) in Hd, Sd.
    rewrite (app_removelast_last c (l := c' :: s')) by discriminate.
    change (TrimSpace ((c :: removelast (c' :: s')) ++ [last (c' :: s') c])
            = (c :: removelast (c' :: s')) ++ [last (c' :: s') c]).
    now apply TrimSpace_edges.
Qed.













Lemma headingLevelOf_some (s : gostring) (k : nat) :
  headingLevelOf s = Some k ->
  s = headingStyle k
  /\ conversion.headingPrefix s = Some (repeat hash k ++ lit " ")
  /\ (1 <= k)%nat.
Proof.
  unfold headingLevelOf, conversion.headingPrefix.
  repeat (destruct (eqbytes s _) eqn:E;
          [apply eqbytes_true in E; subst s; intros E; injection E as <-;
           split; [reflexivity | split; [reflexivity | lia]] |
           clear E]).
  discriminate.
Qed.


Lemma elementToMarkdown_paragraph (e : StructuralElement) (p : Paragraph) :
  ElementParagraph e = Some p ->
  conversion.elementToMarkdown e
  = match conversion.headingPrefix (namedStyle p) with
    | Some hashes => hashes ++ conversion.GetParagraphText p ++ nl ++ nl
    | None => conversion.formatParagraphAsMarkdown p
    end.
Proof.
  intros E. unfold conversion.elementToMarkdown, namedStyle. rewrite E.
  destruct (ParaStyle p) as [style |]; [| reflexivity].
  destruct (eqbytes (NamedStyleType style) []) eqn:N; [| reflexivity].
  apply eqbytes_true in N. now rewrite N.
Qed.












(** ** The compiler as a whole *)

Lemma wrap64_wrap2 (a b c : Z) :
  wrap64 (wrap64 a + b + c) = wrap64 (a + b + c).
Proof. rewrite <- Z.add_assoc, wrap64_wrap. f_equal. lia. Qed.

Lemma stageOps_shift (isBold : bool) (text : gostring) (c d : Z)
    (ms : list regexp.submatch) :
  map (shiftRequest d) (stageOps isBold text c ms)
  = stageOps isBold text (wrap64 (c + d)) ms.
Proof.
  unfold stageOps. rewrite map_map. apply map_ext. intros [k m].
  unfold styleOp. cbn [shiftRequest fst snd].
  rewrite !wrap64_wrap. f_equal; (f_equal; lia).
Qed.

Lemma stageOps_no_insert (isBold : bool) (text : gostring) (c : Z)
    (ms : list regexp.submatch) :
  insertedTexts (stageOps isBold text c ms) = [].
Proof.
  unfold stageOps. induction (combine _ ms) as [| km l IH];
    [reflexivity | exact IH].
Qed.

Lemma insertedTexts_app (a b : list Request) :
  insertedTexts (a ++ b) = insertedTexts a ++ insertedTexts b.
Proof. apply flat_map_app. Qed.

(** What one line compiles to: an insertion of a text that ends with a
    line feed at the cursor, then style operations; the cursor moves by
    the runes of the text; the indices move with the cursor. *)
Lemma compileLine_form (line : gostring) :
  exists (text : gostring) (styles : Z -> list Request),
    (forall requests c,
       conversion.compileLine (requests, c) line
       = Some (requests ++ InsertText c (text ++ nl) :: styles c,
               wrap64 (c + conversion.runeCount64 (text ++ nl))))
    /\ (forall c, insertedTexts (styles c) = [])
    /\ (forall c d,
          map (shiftRequest d) (styles c) = styles (wrap64 (c + d))).
Proof.
  destruct (eqbytes (TrimSpace line) []) eqn:Eb.
  - exists [], (fun _ => []). split; [| split; reflexivity].
    intros requests c. apply eqbytes_true in Eb.
    destruct (compileLine_blank requests c line Eb) as [E _].
    rewrite E. reflexivity.
  - destruct (HasPrefix (TrimSpace line) (lit "#")) eqn:Hp.
    + exists (TrimSpace
                (skipn (leadingHashes (TrimSpace line)) (TrimSpace line))),
        (fun c =>
           [UpdateParagraphStyle c
              (wrap64
                 (c + conversion.runeCount64
                        (TrimSpace
                           (skipn (leadingHashes (TrimSpace line))
                              (TrimSpace line))) + 1))
              (lit "HEADING_"
                 ++ fmt.Sprintf_d
                      (Z.of_nat (leadingHashes (TrimSpace line))))
              (lit "namedStyleType")]).
      split; [| split; [reflexivity |]].
      * intros requests c. unfold conversion.compileLine.
        rewrite Eb, Hp, headingLevel_leadingHashes.
        rewrite slice_suffix by apply leadingHashes_le. cbn [bind].
        rewrite add64_assoc3, add64_step, runeCount_line, Z.add_assoc.
        reflexivity.
      * intros c d. cbn [map shiftRequest].
        rewrite wrap64_wrap2, wrap64_wrap. do 3 f_equal. lia.
    + exists (regexp.ReplaceAllString 1
                (regexp.ReplaceAllString 2 (TrimSpace line))),
        (fun c =>
           stageOps true (TrimSpace line) c
             (regexp.FindAllStringSubmatchIndex 2 (TrimSpace line))
           ++ stageOps false (regexp.ReplaceAllString 2 (TrimSpace line)) c
                (regexp.FindAllStringSubmatchIndex 1
                   (regexp.ReplaceAllString 2 (TrimSpace line)))).
      split; [| split].
      * intros requests c. rewrite compileLine_paragraph.
        -- rewrite runeCount_line, Z.add_assoc, <- app_assoc.
           reflexivity.
        -- intros E. rewrite E in Eb. discriminate.
        -- exact Hp.
      * intros c. now rewrite insertedTexts_app, !stageOps_no_insert.
      * intros c d. now rewrite map_app, !stageOps_shift.
Qed.

Lemma runesInserted_app (a b : list Request) :
  runesInserted (a ++ b) = runesInserted a + runesInserted b.
Proof.
  unfold runesInserted. rewrite insertedTexts_app.
  induction (insertedTexts a) as [| t ts IH]; [reflexivity |].
  cbn [app fold_right]. rewrite IH. lia.
Qed.

Lemma runesInserted_styles (ops : list Request) :
  insertedTexts ops = [] -> runesInserted ops = 0.
Proof. unfold runesInserted. now intros ->. Qed.

Lemma wrap64_in_int64 (z : Z) : in_int64 (wrap64 z).
Proof.
  unfold in_int64, wrap64, min_int64, max_int64.
  pose proof (Z.mod_pos_bound (z + 2 ^ 63) (2 ^ 64) eq_refl). lia.
Qed.

(** An insertion found in a list that begins with style operations lies
    after them. *)
Lemma insertion_after_styles (styles rest pre post : list Request)
    (i : Z) (t : gostring) :
  insertedTexts styles = [] ->
  styles ++ rest = pre ++ InsertText i t :: post ->
  exists pre', pre = styles ++ pre' /\ rest = pre' ++ InsertText i t :: post.
Proof.
  revert pre. induction styles as [| r styles IH]; intros pre Hs E.
  - now exists pre.
  - destruct pre as [| p pre].
    + cbn [app] in E. injection E as -> _. discriminate.
    + cbn [app] in E. injection E as <- E.
      destruct (IH pre) as (pre' & -> & E'); [| exact E |].
      * destruct r; [discriminate | exact Hs | exact Hs].
      * now exists pre'.
Qed.

Lemma SplitLines_length (markdown : gostring) :
  List.length (SplitLines markdown) = S (countByte lf markdown).
Proof.
  induction markdown as [| c s IH]; [reflexivity |].
  rewrite countByte_cons. cbn [SplitLines]. fold lf.
  rewrite (Ascii.eqb_sym lf c). destruct (Ascii.eqb c lf).
  - cbn [List.length]. now rewrite IH.
  - destruct (SplitLines s); [discriminate | exact IH].
Qed.

Lemma insertedTexts_line (c : Z) (text : gostring)
    (styles rest : list Request) :
  insertedTexts styles = [] ->
  insertedTexts (InsertText c text :: styles ++ rest)
  = text :: insertedTexts rest.
Proof.
  intros H.
  change (InsertText c text :: styles ++ rest)
    with ([InsertText c text] ++ styles ++ rest).
  now rewrite !insertedTexts_app, H.
Qed.

Lemma runesInserted_line (c : Z) (text : gostring)
    (styles rest : list Request) :
  insertedTexts styles = [] ->
  runesInserted (InsertText c text :: styles ++ rest)
  = conversion.runeCount64 text + runesInserted rest.
Proof.
  intros H. unfold runesInserted. now rewrite insertedTexts_line.
Qed.

(** What a list of lines compiles to. *)
Lemma compileLines_form (ls : list gostring) :
  exists (ops : Z -> list Request) (n : Z),
    (forall requests c,
       foldM conversion.compileLine ls (requests, c)
       = Some (requests ++ ops c,
               match ls with
               | [] => c
               | _ :: _ => wrap64 (c + n)
               end))
    /\ (forall c, runesInserted (ops c) = n)
    /\ (forall c, List.length (insertedTexts (ops c)) = List.length ls)
    /\ (forall c,
          Forall (fun text => exists body, text = body ++ nl)
            (insertedTexts (ops c)))
    /\ (forall c d, map (shiftRequest d) (ops c) = ops (wrap64 (c + d)))
    /\ (forall c pre i t post,
          in_int64 c ->
          ops c = pre ++ InsertText i t :: post ->
          i = wrap64 (c + runesInserted pre)).
Proof.
  induction ls as [| line ls (ops & n & Hf & Hn & Hl & He & Hs & Hp)].
  - exists (fun _ => []), 0. repeat split.
    + intros requests c. cbn [foldM]. now rewrite app_nil_r.
    + constructor.
    + intros c pre i t post _ E. now destruct pre.
  - destruct (compileLine_form line) as (text & styles & Lf & Ls & Lh).
    exists (fun c =>
              InsertText c (text ++ nl)
                :: styles c
                ++ ops (wrap64 (c + conversion.runeCount64 (text ++ nl)))),
      (conversion.runeCount64 (text ++ nl) + n).
    repeat split.
    + intros requests c. cbn [foldM]. rewrite Lf. cbn [bind].
      rewrite Hf, <- app_assoc. cbn [app]. do 2 f_equal.
      destruct ls as [| l ls].
      * specialize (Hl 0). specialize (Hn 0).
        unfold runesInserted in Hn.
        destruct (insertedTexts (ops 0)); [| discriminate].
        cbn in Hn. subst n. now rewrite Z.add_0_r.
      * rewrite wrap64_wrap. f_equal. lia.
    + intros c. now rewrite (runesInserted_line _ _ _ _ (Ls c)), Hn.
    + intros c. rewrite (insertedTexts_line _ _ _ _ (Ls c)).
      cbn [List.length]. now rewrite Hl.
    + intros c. rewrite (insertedTexts_line _ _ _ _ (Ls c)).
      constructor; [now exists text | apply He].
    + intros c d. cbn [map shiftRequest]. rewrite map_app, Lh, Hs.
      do 3 f_equal. rewrite !wrap64_wrap. f_equal. lia.
    + intros c pre i t post Hc E. destruct pre as [| p pre].
      * cbn [app] in E. injection E as <- _.
        unfold runesInserted. cbn. now rewrite Z.add_0_r, wrap64_id.
      * cbn [app] in E. injection E as <- E.
        destruct (insertion_after_styles _ _ _ _ _ _ (Ls c) E)
          as (pre' & -> & E').
        apply Hp in E'; [| apply wrap64_in_int64]. rewrite E'.
        rewrite (runesInserted_line _ _ _ _ (Ls c)).
        rewrite wrap64_wrap. f_equal. lia.
Qed.

(** What a text compiles to: the loop of [MarkdownToDocsRequests] over
    its lines, of which there is one at least. *)
Lemma compileText_form (markdown : gostring) :
  exists (ops : Z -> list Request) (n : Z),
    (forall requests c,
       foldM conversion.compileLine (SplitLines markdown) (requests, c)
       = Some (requests ++ ops c, wrap64 (c + n)))
    /\ (forall c, runesInserted (ops c) = n)
    /\ (forall c,
          List.length (insertedTexts (ops c)) = S (countByte lf markdown))
    /\ (forall c,
          Forall (fun text => exists body, text = body ++ nl)
            (insertedTexts (ops c)))
    /\ (forall c d, map (shiftRequest d) (ops c) = ops (wrap64 (c + d)))
    /\ (forall c pre i t post,
          in_int64 c ->
          ops c = pre ++ InsertText i t :: post ->
          i = wrap64 (c + runesInserted pre)).
Proof.
  destruct (compileLines_form (SplitLines markdown))
    as (ops & n & Hf & Hn & Hl & He & Hs & Hp).
  exists ops, n. rewrite <- SplitLines_length.
  repeat split; try assumption.
  intros requests c. rewrite Hf.
  now destruct (SplitLines_cons markdown) as (l & ls & ->).
Qed.

Lemma MarkdownToDocsRequests_fold (markdown : gostring) (s : Z)
    (ops : list Request) (c : Z) :
  foldM conversion.compileLine (SplitLines markdown) ([], s) = Some (ops, c) ->
  conversion.MarkdownToDocsRequests markdown s = Some ops.
Proof.
  intros E. unfold conversion.MarkdownToDocsRequests. now rewrite E.
Qed.

(** X1: [MarkdownToDocsRequests] never panics, whatever the text and
    the start index, and its operations insert one text per line of the
    input (one more than the input has line feeds), each ending with a
    line feed. *)
Theorem compile_one_insertion_per_line (markdown : gostring) (s : Z) :
  exists ops,
    conversion.MarkdownToDocsRequests markdown s = Some ops
    /\ List.length (insertedTexts ops) = S (countByte lf markdown)
    /\ Forall (fun text => exists body, text = body ++ nl)
         (insertedTexts ops).
Proof.
  destruct (compileText_form markdown) as (ops & n & Hf & _ & Hl & He & _).
  exists (ops s). split; [| split; [apply Hl | apply He]].
  apply (MarkdownToDocsRequests_fold _ _ _ (wrap64 (s + n))).
  now rewrite Hf.
Qed.

(** X2: the insertions follow one another.  From a start index inside
    int64, every [InsertText] of the result is at the start index plus
    the runes of the texts inserted before it, in int64. *)
Theorem compile_insertions_follow (markdown : gostring) (s : Z)
    (ops pre post : list Request) (i : Z) (t : gostring) :
  in_int64 s ->
  conversion.MarkdownToDocsRequests markdown s = Some ops ->
  ops = pre ++ InsertText i t :: post ->
  i = wrap64 (s + runesInserted pre).
Proof.
  intros Hs Hm E.
  destruct (compileText_form markdown) as (f & n & Hf & _ & _ & _ & _ & Hp).
  unfold conversion.MarkdownToDocsRequests in Hm. rewrite Hf in Hm.
  cbn [bind app] in Hm. injection Hm as <-.
  now apply (Hp s pre i t post).
Qed.

Lemma compile_insertions_follow_witness :
  in_int64 5
  /\ conversion.MarkdownToDocsRequests
       (lit "# T" ++ nl ++ lit "**ab** c") 5
     = Some ([InsertText 5 (lit "T" ++ nl);
              UpdateParagraphStyle 5 7 (lit "HEADING_1")
                (lit "namedStyleType")]
               ++ InsertText 7 (lit "ab c" ++ nl)
               :: [UpdateTextStyle 7 9 true false (lit "bold")])
  /\ 7 = wrap64
           (5 + runesInserted
                  [InsertText 5 (lit "T" ++ nl);
                   UpdateParagraphStyle 5 7 (lit "HEADING_1")
                     (lit "namedStyleType")]).
Proof.
  assert (H1 : in_int64 5) by (unfold in_int64, min_int64, max_int64; lia).
  pose (pre := [InsertText 5 (lit "T" ++ nl);
                UpdateParagraphStyle 5 7 (lit "HEADING_1")
                  (lit "namedStyleType")]).
  pose (post := [UpdateTextStyle 7 9 true false (lit "bold")]).
  assert (H2 : conversion.MarkdownToDocsRequests
                 (lit "# T" ++ nl ++ lit "**ab** c") 5
               = Some (pre ++ InsertText 7 (lit "ab c" ++ nl) :: post))
    by reflexivity.
  split; [exact H1 |]. split; [exact H2 |].
  exact (compile_insertions_follow _ 5 _ pre post 7 _ H1 H2 eq_refl).
Defined.

(** X3: compiling two texts joined by a line feed gives the operations
    of the first, then those of the second compiled from the index where
    the insertions of the first end. *)
Theorem compile_joined_texts (a b : gostring) (s : Z) :
  exists opsA opsB,
    conversion.MarkdownToDocsRequests a s = Some opsA
    /\ conversion.MarkdownToDocsRequests b (wrap64 (s + runesInserted opsA))
       = Some opsB
    /\ conversion.MarkdownToDocsRequests (a ++ lf :: b) s
       = Some (opsA ++ opsB).
Proof.
  destruct (compileText_form a) as (fa & na & Ha & Hna & _).
  destruct (compileText_form b) as (fb & nb & Hb & _).
  exists (fa s), (fb (wrap64 (s + na))). rewrite Hna.
  split; [| split].
  - apply (MarkdownToDocsRequests_fold _ _ _ (wrap64 (s + na))).
    now rewrite Ha.
  - apply (MarkdownToDocsRequests_fold _ _ _
             (wrap64 (wrap64 (s + na) + nb))).
    now rewrite Hb.
  - apply (MarkdownToDocsRequests_fold _ _ _
             (wrap64 (wrap64 (s + na) + nb))).
    rewrite SplitLines_app_lf, foldM_app, Ha. cbn [bind app].
    now rewrite Hb.
Qed.

(** X4: the start index only moves the result.  Compiling from the
    start index moved by [d] gives the operations compiled from the start
    index with every index moved by [d], in int64. *)
Theorem compile_shifts_with_start (markdown : gostring) (s d : Z) :
  conversion.MarkdownToDocsRequests markdown (wrap64 (s + d))
  = option_map (map (shiftRequest d))
      (conversion.MarkdownToDocsRequests markdown s).
Proof.
  destruct (compileText_form markdown) as (f & n & Hf & _ & _ & _ & Hs & _).
  unfold conversion.MarkdownToDocsRequests. rewrite !Hf.
  cbn [bind app option_map]. now rewrite Hs.
Qed.

(** ** Styled runs and headings *)

Lemma TrimSpace_starred (x : gostring) :
  TrimSpace (star :: x ++ [star]) = star :: x ++ [star].
Proof.
  change (star :: x ++ [star]) with ((star :: x) ++ [star]).
  apply TrimSpace_edges; reflexivity.
Qed.

(** X5: a run that is bold, italic or a link is rendered with the white
    space around its content trimmed once and its markers around it: a
    bracket if it is a link, two stars if bold and one more if italic,
    the trimmed content, the stars again, and the address of the link;
    trimming the text again at the next marker changes nothing. *)
Theorem formatRun_trims_once (run : TextRun) (style : TextStyle) :
  RunStyle run = Some style ->
  Bold style = true \/ Italic style = true \/ StyleLink style <> None ->
  conversion.formatRun run
  = match StyleLink style with
    | Some link =>
      lit "[" ++ stars style ++ TrimSpace (Content run) ++ stars style
        ++ lit "](" ++ Url link ++ lit ")"
    | None => stars style ++ TrimSpace (Content run) ++ stars style
    end.
Proof.
  intros Hs H. unfold conversion.formatRun, stars. rewrite Hs.
  assert (B : forall x,
             TrimSpace (lit "**" ++ x ++ lit "**") = lit "**" ++ x ++ lit "**").
  { intros x.
    replace (lit "**" ++ x ++ lit "**")
      with (star :: (star :: x ++ [star]) ++ [star])
      by (cbn [app]; now rewrite <- app_assoc).
    apply TrimSpace_starred. }
  assert (I : forall x,
             TrimSpace (lit "*" ++ x ++ lit "*") = lit "*" ++ x ++ lit "*")
    by (intros x; apply TrimSpace_starred).
  destruct (Bold style), (Italic style), (StyleLink style) as [link |];
    cbn [Nat.add repeat app]; rewrite ?B, ?I.
  all: try reflexivity.
  all: try (rewrite <- !app_assoc; reflexivity).
  destruct H as [H | [H | H]]; congruence.
Qed.

(** A bold and italic link with blanks around its text. *)
Definition styledRun : TextRun :=
  mkTextRun (lit "  hi  ")
    (Some (mkTextStyle true true (Some (mkLink (lit "http://x"))))).

Lemma formatRun_trims_once_witness :
  conversion.formatRun styledRun = lit "[***hi***](http://x)".
Proof.
  rewrite (formatRun_trims_once styledRun
             (mkTextStyle true true (Some (mkLink (lit "http://x"))))
             eq_refl (or_introl eq_refl)).
  reflexivity.
Defined.

Lemma Sscanf_heading_levels (s : gostring) (k : nat) :
  headingLevelOf s = Some k ->
  eqbytes s [] = false
  /\ HasPrefix s (lit "HEADING_") = true
  /\ fmt.Sscanf_HEADING_d (skipn 8 s) = Z.of_nat k.
Proof.
  unfold headingLevelOf.
  repeat (destruct (eqbytes s _) eqn:E;
          [apply eqbytes_true in E; subst s; intros E; injection E as <-;
           repeat split; vm_compute; reflexivity |
           clear E]).
  discriminate.
Qed.

(** X6: the renderer and the structure extractor agree on the six
    heading styles.  A paragraph whose named style is HEADING_k, k from 1
    to 6, is rendered as k hashes, a blank and its trimmed text, and is
    listed by [GetStructure] as a section of level k with that text as
    its title and the indices of its element. *)
Theorem heading_rendered_and_listed (e : StructuralElement) (p : Paragraph)
    (k : nat) :
  ElementParagraph e = Some p ->
  headingLevelOf (namedStyle p) = Some k ->
  conversion.elementToMarkdown e
  = repeat hash k ++ lit " " ++ conversion.GetParagraphText p ++ nl ++ nl
  /\ document.sectionOf e
     = Some (document.mkSection (EndIndex e) (Z.of_nat k) (StartIndex e)
               (conversion.GetParagraphText p)).
Proof.
  intros Ep Hk. split.
  - rewrite (elementToMarkdown_paragraph e p Ep).
    destruct (headingLevelOf_some _ _ Hk) as (_ & -> & _).
    now rewrite <- app_assoc.
  - destruct (Sscanf_heading_levels _ _ Hk) as (Hn & Hp & Hl).
    unfold document.sectionOf. rewrite Ep. unfold namedStyle in *.
    destruct (ParaStyle p) as [style |]; [| discriminate].
    now rewrite Hn, Hp, Hl.
Qed.

Lemma heading_rendered_and_listed_witness :
  conversion.elementToMarkdown (headingElement 7 21 "HEADING_2" "intro")
  = lit "## intro" ++ nl ++ nl
  /\ document.sectionOf (headingElement 7 21 "HEADING_2" "intro")
     = Some (document.mkSection 21 2 7 (lit "intro")).
Proof.
  exact (heading_rendered_and_listed
           (headingElement 7 21 "HEADING_2" "intro")
           (mkParagraph
              [mkParagraphElement
                 (Some (mkTextRun (lit "intro" ++ nl) None))]
              (Some (mkParagraphStyle (lit "HEADING_2"))))
           2 eq_refl eq_refl).
Defined.

(** ** Colors beyond C9 *)

Lemma hexValue_facts (c : ascii) (v : Z) :
  hexValue c = Some v ->
  fmt.digitOf 16 (byteval c) = Some v
  /\ 0 <= v < 16
  /\ (48 <= byteval c <= 57 \/ 65 <= byteval c <= 70
      \/ 97 <= byteval c <= 102).
Proof.
  unfold hexValue, fmt.digitOf. cbv zeta.
  change (16 =? 16) with true. cbv iota.
  destruct (Z.leb_spec 48 (byteval c)), (Z.leb_spec (byteval c) 57);
    cbn [andb];
    destruct (Z.leb_spec 97 (byteval c)), (Z.leb_spec (byteval c) 102);
    cbn [andb];
    destruct (Z.leb_spec 65 (byteval c)), (Z.leb_spec (byteval c) 70);
    cbn [andb]; intros E; try discriminate;
    injection E as <-; (split; [reflexivity | lia]).
Qed.

Lemma getRune_ascii (budget : Z) (c : ascii) (s : gostring) :
  0 < budget -> byteval c < 0x80 ->
  fmt.getRune budget (c :: s) = Some (byteval c, s).
Proof.
  intros Hb Hc. unfold fmt.getRune.
  destruct (Z.leb_spec budget 0); [lia |].
  now rewrite decode_ascii.
Qed.

(** The runes of the hexadecimal digits. *)
Definition hexRune (r : Z) : Prop :=
  48 <= r <= 57 \/ 65 <= r <= 70 \/ 97 <= r <= 102.

(** Settle the comparisons of the goal that [lia] can settle. *)
Ltac decide_tests :=
  repeat match goal with
         | |- context [?a =? ?b] =>
           replace (a =? b) with false by (symmetry; apply Z.eqb_neq; lia)
         | |- context [?a <=? ?b] =>
           first
             [ replace (a <=? b) with true by (symmetry; apply Z.leb_le; lia)
             | replace (a <=? b) with false
                 by (symmetry; apply Z.leb_gt; lia) ]
         end.

Lemma SkipSpace_hex (fuel : nat) (budget : Z) (c : ascii) (s : gostring) :
  0 < budget -> hexRune (byteval c) ->
  fmt.SkipSpace (S fuel) budget (c :: s) = Some (budget, c :: s).
Proof.
  intros Hb Hc. unfold hexRune in Hc. cbn [fmt.SkipSpace].
  rewrite getRune_ascii by lia.
  unfold fmt.isSpace. decide_tests. reflexivity.
Qed.

Lemma acceptsDigit_hex (c : ascii) (v : Z) :
  fmt.digitOf 16 (byteval c) = Some v ->
  fmt.acceptsDigit 16 (byteval c) = true.
Proof. unfold fmt.acceptsDigit. now intros ->. Qed.

(** One verb [%02x] on two hexadecimal digits reads both. *)
Lemma scanHex2_digits (c1 c2 : ascii) (v1 v2 : Z) (rest : gostring) :
  hexValue c1 = Some v1 -> hexValue c2 = Some v2 ->
  fmt.scanHex2 (c1 :: c2 :: rest) = Some (16 * v1 + v2, rest).
Proof.
  intros H1 H2.
  destruct (hexValue_facts _ _ H1) as (D1 & R1 & C1).
  destruct (hexValue_facts _ _ H2) as (D2 & R2 & C2).
  unfold fmt.scanHex2, fmt.scanInt.
  rewrite (SkipSpace_hex _ fmt.hugeWid c1 (c2 :: rest) eq_refl C1).
  cbn [bind].
  rewrite (SkipSpace_hex _ 2 c1 (c2 :: rest) eq_refl C1). cbn [bind].
  rewrite (getRune_ascii 2 c1) by (unfold hexRune in C1; lia).
  cbn [bind].
  replace (byteval c1 =? 43) with false
    by (symmetry; apply Z.eqb_neq; lia).
  replace (byteval c1 =? 45) with false
    by (symmetry; apply Z.eqb_neq; lia).
  cbn [orb]. rewrite (getRune_ascii 2 c1) by lia. cbn [bind].
  rewrite (acceptsDigit_hex c1 v1 D1).
  cbn [List.length fmt.acceptDigits].
  rewrite (getRune_ascii 2 c1) by lia.
  rewrite (acceptsDigit_hex c1 v1 D1).
  rewrite (getRune_ascii (2 - 1) c2) by lia.
  rewrite (acceptsDigit_hex c2 v2 D2).
  assert (E : fmt.acceptDigits (List.length rest) 16 (2 - 1 - 1) rest
              = ([], rest))
    by (destruct rest; reflexivity).
  rewrite E. cbn [fmt.parseDigits]. rewrite D1, D2. cbn [bind].
  unfold min_int64, max_int64.
  replace (0 * 16 + v1) with v1 by lia.
  destruct (Z.leb_spec (- 2 ^ 63) (v1 * 16 + v2)); [| lia].
  destruct (Z.leb_spec (v1 * 16 + v2) (2 ^ 63 - 1)); [| lia].
  cbn [andb]. do 2 f_equal. lia.
Qed.

Lemma TrimPrefix_hex (c : ascii) (v : Z) (s : gostring) :
  hexValue c = Some v ->
  TrimPrefix (c :: s) (lit "#") = c :: s
  /\ TrimPrefix (lit "#" ++ c :: s) (lit "#") = c :: s.
Proof.
  intros H. destruct (hexValue_facts _ _ H) as (_ & _ & C).
  split; [| reflexivity].
  unfold TrimPrefix, HasPrefix, lit.
  cbn [list_ascii_of_string List.length firstn].
  replace (eqbytes [c] ["#"%char]) with false; [reflexivity |].
  symmetry. destruct (eqbytes [c] _) eqn:E; [| reflexivity].
  apply eqbytes_true in E. injection E as ->.
  change (byteval "#") with 35 in C. lia.
Qed.

(** X7: of six hexadecimal digits, in either case, with or without a
    leading '#', [ParseColor] returns the color whose channels are the
    values of the three pairs of digits, in 255ths. *)
Theorem ParseColor_hex_digits (c1 c2 c3 c4 c5 c6 : ascii)
    (v1 v2 v3 v4 v5 v6 : Z) :
  hexValue c1 = Some v1 -> hexValue c2 = Some v2 ->
  hexValue c3 = Some v3 -> hexValue c4 = Some v4 ->
  hexValue c5 = Some v5 -> hexValue c6 = Some v6 ->
  conversion.ParseColor [c1; c2; c3; c4; c5; c6]
  = Some (conversion.mkRgbColor (16 * v1 + v2) (16 * v3 + v4)
            (16 * v5 + v6))
  /\ conversion.ParseColor (lit "#" ++ [c1; c2; c3; c4; c5; c6])
     = Some (conversion.mkRgbColor (16 * v1 + v2) (16 * v3 + v4)
               (16 * v5 + v6)).
Proof.
  intros H1 H2 H3 H4 H5 H6.
  destruct (TrimPrefix_hex c1 v1 [c2; c3; c4; c5; c6] H1) as [T1 T2].
  unfold conversion.ParseColor. rewrite T1, T2.
  cbn [List.length Nat.eqb negb]. unfold fmt.Sscanf_02x3.
  rewrite (scanHex2_digits c1 c2 v1 v2 _ H1 H2).
  rewrite (scanHex2_digits c3 c4 v3 v4 _ H3 H4).
  rewrite (scanHex2_digits c5 c6 v5 v6 _ H5 H6).
  split; reflexivity.
Qed.

Lemma ParseColor_hex_digits_witness :
  conversion.ParseColor (lit "1aF09c")
  = Some (conversion.mkRgbColor 26 240 156)
  /\ conversion.ParseColor (lit "#1aF09c")
     = Some (conversion.mkRgbColor 26 240 156).
Proof.
  exact (ParseColor_hex_digits "1" "a" "F" "0" "9" "c" 1 10 15 0 9 12
           eq_refl eq_refl eq_refl eq_refl eq_refl eq_refl).
Defined.

Lemma SkipSpace_budget (fuel : nat) : forall budget s budget' s',
  fmt.SkipSpace fuel budget s = Some (budget', s') -> budget' <= budget.
Proof.
  induction fuel as [| fuel IH]; intros budget s budget' s';
    cbn [fmt.SkipSpace].
  - intros [= <- _]. lia.
  - destruct (fmt.getRune budget s) as [[r t] |];
      [| intros [= <- _]; lia].
    destruct ((r =? 13) && fmt.peekIs 10 (budget - 1) t).
    + intros E. apply IH in E. lia.
    + destruct (r =? 10); [discriminate |].
      destruct (negb (fmt.isSpace r)); [intros [= <- _]; lia |].
      intros E. apply IH in E. lia.
Qed.

Lemma acceptDigits_length (base : Z) (fuel : nat) :
  forall budget s tok rest,
  fmt.acceptDigits fuel base budget s = (tok, rest) ->
  Z.of_nat (List.length tok) <= Z.max 0 budget.
Proof.
  induction fuel as [| fuel IH]; intros budget s tok rest;
    cbn [fmt.acceptDigits].
  - intros [= <- _]. cbn. lia.
  - unfold fmt.getRune.
    destruct (Z.leb_spec budget 0); [intros [= <- _]; cbn; lia |].
    destruct s as [| c s]; [intros [= <- _]; cbn; lia |].
    destruct (utf8.DecodeRuneInString (c :: s)) as [r size].
    destruct (fmt.acceptsDigit base r); [| intros [= <- _]; cbn; lia].
    destruct (fmt.acceptDigits fuel base (budget - 1) (skipn size (c :: s)))
      as [tok' rest'] eqn:E.
    intros [= <- _]. apply IH in E. cbn [List.length]. lia.
Qed.

Lemma digitOf_range (base r v : Z) :
  fmt.digitOf base r = Some v -> 0 <= v < 16.
Proof.
  unfold fmt.digitOf.
  destruct (Z.leb_spec 48 r), (Z.leb_spec r 57); cbn [andb];
    try (intros [= <-]; lia);
    (destruct (base =? 16); [| discriminate]);
    destruct (Z.leb_spec 97 r), (Z.leb_spec r 102); cbn [andb];
    try (intros [= <-]; lia);
    destruct (Z.leb_spec 65 r), (Z.leb_spec r 70); cbn [andb];
    try (intros [= <-]; lia); discriminate.
Qed.

Lemma parseDigits_bound (base : Z) (tok : list Z) : forall acc v,
  0 <= acc ->
  fmt.parseDigits base acc tok = Some v ->
  base = 16 ->
  0 <= v < (acc + 1) * 16 ^ Z.of_nat (List.length tok).
Proof.
  induction tok as [| r tok IH]; intros acc v Ha; cbn [fmt.parseDigits].
  - intros [= <-] _. cbn. lia.
  - destruct (fmt.digitOf base r) as [d |] eqn:D; [| discriminate].
    apply digitOf_range in D. intros E ->.
    apply IH in E; [| lia | reflexivity].
    cbn [List.length]. rewrite Nat2Z.inj_succ, Z.pow_succ_r by lia. nia.
Qed.

(** One verb [%02x] reads a sign and a digit, or two digits at most. *)
Lemma scanHex2_range (s rest : gostring) (v : Z) :
  fmt.scanHex2 s = Some (v, rest) -> -15 <= v <= 255.
Proof.
  unfold fmt.scanHex2, fmt.scanInt.
  destruct (fmt.SkipSpace _ fmt.hugeWid s) as [[b0 s0] |]; [| discriminate].
  cbn [bind].
  destruct (fmt.SkipSpace _ 2 s0) as [[b1 s1] |] eqn:E1; [| discriminate].
  apply SkipSpace_budget in E1. cbn [bind].
  destruct (fmt.getRune b1 s1) as [[r s2] |]; [| discriminate].
  cbn [bind].
  destruct ((r =? 43) || (r =? 45)).
  - destruct (fmt.getRune (b1 - 1) s2) as [[r' s3] |]; [| discriminate].
    cbn [bind]. destruct (fmt.acceptsDigit 16 r'); [| discriminate].
    destruct (fmt.acceptDigits _ 16 (b1 - 1) s2) as [tok rest'] eqn:A.
    apply acceptDigits_length in A.
    destruct (fmt.parseDigits 16 0 tok) as [w |] eqn:P; [| discriminate].
    apply parseDigits_bound in P; [| lia | reflexivity]. cbn [bind].
    assert (16 ^ Z.of_nat (List.length tok) <= 16 ^ 1)
      by (apply Z.pow_le_mono_r; lia).
    destruct (r =? 45);
      (destruct (_ && _); [| discriminate]); intros [= <- _]; lia.
  - destruct (fmt.getRune b1 s1) as [[r' s3] |]; [| discriminate].
    cbn [bind]. destruct (fmt.acceptsDigit 16 r'); [| discriminate].
    destruct (fmt.acceptDigits _ 16 b1 s1) as [tok rest'] eqn:A.
    apply acceptDigits_length in A.
    destruct (fmt.parseDigits 16 0 tok) as [w |] eqn:P; [| discriminate].
    apply parseDigits_bound in P; [| lia | reflexivity]. cbn [bind].
    assert (16 ^ Z.of_nat (List.length tok) <= 16 ^ 2)
      by (apply Z.pow_le_mono_r; lia).
    destruct (_ && _); [| discriminate]. intros [= <- _]. lia.
Qed.

(** X8: whatever the input, a color [ParseColor] returns has channels
    between -15 and 255, in 255ths: a verb reads two digits at most, or a
    sign and one digit.  Both bounds are met by "-fff80". *)
Theorem ParseColor_channel_range (hexColor : gostring)
    (color : conversion.RgbColor) :
  conversion.ParseColor hexColor = Some color ->
  -15 <= conversion.Red color <= 255
  /\ -15 <= conversion.Green color <= 255
  /\ -15 <= conversion.Blue color <= 255.
Proof.
  unfold conversion.ParseColor, fmt.Sscanf_02x3.
  destruct (negb _); [discriminate |].
  destruct (fmt.scanHex2 _) as [[r s1] |] eqn:E1;
    [apply scanHex2_range in E1 | intros [= <-]; cbn; lia].
  destruct (fmt.scanHex2 s1) as [[g s2] |] eqn:E2;
    [apply scanHex2_range in E2 | intros [= <-]; cbn; lia].
  destruct (fmt.scanHex2 s2) as [[b s3] |] eqn:E3;
    [apply scanHex2_range in E3 | intros [= <-]; cbn; lia].
  intros [= <-]. cbn. lia.
Qed.

Lemma ParseColor_channel_range_witness :
  conversion.ParseColor (lit "-fff80")
  = Some (conversion.mkRgbColor (-15) 255 128)
  /\ -15 <= -15 <= 255 /\ -15 <= 255 <= 255 /\ -15 <= 128 <= 255.
Proof.
  split; [reflexivity |].
  exact (ParseColor_channel_range (lit "-fff80")
           (conversion.mkRgbColor (-15) 255 128) eq_refl).
Defined.

(** ** The older copy: when it panics *)

Lemma boldMatch_wellFormed (text : gostring) (s : Z)
    (requests : list Request) (m : regexp.submatch) :
  wellFormed 2 text m ->
  main.boldMatch text s requests m
  = if regexp.m2 m =? -1 then None
    else Some (requests ++
                 [UpdateTextStyle (add64 s (regexp.m0 m))
                    (add64 s (regexp.m1 m)) true false (lit "bold")]).
Proof.
  intros (d & c & before & after & Hd & Hc & -> & E0 & E1 & G).
  unfold main.boldMatch.
  destruct G as [(G2 & G3 & G4 & G5) | (G2 & G3 & G4 & G5)].
  - destruct (slice_mid (before ++ repeat d 2) c (repeat d 2 ++ after)
                (regexp.m2 m) (regexp.m3 m)) as [S _].
    + rewrite G2. unfold len64. rewrite length_app, repeat_length. lia.
    + rewrite G3. unfold len64. rewrite length_app, repeat_length. lia.
    + rewrite <- !app_assoc in S. rewrite S. cbn [bind].
      replace (eqbytes c []) with false
        by (symmetry; destruct (eqbytes c []) eqn:E;
            [apply eqbytes_true in E; congruence | reflexivity]).
      cbn [bind].
      replace (regexp.m2 m =? -1) with false; [reflexivity |].
      symmetry. apply Z.eqb_neq. unfold len64 in G2. lia.
  - rewrite G2, G3. reflexivity.
Qed.

Lemma foldM_boldMatch (text : gostring) (s : Z) (ms : list regexp.submatch) :
  Forall (wellFormed 2 text) ms ->
  forall requests,
  foldM (main.boldMatch text s) ms requests = None
  <-> existsb (fun m => regexp.m2 m =? -1) ms = true.
Proof.
  induction 1 as [| m ms Hm _ IH]; intros requests.
  - cbn. split; discriminate.
  - cbn [foldM existsb]. rewrite (boldMatch_wellFormed _ _ _ _ Hm).
    destruct (regexp.m2 m =? -1); cbn [bind orb].
    + split; reflexivity.
    + apply IH.
Qed.

Lemma main_parseInlineFormatting_panics (text : gostring) (s : Z) :
  main.parseInlineFormatting text s = None
  <-> hasUnderscoreBold text = true.
Proof.
  unfold main.parseInlineFormatting, hasUnderscoreBold.
  rewrite <- (foldM_boldMatch text s _
                (findAllFrom_wellFormed 2 text 0%nat []) []).
  destruct (foldM _ _ _); cbn [bind]; split; congruence.
Qed.

Lemma main_compileLine_panics (st : list Request * Z) (line : gostring) :
  main.compileLine st line = None
  <-> HasPrefix (TrimSpace line) (lit "#") = false
      /\ hasUnderscoreBold (TrimSpace line) = true.
Proof.
  destruct st as [requests c]. unfold main.compileLine.
  destruct (eqbytes (TrimSpace line) []) eqn:Eb.
  - apply eqbytes_true in Eb. rewrite Eb.
    split; [discriminate | intros [_ H]; discriminate].
  - destruct (HasPrefix (TrimSpace line) (lit "#")).
    + rewrite headingLevel_leadingHashes.
      rewrite slice_suffix by apply leadingHashes_le. cbn [bind].
      split; [discriminate | intros [H _]; discriminate].
    + rewrite <- (main_parseInlineFormatting_panics (TrimSpace line) c).
      destruct (main.parseInlineFormatting (TrimSpace line) c)
        as [[processed ops] |]; cbn [bind].
      * split; [discriminate | intros [_ H]; discriminate].
      * split; [now split | reflexivity].
Qed.

Lemma foldM_panics {S X : Type} (f : S -> X -> option S) (bad : X -> Prop)
    (xs : list X) :
  (forall st x, f st x = None <-> bad x) ->
  forall st, foldM f xs st = None <-> exists x, In x xs /\ bad x.
Proof.
  intros Hf. induction xs as [| x xs IH]; intros st; cbn [foldM].
  - split; [discriminate | intros (x & [] & _)].
  - destruct (f st x) as [st' |] eqn:E; cbn [bind].
    + rewrite IH. split.
      * intros (y & Hy & By). exists y. split; [now right | exact By].
      * intros (y & [<- | Hy] & By).
        -- apply Hf with (st := st) in By. congruence.
        -- now exists y.
    + split; [| reflexivity]. intros _. exists x.
      split; [now left | now apply (Hf st)].
Qed.

(** X9: the older copy of the compiler panics exactly on the texts that
    hold, on a line that is no heading, a bold span written with
    underscores: it slices the text with the indices -1 of the first
    group, which took no part in the match.  On every other text it
    returns. *)
Theorem legacy_panics_on_underscore_bold (markdown : gostring) (s : Z) :
  main.markdownToDocsRequests markdown s = None
  <-> exists line,
      In line (SplitLines markdown)
      /\ HasPrefix (TrimSpace line) (lit "#") = false
      /\ hasUnderscoreBold (TrimSpace line) = true.
Proof.
  unfold main.markdownToDocsRequests.
  rewrite <- (foldM_panics main.compileLine _ (SplitLines markdown)
                main_compileLine_panics ([], s)).
  destruct (foldM _ _ _) as [[requests c] |]; cbn [bind];
    split; congruence.
Qed.

(** ** Heading levels, written and read back *)

(** The digits of a decimal number, as the scanner reads them. *)
Definition digitRunes (d : Decimal.uint) : list Z :=
  map byteval (lit (NilEmpty.string_of_uint d)).

Lemma acceptDigits_decimal (d : Decimal.uint) : forall fuel budget,
  (Decimal.nb_digits d <= fuel)%nat ->
  Z.of_nat (Decimal.nb_digits d) <= budget ->
  fmt.acceptDigits fuel 10 budget (lit (NilEmpty.string_of_uint d))
  = (digitRunes d, []).
Proof.
  unfold digitRunes.
  induction d as [| d IH | d IH | d IH | d IH | d IH | d IH | d IH | d IH
                  | d IH | d IH];
    intros fuel budget Hf Hb.
  1: destruct fuel; [reflexivity |];
     cbn [fmt.acceptDigits]; unfold fmt.getRune;
     now destruct (budget <=? 0).
  all: cbn [Decimal.nb_digits] in Hf, Hb;
    destruct fuel as [| fuel]; [lia |];
    cbn [NilEmpty.string_of_uint lit list_ascii_of_string map
         fmt.acceptDigits];
    fold (lit (NilEmpty.string_of_uint d));
    rewrite getRune_ascii by (first [lia | reflexivity]);
    match goal with
    | |- context [fmt.acceptsDigit 10 ?r] =>
      change (fmt.acceptsDigit 10 r) with true
    end;
    cbv iota; rewrite IH by lia; reflexivity.
Qed.

Lemma parseDigits_acc (d : Decimal.uint) : forall acc,
  fmt.parseDigits 10 (Z.pos acc) (digitRunes d)
  = Some (Z.pos (Pos.of_uint_acc d acc)).
Proof.
  unfold digitRunes.
  induction d as [| d IH | d IH | d IH | d IH | d IH | d IH | d IH | d IH
                  | d IH | d IH];
    intros acc; [reflexivity | ..].
  all: cbn [NilEmpty.string_of_uint lit list_ascii_of_string map
            fmt.parseDigits Pos.of_uint_acc];
    fold (lit (NilEmpty.string_of_uint d));
    match goal with
    | |- context [fmt.digitOf 10 ?r] =>
      let v := eval vm_compute in (fmt.digitOf 10 r) in
      change (fmt.digitOf 10 r) with v
    end;
    cbv iota; rewrite <- IH; f_equal; lia.
Qed.

Lemma parseDigits_decimal (d : Decimal.uint) :
  fmt.parseDigits 10 0 (digitRunes d) = Some (Z.of_N (Pos.of_uint d)).
Proof.
  unfold digitRunes.
  induction d as [| d IH | d IH | d IH | d IH | d IH | d IH | d IH | d IH
                  | d IH | d IH];
    [reflexivity | exact IH | ..].
  all: cbn [NilEmpty.string_of_uint lit list_ascii_of_string map
            fmt.parseDigits Pos.of_uint];
    fold (lit (NilEmpty.string_of_uint d));
    match goal with
    | |- context [fmt.digitOf 10 ?r] =>
      let v := eval vm_compute in (fmt.digitOf 10 r) in
      change (fmt.digitOf 10 r) with v
    end;
    cbv iota; fold (digitRunes d);
    match goal with
    | |- fmt.parseDigits 10 ?a _ = _ =>
      let v := eval vm_compute in a in change a with v
    end;
    now rewrite parseDigits_acc.
Qed.

Lemma double_digits (d : Decimal.uint) :
  (Decimal.nb_digits (Decimal.Little.double d) <= S (Decimal.nb_digits d))%nat
  /\ (Decimal.nb_digits (Decimal.Little.succ_double d)
      <= S (Decimal.nb_digits d))%nat.
Proof.
  induction d as [| d [I1 I2] | d [I1 I2] | d [I1 I2] | d [I1 I2]
                  | d [I1 I2] | d [I1 I2] | d [I1 I2] | d [I1 I2]
                  | d [I1 I2] | d [I1 I2]];
    cbn [Decimal.Little.double Decimal.Little.succ_double
         Decimal.nb_digits]; lia.
Qed.

Lemma to_uint_digits (p : positive) :
  (Decimal.nb_digits (Pos.to_uint p) <= Pos.size_nat p)%nat.
Proof.
  unfold Pos.to_uint. rewrite DecimalFacts.nb_digits_rev.
  induction p as [p IH | p IH |]; cbn [Pos.to_little_uint Pos.size_nat].
  - destruct (double_digits (Pos.to_little_uint p)) as [_ H]. lia.
  - destruct (double_digits (Pos.to_little_uint p)) as [H _]. lia.
  - cbn. lia.
Qed.

Lemma size_nat_pow (p : positive) :
  2 ^ Z.of_nat (Pos.size_nat p) <= 2 * Z.pos p.
Proof.
  induction p as [p IH | p IH |]; cbn [Pos.size_nat];
    rewrite ?Nat2Z.inj_succ, ?Z.pow_succ_r by lia; lia.
Qed.

Lemma int64_digits (p : positive) :
  Z.pos p <= 2 ^ 63 ->
  Z.of_nat (Decimal.nb_digits (Pos.to_uint p)) <= 64.
Proof.
  intros H. pose proof (to_uint_digits p) as D.
  pose proof (size_nat_pow p) as S.
  destruct (Z.le_gt_cases (Z.of_nat (Pos.size_nat p)) 64) as [L | G];
    [lia |].
  assert (2 ^ 65 <= 2 ^ Z.of_nat (Pos.size_nat p))
    by (apply Z.pow_le_mono_r; lia).
  lia.
Qed.

Lemma SkipSpace_rune (fuel : nat) (budget : Z) (c : ascii) (s : gostring) :
  0 < budget -> 33 <= byteval c < 0x80 ->
  fmt.SkipSpace (S fuel) budget (c :: s) = Some (budget, c :: s).
Proof.
  intros Hb Hc. cbn [fmt.SkipSpace]. rewrite getRune_ascii by lia.
  unfold fmt.isSpace. decide_tests. reflexivity.
Qed.

(** [scanInt] on a text that begins with a decimal digit. *)
Lemma scanInt_digit (budget : Z) (c : ascii) (s : gostring) :
  0 < budget -> 48 <= byteval c <= 57 ->
  fmt.scanInt 10 budget (c :: s)
  = (let '(tok, rest) :=
       fmt.acceptDigits (List.length (c :: s)) 10 budget (c :: s) in
     v <- fmt.parseDigits 10 0 tok ;;
     if (min_int64 <=? v) && (v <=? max_int64) then Some (v, rest)
     else None).
Proof.
  intros Hb Hc. unfold fmt.scanInt.
  rewrite SkipSpace_rune by lia. cbn [bind].
  rewrite getRune_ascii by lia. cbn [bind].
  replace (byteval c =? 43) with false by (symmetry; apply Z.eqb_neq; lia).
  replace (byteval c =? 45) with false by (symmetry; apply Z.eqb_neq; lia).
  cbn [orb]. rewrite getRune_ascii by lia. cbn [bind].
  replace (fmt.acceptsDigit 10 (byteval c)) with true; [reflexivity |].
  unfold fmt.acceptsDigit, fmt.digitOf. decide_tests. reflexivity.
Qed.

Lemma decimal_head (d : Decimal.uint) :
  d <> Decimal.Nil ->
  exists c rest,
    lit (NilEmpty.string_of_uint d) = c :: rest /\ 48 <= byteval c <= 57.
Proof.
  destruct d; [congruence | ..]; intros _;
    cbn [NilEmpty.string_of_uint lit list_ascii_of_string];
    eexists _, _; (split; [reflexivity | vm_compute; split; discriminate]).
Qed.

Lemma decimal_length (d : Decimal.uint) :
  List.length (lit (NilEmpty.string_of_uint d)) = Decimal.nb_digits d.
Proof.
  induction d; cbn [NilEmpty.string_of_uint lit list_ascii_of_string
                    List.length Decimal.nb_digits];
    [reflexivity | ..]; f_equal; exact IHd.
Qed.

Lemma to_uint_value (p : positive) :
  Pos.to_uint p <> Decimal.Nil
  /\ Z.of_N (Pos.of_uint (Pos.to_uint p)) = Z.pos p.
Proof.
  pose proof (DecimalPos.Unsigned.of_to p) as E. split; [| now rewrite E].
  intros N. rewrite N in E. discriminate.
Qed.

(** [%d] reads back the decimal digits of a positive number. *)
Lemma scanInt_positive (p : positive) (budget : Z) :
  64 <= budget -> Z.pos p <= 2 ^ 63 ->
  fmt.scanInt 10 budget (lit (NilEmpty.string_of_uint (Pos.to_uint p)))
  = if Z.pos p <=? max_int64 then Some (Z.pos p, []) else None.
Proof.
  intros Hb Hp. destruct (to_uint_value p) as [Hn Hv].
  pose proof (int64_digits p Hp) as Hd.
  destruct (decimal_head _ Hn) as (c & rest & E & Hc).
  rewrite E, scanInt_digit by lia. rewrite <- E.
  rewrite acceptDigits_decimal
    by (rewrite ?decimal_length; lia).
  rewrite parseDigits_decimal, Hv. cbn [bind].
  unfold min_int64. destruct (Z.leb_spec (- 2 ^ 63) (Z.pos p)); [| lia].
  reflexivity.
Qed.

(** [%d] reads back what [%d] wrote. *)
Lemma scanInt_Sprintf (n : Z) :
  in_int64 n ->
  fmt.scanInt 10 fmt.hugeWid (fmt.Sprintf_d n) = Some (n, []).
Proof.
  unfold in_int64, min_int64, max_int64, fmt.Sprintf_d. intros Hn.
  destruct n as [| p | p]; [reflexivity | |];
    cbn [Z.to_int NilEmpty.string_of_int].
  - rewrite scanInt_positive by (unfold fmt.hugeWid; lia).
    unfold max_int64. destruct (Z.leb_spec (Z.pos p) (2 ^ 63 - 1)); [| lia].
    reflexivity.
  - cbn [lit list_ascii_of_string].
    fold (lit (NilEmpty.string_of_uint (Pos.to_uint p))).
    assert (Hp : Z.pos p <= 2 ^ 63) by lia.
    destruct (to_uint_value p) as [Hz Hv].
    pose proof (int64_digits p Hp) as Hd.
    destruct (decimal_head _ Hz) as (c & rest & E & Hc).
    unfold fmt.scanInt.
    rewrite SkipSpace_rune by (first [reflexivity | vm_compute; split;
                                       [discriminate | reflexivity]]).
    cbn [bind].
    rewrite getRune_ascii by reflexivity. cbn [bind].
    change (byteval "-" =? 43) with false.
    change (byteval "-" =? 45) with true. cbn [orb].
    rewrite E at 1.
    rewrite getRune_ascii by (unfold fmt.hugeWid; lia). cbn [bind].
    replace (fmt.acceptsDigit 10 (byteval c)) with true
      by (unfold fmt.acceptsDigit, fmt.digitOf; decide_tests; reflexivity).
    rewrite acceptDigits_decimal
      by (rewrite ?decimal_length; unfold fmt.hugeWid; lia).
    rewrite parseDigits_decimal, Hv. cbn [bind].
    unfold min_int64, max_int64.
    destruct (Z.leb_spec (- 2 ^ 63) (- Z.pos p)); [| lia].
    destruct (Z.leb_spec (- Z.pos p) (2 ^ 63 - 1)); [| lia].
    reflexivity.
Qed.

Lemma Sprintf_head (n : Z) :
  exists c rest,
    fmt.Sprintf_d n = c :: rest /\ 33 <= byteval c < 0x80.
Proof.
  unfold fmt.Sprintf_d. destruct n as [| p | p];
    cbn [Z.to_int NilEmpty.string_of_int].
  - eexists _, _. split; [reflexivity | vm_compute; split;
                                         [discriminate | reflexivity]].
  - destruct (to_uint_value p) as [Hz _].
    destruct (decimal_head _ Hz) as (c & rest & E & Hc).
    exists c, rest. split; [exact E | lia].
  - eexists _, _. split; [reflexivity | vm_compute; split;
                                         [discriminate | reflexivity]].
Qed.

Lemma Sscanf_Sprintf (n : Z) :
  in_int64 n -> fmt.Sscanf_HEADING_d (fmt.Sprintf_d n) = n.
Proof.
  intros Hn. unfold fmt.Sscanf_HEADING_d.
  destruct (Sprintf_head n) as (c & rest & E & Hc).
  rewrite E at 1 2. rewrite SkipSpace_rune by (first [reflexivity | lia]).
  rewrite <- E. now rewrite scanInt_Sprintf.
Qed.

(** X10: the structure extractor reads back the level the compiler
    writes.  A paragraph whose named style is "HEADING_" followed by the
    decimal form of an int64 [n], as [MarkdownToDocsRequests] writes it
    for a line of [n] hashes, is listed by [GetStructure] with the level
    [n], its trimmed text and the indices of its element; so is the
    level 7 of a line of seven hashes, which the renderer does not treat
    as a heading. *)
Theorem compiled_heading_level_read_back (e : StructuralElement)
    (p : Paragraph) (style : ParagraphStyle) (n : Z) :
  ElementParagraph e = Some p ->
  ParaStyle p = Some style ->
  NamedStyleType style = lit "HEADING_" ++ fmt.Sprintf_d n ->
  in_int64 n ->
  document.sectionOf e
  = Some (document.mkSection (EndIndex e) n (StartIndex e)
            (conversion.GetParagraphText p)).
Proof.
  intros Ep Es En Hn. unfold document.sectionOf. rewrite Ep, Es, En.
  change (eqbytes (lit "HEADING_" ++ fmt.Sprintf_d n) []) with false.
  replace (HasPrefix (lit "HEADING_" ++ fmt.Sprintf_d n) (lit "HEADING_"))
    with true
    by (unfold HasPrefix; rewrite length_app; reflexivity).
  cbn [negb andb].
  change (skipn 8 (lit "HEADING_" ++ fmt.Sprintf_d n))
    with (fmt.Sprintf_d n).
  now rewrite Sscanf_Sprintf.
Qed.

Lemma compiled_heading_level_read_back_witness :
  conversion.MarkdownToDocsRequests (lit "####### Deep") 1
  = Some [InsertText 1 (lit "Deep" ++ nl);
          UpdateParagraphStyle 1 6 (lit "HEADING_" ++ fmt.Sprintf_d 7)
            (lit "namedStyleType")]
  /\ document.sectionOf (headingElement 1 6 "HEADING_7" "Deep")
     = Some (document.mkSection 6 7 1 (lit "Deep")).
Proof.
  split; [reflexivity |].
  assert (H : in_int64 7) by (unfold in_int64, min_int64, max_int64; lia).
  exact (compiled_heading_level_read_back
           (headingElement 1 6 "HEADING_7" "Deep")
           (mkParagraph
              [mkParagraphElement (Some (mkTextRun (lit "Deep" ++ nl) None))]
              (Some (mkParagraphStyle (lit "HEADING_7"))))
           (mkParagraphStyle (lit "HEADING_7")) 7 eq_refl eq_refl eq_refl H).
Defined.

(** ** The commands *)

Lemma index_none {A : Type} (xs : list A) (i : Z) :
  cli.index xs i = None <-> i < 0 \/ cli.len xs <= i.
Proof.
  unfold cli.index, cli.len. destruct (Z.ltb_spec i 0).
  - split; [now left | reflexivity].
  - rewrite nth_error_None. lia.
Qed.

Lemma index_last {A : Type} (before : list A) (x : A) :
  cli.index (before ++ [x]) (cli.len (before ++ [x]) - 1) = Some x.
Proof.
  unfold cli.index, cli.len. rewrite length_app. cbn [List.length].
  destruct (Z.ltb_spec (Z.of_nat (List.length before + 1) - 1) 0); [lia |].
  replace (Z.to_nat (Z.of_nat (List.length before + 1) - 1))
    with (List.length before) by lia.
  now rewrite nth_error_app2, Nat.sub_diag by lia.
Qed.

(** X11: [runSetMarkdown] panics on a document whose body is empty,
    where it indexes the content with -1.  On any other document, whose
    last element ends at [e], it never panics: it sends the deletion of
    [1, e-1) when [e] is above 2, so that the range is never empty, and
    then the operations [MarkdownToDocsRequests] compiles from the
    index 1. *)
Theorem runSetMarkdown_requests (doc : Document) (content : gostring) :
  (BodyContent (DocBody doc) = [] -> cli.runSetMarkdown doc content = None)
  /\ (forall before last,
      BodyContent (DocBody doc) = before ++ [last] ->
      in_int64 (EndIndex last) ->
      exists ops,
        conversion.MarkdownToDocsRequests content 1 = Some ops
        /\ cli.runSetMarkdown doc content
           = Some (cli.Sent
                     ((if EndIndex last >? 2
                       then [cli.DeleteContentRange 1 (EndIndex last - 1)]
                       else [])
                        ++ map cli.Conversion ops))
        /\ ((EndIndex last >? 2) = true -> 1 < EndIndex last - 1)).
Proof.
  split.
  - intros E. unfold cli.runSetMarkdown. now rewrite E.
  - intros before last E Hi.
    destruct (compileText_form content) as (f & n & Hf & _).
    assert (Hc : conversion.MarkdownToDocsRequests content 1 = Some (f 1))
      by (apply (MarkdownToDocsRequests_fold _ _ _ (wrap64 (1 + n)));
          now rewrite Hf).
    exists (f 1). split; [exact Hc |]. split; [| lia].
    unfold cli.runSetMarkdown. rewrite E, index_last. cbn [bind].
    rewrite Hc. cbn [bind]. unfold sub64.
    destruct (EndIndex last >? 2) eqn:G; [| reflexivity].
    rewrite wrap64_id; [reflexivity |].
    unfold in_int64, min_int64, max_int64 in *. lia.
Qed.

Lemma index_some {A : Type} (xs : list A) (i : Z) :
  0 <= i < cli.len xs -> exists x, cli.index xs i = Some x.
Proof.
  intros H. destruct (cli.index xs i) as [x |] eqn:E; [now exists x |].
  apply index_none in E. lia.
Qed.

(** X12: the bounds check of [runUpdateTableCell] lets indices through
    that make it panic.  It panics exactly when the table is found, the
    row is below the number of rows and, unless the table has no row at
    all, the column is below the number of cells of the first row, and
    then the row or the column is negative, or the row addressed has no
    cell at the column, or the cell has no content. *)
Theorem runUpdateTableCell_panics (doc : Document) (tableStartIndex : Z)
    (row col : Z) (text : gostring) :
  cli.runUpdateTableCell doc tableStartIndex row col text = None
  <-> exists table,
      cli.findTable (BodyContent (DocBody doc)) tableStartIndex = Some table
      /\ row < cli.len (TableRows table)
      /\ match TableRows table with
         | [] => True
         | first :: _ =>
           col < cli.len (TableCells first)
           /\ (row < 0 \/ col < 0
               \/ exists tableRow,
                  cli.index (TableRows table) row = Some tableRow
                  /\ (cli.len (TableCells tableRow) <= col
                      \/ exists cell,
                         cli.index (TableCells tableRow) col = Some cell
                         /\ CellContent cell = []))
         end.
Proof.
  unfold cli.runUpdateTableCell.
  destruct (cli.findTable _ _) as [table |];
    [| split; [discriminate | intros (t & E & _); discriminate]].
  destruct (Z.geb_spec row (cli.len (TableRows table))) as [Hr | Hr].
  { cbn [bind]. split; [discriminate |].
    intros (t & [= <-] & H & _). lia. }
  destruct (TableRows table) as [| first rows] eqn:Er.
  { cbn [bind]. unfold cli.index at 1.
    destruct (Z.ltb_spec 0 0) as [L0 | L0]; [lia |].
    cbn [Z.to_nat nth_error bind].
    split; [| reflexivity]. intros _. exists table.
    rewrite Er. repeat split. exact Hr. }
  unfold cli.index at 1. destruct (Z.ltb_spec 0 0) as [L0 | L0]; [lia |].
  cbn [Z.to_nat nth_error bind].
  destruct (Z.geb_spec col (cli.len (TableCells first))) as [Hc | Hc].
  { split; [discriminate |].
    intros (t & [= <-] & _ & H). rewrite Er in H. lia. }
  destruct (cli.index (first :: rows) row) as [tableRow |] eqn:Ei.
  2: { cbn [bind]. split; [| reflexivity]. intros _. exists table.
       rewrite Er. apply index_none in Ei.
       repeat split; try assumption. left. lia. }
  cbn [bind].
  destruct (cli.index (TableCells tableRow) col) as [cell |] eqn:Ec.
  2: { cbn [bind]. split; [| reflexivity]. intros _. exists table.
       rewrite Er. apply index_none in Ec.
       repeat split; try assumption.
       destruct Ec as [Ec | Ec]; [right; now left |].
       right. right. exists tableRow. split; [exact Ei | now left]. }
  cbn [bind].
  destruct (CellContent cell) as [| c0 cs] eqn:Ecc.
  { cbn. split; [| reflexivity]. intros _. exists table. rewrite Er.
    repeat split; try assumption. right. right. exists tableRow.
    split; [exact Ei |]. right. now exists cell. }
  destruct (index_some (c0 :: cs) 0) as [x0 ->];
    [unfold cli.len; cbn [List.length]; lia |].
  destruct (index_some (c0 :: cs) (cli.len (c0 :: cs) - 1)) as [x1 ->];
    [unfold cli.len; cbn [List.length]; lia |].
  cbn [bind]. split; [discriminate |].
  intros (t & [= <-] & _ & H). rewrite Er in H.
  destruct H as (_ & [H | [H | (r & Hr' & H)]]).
  - assert (N : cli.index (first :: rows) row = None)
      by (apply index_none; now left).
    congruence.
  - assert (N : cli.index (TableCells tableRow) col = None)
      by (apply index_none; now left).
    congruence.
  - rewrite Ei in Hr'. injection Hr' as <-.
    destruct H as [H | (c & Hc' & H)].
    + assert (N : cli.index (TableCells tableRow) col = None)
        by (apply index_none; now right).
      congruence.
    + rewrite Ec in Hc'. injection Hc' as <-. congruence.
Qed.

(** ** Texts without markers, and tables *)

Lemma countByte_zero (c : ascii) (s : gostring) :
  countByte c s = 0%nat <-> Forall (fun d => d <> c) s.
Proof.
  induction s as [| d s IH].
  - split; [constructor | reflexivity].
  - rewrite countByte_cons. destruct (Ascii.eqb_spec c d) as [E | E].
    + split; [discriminate |]. intros H. inversion H; subst. congruence.
    + rewrite IH. split.
      * intros H. constructor; [congruence | exact H].
      * intros H. now inversion H.
Qed.

Lemma Forall_firstn {A : Type} (P : A -> Prop) (n : nat) (l : list A) :
  Forall P l -> Forall P (firstn n l).
Proof.
  revert l. induction n as [| n IH]; intros l H; [constructor |].
  destruct H as [| x l Hx Hl]; [constructor |].
  cbn [firstn]. constructor; [exact Hx | now apply IH].
Qed.

Lemma Forall_skipn {A : Type} (P : A -> Prop) (n : nat) (l : list A) :
  Forall P l -> Forall P (skipn n l).
Proof.
  revert l. induction n as [| n IH]; intros l H; [exact H |].
  destruct H as [| x l Hx Hl]; [constructor |].
  cbn [skipn]. now apply IH.
Qed.

Lemma Forall_TrimFunc (P : ascii -> Prop) (f : Z -> bool) (s : gostring) :
  Forall P s -> Forall P (TrimFunc s f).
Proof.
  intros H. unfold TrimFunc, TrimRightFunc. apply Forall_firstn.
  unfold TrimLeftFunc. destruct (_ =? -1); [constructor |].
  now apply Forall_skipn.
Qed.

Lemma Forall_trimStop (P : ascii -> Prop) (r : gostring) :
  Forall P r -> Forall P (trimStop r).
Proof.
  induction 1 as [| c r Hc Hr IH]; [constructor |]. cbn [trimStop].
  assert (Hrev : Forall P (rev (c :: r)))
    by (apply Forall_rev; now constructor).
  destruct (utf8.RuneSelf <=? byteval c).
  - unfold TrimRightFunc. now apply Forall_firstn.
  - destruct (asciiSpace c); [exact IH | exact Hrev].
Qed.

(** Trimming keeps what holds of every byte. *)
Lemma Forall_TrimSpace (P : ascii -> Prop) (s : gostring) :
  Forall P s -> Forall P (TrimSpace s).
Proof.
  unfold TrimSpace. induction 1 as [| c s Hc Hs IH]; [constructor |].
  cbn [trimStart].
  assert (Hall : Forall P (c :: s)) by now constructor.
  destruct (utf8.RuneSelf <=? byteval c).
  - now apply Forall_TrimFunc.
  - destruct (asciiSpace c); [exact IH |].
    apply Forall_trimStop. now apply Forall_rev.
Qed.

Lemma Forall_SplitLines (P : ascii -> Prop) (s : gostring) :
  Forall P s -> Forall (Forall P) (SplitLines s).
Proof.
  induction 1 as [| c s Hc Hs IH]; [repeat constructor |].
  cbn [SplitLines]. destruct (Ascii.eqb c (chr 10)).
  - constructor; [constructor | exact IH].
  - destruct (SplitLines s) as [| l ls].
    + repeat constructor. exact Hc.
    + inversion IH; subst. constructor; [| assumption].
      now constructor.
Qed.

(** Neither pattern matches in a text without a star and an
    underscore. *)
Lemma findAll_noMarker (n : nat) (s : gostring) :
  Forall (fun d => d <> regexp.star) s ->
  Forall (fun d => d <> regexp.underscore) s ->
  forall skip pos, regexp.findAllFrom (S n) skip pos s = [].
Proof.
  intros H1 H2. revert H2.
  induction H1 as [| c s Hc Hs IH]; intros H2 skip pos; [reflexivity |].
  inversion H2 as [| c' s' Hu Hs']; subst.
  cbn [regexp.findAllFrom]. destruct skip as [| k]; [| now apply IH].
  unfold regexp.matchAt, regexp.alternative. cbn [regexp.delim].
  destruct (Ascii.eqb_spec c regexp.star) as [E | _]; [congruence |].
  destruct (Ascii.eqb_spec c regexp.underscore) as [E | _]; [congruence |].
  now apply IH.
Qed.

Lemma noMarker_Forall (s : gostring) :
  noMarker s <->
  Forall (fun d => d <> regexp.star) s
  /\ Forall (fun d => d <> regexp.underscore) s.
Proof. unfold noMarker. now rewrite !countByte_zero. Qed.

Lemma noMarker_noInlineSpan (s : gostring) :
  noMarker s ->
  regexp.FindAllStringSubmatchIndex 2 s = []
  /\ regexp.FindAllStringSubmatchIndex 1 s = [].
Proof.
  intros H. apply noMarker_Forall in H. destruct H as [H1 H2].
  split; now apply findAll_noMarker.
Qed.

(** A line without a star and an underscore inserts its text and sets no
    text style. *)
Lemma compileLine_noMarker (line : gostring) :
  noMarker line ->
  exists styles : Z -> list Request,
    (forall requests c,
       conversion.compileLine (requests, c) line
       = Some (requests ++ InsertText c (lineText line ++ nl) :: styles c,
               wrap64 (c + conversion.runeCount64 (lineText line) + 1)))
    /\ (forall c, insertedTexts (styles c) = [])
    /\ (forall c, Forall (fun r => isTextStyle r = false) (styles c))
    /\ (HasPrefix (TrimSpace line) (lit "#") = false ->
        forall c, styles c = []).
Proof.
  intros H. unfold lineText.
  assert (Ht : noMarker (TrimSpace line)).
  { apply noMarker_Forall. apply noMarker_Forall in H.
    destruct H as [H1 H2]. split; now apply Forall_TrimSpace. }
  destruct (eqbytes (TrimSpace line) []) eqn:Eb.
  - apply eqbytes_true in Eb. exists (fun _ => []).
    split; [| repeat split; constructor].
    intros requests c.
    destruct (compileLine_blank requests c line Eb) as [E _].
    rewrite E, Eb. change (HasPrefix [] (lit "#")) with false. cbv iota.
    change (conversion.runeCount64 []) with 0. now rewrite Z.add_0_r.
  - destruct (HasPrefix (TrimSpace line) (lit "#")) eqn:Hp.
    + exists (fun c =>
                [UpdateParagraphStyle c
                   (wrap64
                      (c + conversion.runeCount64
                             (TrimSpace
                                (skipn (leadingHashes (TrimSpace line))
                                   (TrimSpace line))) + 1))
                   (lit "HEADING_"
                      ++ fmt.Sprintf_d
                           (Z.of_nat (leadingHashes (TrimSpace line))))
                   (lit "namedStyleType")]).
      split; [| split; [reflexivity | split;
                          [repeat constructor | discriminate]]].
      intros requests c. unfold conversion.compileLine.
      rewrite Eb, Hp, headingLevel_leadingHashes.
      rewrite slice_suffix by apply leadingHashes_le. cbn [bind].
      now rewrite add64_assoc3, add64_step.
    + exists (fun _ => []). split; [| repeat split; constructor].
      intros requests c. rewrite compileLine_paragraph.
      * destruct (noMarker_noInlineSpan _ Ht) as [H2 H1].
        assert (R2 : regexp.ReplaceAllString 2 (TrimSpace line)
                     = TrimSpace line)
          by (apply (replaceAll_no_match 2 _ 0), H2).
        rewrite R2, H2, H1.
        assert (R1 : regexp.ReplaceAllString 1 (TrimSpace line)
                     = TrimSpace line)
          by (apply (replaceAll_no_match 1 _ 0), H1).
        rewrite R1. cbn [stageOps List.length seq combine map app].
        now rewrite <- app_assoc.
      * intros E. rewrite E in Eb. discriminate.
      * exact Hp.
Qed.

Lemma compileLines_noMarker (ls : list gostring) :
  Forall noMarker ls ->
  forall requests c,
  exists ops c',
    foldM conversion.compileLine ls (requests, c) = Some (requests ++ ops, c')
    /\ insertedTexts ops = map (fun line => lineText line ++ nl) ls
    /\ Forall (fun r => isTextStyle r = false) ops
    /\ (Forall (fun line => HasPrefix (TrimSpace line) (lit "#") = false) ls
        -> Forall (fun r => isParagraphStyle r = false) ops).
Proof.
  induction 1 as [| line ls Hl _ IH]; intros requests c.
  - exists [], c. cbn [foldM map]. rewrite app_nil_r.
    repeat split; constructor.
  - destruct (compileLine_noMarker line Hl) as (styles & Lf & Ls & Lt & Lp).
    cbn [foldM]. rewrite Lf. cbn [bind].
    destruct (IH (requests ++ InsertText c (lineText line ++ nl) :: styles c)
                (wrap64 (c + conversion.runeCount64 (lineText line) + 1)))
      as (ops & c' & E & Ei & Et & Ep).
    exists (InsertText c (lineText line ++ nl) :: styles c ++ ops), c'.
    rewrite E, <- app_assoc. cbn [app map]. split; [reflexivity |].
    split; [now rewrite (insertedTexts_line _ _ _ _ (Ls c)), Ei |].
    split.
    + constructor; [reflexivity |]. apply Forall_app.
      split; [apply Lt | exact Et].
    + intros Hh. inversion Hh as [| l' ls' Hh1 Hh2]; subst.
      rewrite (Lp Hh1 c). constructor; [reflexivity |]. now apply Ep.
Qed.

(** X13: a text without a star and an underscore is inserted as it is
    written.  The compiler inserts, for each line, the trimmed line, or
    for a heading line the trimmed text after its hashes, and it sets no
    text style. *)
Theorem plain_markdown_inserted_verbatim (markdown : gostring) (s : Z) :
  noMarker markdown ->
  exists ops,
    conversion.MarkdownToDocsRequests markdown s = Some ops
    /\ insertedTexts ops
       = map (fun line => lineText line ++ nl) (SplitLines markdown)
    /\ Forall (fun r => isTextStyle r = false) ops.
Proof.
  intros H. apply noMarker_Forall in H. destruct H as [H1 H2].
  assert (Hl : Forall noMarker (SplitLines markdown)).
  { apply Forall_SplitLines in H1. apply Forall_SplitLines in H2.
    rewrite Forall_forall in *. intros line Hin.
    apply noMarker_Forall. split; [now apply H1 | now apply H2]. }
  destruct (compileLines_noMarker _ Hl [] s) as (ops & c' & E & Ei & Et & _).
  exists ops. split; [| split; assumption].
  apply (MarkdownToDocsRequests_fold _ _ _ c'). exact E.
Qed.

Lemma plain_markdown_inserted_verbatim_witness :
  noMarker (lit "## Plan" ++ nl ++ lit "  buy milk  ")
  /\ conversion.MarkdownToDocsRequests
       (lit "## Plan" ++ nl ++ lit "  buy milk  ") 1
     = Some [InsertText 1 (lit "Plan" ++ nl);
             UpdateParagraphStyle 1 6 (lit "HEADING_2")
               (lit "namedStyleType");
             InsertText 6 (lit "buy milk" ++ nl)]
  /\ exists ops,
     conversion.MarkdownToDocsRequests
       (lit "## Plan" ++ nl ++ lit "  buy milk  ") 1 = Some ops
     /\ insertedTexts ops
        = map (fun line => lineText line ++ nl)
            (SplitLines (lit "## Plan" ++ nl ++ lit "  buy milk  "))
     /\ Forall (fun r => isTextStyle r = false) ops.
Proof.
  assert (H : noMarker (lit "## Plan" ++ nl ++ lit "  buy milk  "))
    by (split; reflexivity).
  split; [exact H |]. split; [reflexivity |].
  exact (plain_markdown_inserted_verbatim _ 1 H).
Defined.

Lemma rowLine_last (row : TableRow) : last (rowLine row) pipe = pipe.
Proof.
  unfold rowLine. destruct (TableCells row) as [| c cells] using rev_ind;
    [reflexivity |].
  rewrite flat_map_app. cbn [flat_map]. rewrite app_nil_r.
  change (lit " |") with ([chr 32] ++ [pipe]).
  rewrite !app_assoc. apply last_last.
Qed.

Lemma separatorLine_last (row : TableRow) :
  last (separatorLine row) pipe = pipe.
Proof.
  unfold separatorLine.
  destruct (TableCells row) as [| c cells] using rev_ind; [reflexivity |].
  rewrite flat_map_app. cbn [flat_map]. rewrite app_nil_r.
  change (lit " --- |") with (lit " --- " ++ [pipe]).
  rewrite !app_assoc. apply last_last.
Qed.

Lemma pipe_line_trimmed (l : gostring) :
  last (pipe :: l) pipe = pipe -> TrimSpace (pipe :: l) = pipe :: l.
Proof.
  intros H. apply edgeAscii_TrimSpace. cbn [edgeAscii]. rewrite H.
  repeat split; reflexivity.
Qed.

Lemma rowLine_verbatim (row : TableRow) :
  Forall verbatimCell (TableCells row) ->
  countByte lf (rowLine row) = 0%nat /\ noMarker (rowLine row).
Proof.
  unfold rowLine, noMarker. rewrite !countByte_app.
  induction 1 as [| cell cells (Hl & Hs & Hu) _ (IHl & IHs & IHu)];
    [repeat split |].
  cbn [flat_map]. rewrite !countByte_app in *.
  rewrite Hl, Hs, Hu. cbn in *. repeat split; lia.
Qed.

Lemma separatorLine_verbatim (row : TableRow) :
  countByte lf (separatorLine row) = 0%nat /\ noMarker (separatorLine row).
Proof.
  unfold separatorLine, noMarker. rewrite !countByte_app.
  induction (TableCells row) as [| cell cells (IHl & IHs & IHu)];
    [repeat split |].
  cbn [flat_map]. rewrite !countByte_app in *. cbn in *. repeat split; lia.
Qed.

Lemma tableLines_verbatim (rows : list TableRow) :
  Forall (fun row => Forall verbatimCell (TableCells row)) rows ->
  Forall
    (fun line =>
       countByte lf line = 0%nat /\ noMarker line
       /\ TrimSpace line = line
       /\ HasPrefix line (lit "#") = false)
    (tableLines rows).
Proof.
  assert (R : forall row,
             Forall verbatimCell (TableCells row) ->
             countByte lf (rowLine row) = 0%nat /\ noMarker (rowLine row)
             /\ TrimSpace (rowLine row) = rowLine row
             /\ HasPrefix (rowLine row) (lit "#") = false).
  { intros row H. destruct (rowLine_verbatim row H) as [H1 H2].
    repeat split; try assumption; try apply H2.
    apply (pipe_line_trimmed _ (rowLine_last row)). }
  intros H. destruct H as [| header others Hh Ho]; [constructor |].
  cbn [tableLines]. constructor; [now apply R |]. constructor.
  - destruct (separatorLine_verbatim header) as [H1 H2].
    repeat split; try assumption; try apply H2.
    apply (pipe_line_trimmed _ (separatorLine_last header)).
  - induction Ho as [| row rows Hr _ IH]; [constructor |].
    cbn [map]. constructor; [now apply R | exact IH].
Qed.

(** X14: a rendered table does not come back as a table.  For a table
    whose cell texts hold no line feed, no star and no underscore, the
    compiler turns the markdown of the table into insertions only: one
    per line of the table, with the pipe-delimited line as its text, and
    two of an empty line; it sets no style. *)
Theorem table_compiles_to_pipe_paragraphs (table : Table) (s : Z) :
  Forall (fun row => Forall verbatimCell (TableCells row))
    (TableRows table) ->
  exists ops,
    conversion.MarkdownToDocsRequests (conversion.tableToMarkdown table) s
    = Some ops
    /\ insertedTexts ops
       = map (fun line => line ++ nl)
           (tableLines (TableRows table) ++ [[]; []])
    /\ Forall
         (fun r => isTextStyle r = false /\ isParagraphStyle r = false) ops.
Proof.
  intros H. apply tableLines_verbatim in H.
  assert (Hs : SplitLines (conversion.tableToMarkdown table)
               = tableLines (TableRows table) ++ [[]; []]).
  { rewrite tableToMarkdown_lines. rewrite SplitLines_lines; [reflexivity |].
    eapply Forall_impl; [| exact H]. now intros line (Hl & _). }
  assert (Hall : Forall
                   (fun line =>
                      noMarker line /\ lineText line = line
                      /\ HasPrefix (TrimSpace line) (lit "#") = false)
                   (tableLines (TableRows table) ++ [[]; []])).
  { apply Forall_app. split.
    - eapply Forall_impl; [| exact H].
      intros line (_ & Hn & Ht & Hp). unfold lineText.
      rewrite Ht, Hp. split; [exact Hn | split; reflexivity].
    - repeat constructor. }
  destruct (compileLines_noMarker
              (tableLines (TableRows table) ++ [[]; []])
              (Forall_impl _ (fun l Hl => proj1 Hl) Hall) [] s)
    as (ops & c' & E & Ei & Et & Ep).
  exists ops. split; [| split].
  - apply (MarkdownToDocsRequests_fold _ _ _ c'). now rewrite Hs.
  - rewrite Ei. apply map_ext_in. intros line Hin.
    rewrite Forall_forall in Hall.
    now destruct (Hall line Hin) as (_ & -> & _).
  - assert (Ep' : Forall (fun r => isParagraphStyle r = false) ops).
    { apply Ep. eapply Forall_impl; [| exact Hall].
      now intros line (_ & _ & Hp). }
    rewrite Forall_forall in *. intros r Hr.
    split; [now apply Et | now apply Ep'].
Qed.

Lemma table_compiles_to_pipe_paragraphs_witness :
  Forall (fun row => Forall verbatimCell (TableCells row))
    (TableRows table2x2)
  /\ conversion.MarkdownToDocsRequests
       (conversion.tableToMarkdown table2x2) 1
     = Some [InsertText 1 (lit "| Name | Age |" ++ nl);
             InsertText 16 (lit "| --- | --- |" ++ nl);
             InsertText 30 (lit "| Ann | 41 |" ++ nl);
             InsertText 43 nl; InsertText 44 nl]
  /\ exists ops,
     conversion.MarkdownToDocsRequests
       (conversion.tableToMarkdown table2x2) 1 = Some ops
     /\ insertedTexts ops
        = map (fun line => line ++ nl)
            (tableLines (TableRows table2x2) ++ [[]; []])
     /\ Forall
          (fun r => isTextStyle r = false /\ isParagraphStyle r = false)
          ops.
Proof.
  assert (H : Forall (fun row => Forall verbatimCell (TableCells row))
                (TableRows table2x2))
    by (repeat constructor).
  split; [exact H |]. split; [reflexivity |].
  exact (table_compiles_to_pipe_paragraphs table2x2 1 H).
Defined.

(** ** The commands on sections *)

Lemma sections_split (elements : list StructuralElement)
    (before after : list document.Section) (section : document.Section) :
  flat_map
    (fun element =>
       match document.sectionOf element with
       | Some s => [s]
       | None => []
       end) elements
  = before ++ section :: after ->
  exists elementsBefore element elementsAfter,
    elements = elementsBefore ++ element :: elementsAfter
    /\ document.sectionOf element = Some section
    /\ flat_map
         (fun element =>
            match document.sectionOf element with
            | Some s => [s]
            | None => []
            end) elementsBefore
       = before.
Proof.
  revert before. induction elements as [| e es IH]; intros before E.
  - now destruct before.
  - cbn [flat_map] in E. destruct (document.sectionOf e) as [s |] eqn:Es.
    + destruct before as [| b before]; cbn [app] in E.
      * injection E as -> _. exists [], e, es. now repeat split.
      * injection E as -> E.
        destruct (IH before E) as (eb & x & ea & -> & Hx & Hb).
        exists (e :: eb), x, ea. repeat split; [exact Hx |].
        cbn [flat_map]. now rewrite Es, Hb.
    + cbn [app] in E.
      destruct (IH before E) as (eb & x & ea & -> & Hx & Hb).
      exists (e :: eb), x, ea. repeat split; [exact Hx |].
      cbn [flat_map]. now rewrite Es.
Qed.

Lemma headingNamed_sections (fold : Z -> Z -> bool) (name : gostring)
    (elements : list StructuralElement) :
  Forall (fun s => EqualFold fold (document.SectionTitle s) name = false)
    (flat_map
       (fun element =>
          match document.sectionOf element with
          | Some s => [s]
          | None => []
          end) elements)
  <-> Forall (fun e => headingNamed fold name e = false) elements.
Proof.
  unfold headingNamed. induction elements as [| e es IH].
  - split; constructor.
  - cbn [flat_map]. destruct (document.sectionOf e) as [s |] eqn:Es.
    + cbn [app]. split; intros H; inversion H; subst; constructor.
      * now rewrite Es.
      * now apply IH.
      * now rewrite Es in *.
      * now apply IH.
    + cbn [app]. rewrite IH. split; intros H.
      * constructor; [now rewrite Es | exact H].
      * now inversion H.
Qed.

(** What [FindSection] finds, in the elements of the document. *)
Lemma FindSection_element (fold : Z -> Z -> bool) (doc : Document)
    (name : gostring) :
  (document.FindSection fold doc name = None
   /\ Forall (fun e => headingNamed fold name e = false)
        (BodyContent (DocBody doc)))
  \/ exists before element after section,
       BodyContent (DocBody doc) = before ++ element :: after
       /\ Forall (fun e => headingNamed fold name e = false) before
       /\ headingNamed fold name element = true
       /\ document.sectionOf element = Some section
       /\ document.SectionEndIndex section = EndIndex element
       /\ document.FindSection fold doc name = Some section.
Proof.
  unfold document.FindSection.
  destruct (document.findIn fold (document.GetStructure doc) name)
    as [section |] eqn:E.
  - right. apply findIn_some in E.
    destruct E as (sb & sa & Es & Hm & Hb).
    rewrite GetStructure_sections in Es.
    destruct (sections_split _ _ _ _ Es) as (eb & e & ea & Eb & He & Hf).
    exists eb, e, ea, section. rewrite <- Hf in Hb.
    apply headingNamed_sections in Hb.
    repeat split; try assumption.
    + unfold headingNamed. now rewrite He.
    + unfold document.sectionOf in He.
      destruct (ElementParagraph e) as [p |]; [| discriminate].
      destruct (ParaStyle p) as [style |]; [| discriminate].
      destruct (_ && _); [| discriminate]. now injection He as <-.
  - left. split; [reflexivity |]. apply findIn_none in E.
    rewrite GetStructure_sections in E. now apply headingNamed_sections.
Qed.

(** X15: [runUpdateSection] never panics.  It fails with "section not
    found" when no element of the body is a heading paragraph whose title
    matches the name up to case folding; otherwise, with [e] the first
    such element, it sends the deletion of the one index at the end of
    [e] and then the operations compiled from the content at that
    index. *)
Theorem runUpdateSection_requests (fold : Z -> Z -> bool) (doc : Document)
    (sectionName content : gostring) :
  (Forall (fun e => headingNamed fold sectionName e = false)
     (BodyContent (DocBody doc))
   /\ cli.runUpdateSection fold doc sectionName content
      = Some (cli.Failed (lit "section not found: " ++ sectionName)))
  \/ exists before element after ops,
       BodyContent (DocBody doc) = before ++ element :: after
       /\ Forall (fun e => headingNamed fold sectionName e = false) before
       /\ headingNamed fold sectionName element = true
       /\ conversion.MarkdownToDocsRequests content (EndIndex element)
          = Some ops
       /\ cli.runUpdateSection fold doc sectionName content
          = Some (cli.Sent
                    (cli.DeleteContentRange (EndIndex element)
                       (wrap64 (EndIndex element + 1))
                       :: map cli.Conversion ops)).
Proof.
  unfold cli.runUpdateSection.
  destruct (FindSection_element fold doc sectionName)
    as [[E H] | (before & e & after & section & Eb & Hb & Hn & _ & Ee & E)];
    rewrite E.
  - left. now split.
  - right. rewrite Ee.
    destruct (compileText_form content) as (f & n & Hf & _).
    assert (Hc : conversion.MarkdownToDocsRequests content (EndIndex e)
                 = Some (f (EndIndex e)))
      by (apply (MarkdownToDocsRequests_fold _ _ _
                   (wrap64 (EndIndex e + n)));
          now rewrite Hf).
    exists before, e, after, (f (EndIndex e)). rewrite Hc.
    now repeat split.
Qed.

(** X16: [runInsertAfter] fails with "section not found" when no element
    of the body is a heading paragraph whose title matches the name up to
    case folding; otherwise it sends one insertion, of the text between
    two line feeds, at the end index of the first such element. *)
Theorem runInsertAfter_requests (fold : Z -> Z -> bool) (doc : Document)
    (sectionName text : gostring) :
  (Forall (fun e => headingNamed fold sectionName e = false)
     (BodyContent (DocBody doc))
   /\ cli.runInsertAfter fold doc sectionName text
      = cli.Failed (lit "section not found: " ++ sectionName))
  \/ exists before element after,
       BodyContent (DocBody doc) = before ++ element :: after
       /\ Forall (fun e => headingNamed fold sectionName e = false) before
       /\ headingNamed fold sectionName element = true
       /\ cli.runInsertAfter fold doc sectionName text
          = cli.Sent
              [cli.Conversion
                 (InsertText (EndIndex element) (nl ++ text ++ nl))].
Proof.
  unfold cli.runInsertAfter.
  destruct (FindSection_element fold doc sectionName)
    as [[E H] | (before & e & after & section & Eb & Hb & Hn & _ & Ee & E)];
    rewrite E.
  - left. now split.
  - right. rewrite Ee. exists before, e, after. now repeat split.
Qed.

(** ** Any document, and headings without a number *)

(** What an element renders to is empty or ends with a line feed. *)
Lemma elementToMarkdown_end (e : StructuralElement) :
  conversion.elementToMarkdown e = []
  \/ exists body, conversion.elementToMarkdown e = body ++ nl.
Proof.
  assert (P : forall p,
             conversion.formatParagraphAsMarkdown p = []
             \/ exists body,
                conversion.formatParagraphAsMarkdown p = body ++ nl).
  { intros p. unfold conversion.formatParagraphAsMarkdown.
    destruct (negb _); [right | now left].
    eexists. now rewrite app_assoc. }
  unfold conversion.elementToMarkdown.
  destruct (ElementParagraph e) as [p |].
  - destruct (ParaStyle p) as [style |]; [| apply P].
    destruct (negb _); [| apply P].
    destruct (conversion.headingPrefix _) as [hashes |]; [| apply P].
    right. eexists. now rewrite !app_assoc.
  - destruct (ElementTable e) as [table |]; [| now left].
    right. unfold conversion.tableToMarkdown. now eexists.
Qed.

Lemma elementsToMarkdown_end (es : list StructuralElement) :
  flat_map conversion.elementToMarkdown es = []
  \/ exists body, flat_map conversion.elementToMarkdown es = body ++ nl.
Proof.
  induction es as [| e es IH]; [now left |]. cbn [flat_map].
  destruct IH as [-> | (body & ->)].
  - rewrite app_nil_r. apply elementToMarkdown_end.
  - right. eexists. now rewrite app_assoc.
Qed.

(** X17: whatever the document holds, tables and styled runs included,
    its markdown is the title line, an empty line and what the elements
    render to, and it ends with a line feed; compiling it never panics
    and ends with the insertion of an empty line. *)
Theorem rendering_ends_with_line_feed (doc : Document) (s : Z) :
  exists body ops c,
    conversion.DocsToMarkdown doc
    = lit "# " ++ Title doc ++ nl ++ body ++ nl
    /\ conversion.MarkdownToDocsRequests (conversion.DocsToMarkdown doc) s
       = Some (ops ++ [InsertText c nl]).
Proof.
  assert (H : exists body,
             conversion.DocsToMarkdown doc
             = lit "# " ++ Title doc ++ nl ++ body ++ nl).
  { unfold conversion.DocsToMarkdown. rewrite fold_left_append.
    destruct (elementsToMarkdown_end (BodyContent (DocBody doc)))
      as [-> | (body & ->)].
    - exists []. now rewrite app_nil_r.
    - exists (nl ++ body). now rewrite <- !app_assoc. }
  destruct H as (body & E). exists body. rewrite E.
  destruct (compileText_form (lit "# " ++ Title doc ++ nl ++ body))
    as (f & n & Hf & _).
  exists (f s), (wrap64 (s + n)). split; [reflexivity |].
  apply (MarkdownToDocsRequests_fold _ _ _ (wrap64 (wrap64 (s + n) + 1))).
  replace (lit "# " ++ Title doc ++ nl ++ body ++ nl)
    with ((lit "# " ++ Title doc ++ nl ++ body) ++ lf :: [])
    by (now rewrite <- !app_assoc).
  rewrite SplitLines_app_lf, foldM_app, Hf. cbn [bind app].
  change (SplitLines []) with [@nil ascii]. cbn [foldM].
  destruct (compileLine_blank (f s) (wrap64 (s + n)) [] eq_refl) as [B _].
  now rewrite B.
Qed.

(** [%d] on a text that begins with no digit, sign or blank. *)
Lemma scanInt_no_number (budget : Z) (c : ascii) (t : gostring) :
  0 < budget -> 58 <= byteval c < 0x80 ->
  fmt.scanInt 10 budget (c :: t) = None.
Proof.
  intros Hb Hc. unfold fmt.scanInt.
  rewrite SkipSpace_rune by lia. cbn [bind].
  rewrite getRune_ascii by lia. cbn [bind].
  replace (byteval c =? 43) with false by (symmetry; apply Z.eqb_neq; lia).
  replace (byteval c =? 45) with false by (symmetry; apply Z.eqb_neq; lia).
  cbn [orb]. rewrite getRune_ascii by lia. cbn [bind].
  destruct (fmt.acceptsDigit 10 (byteval c)) eqn:A; [| reflexivity].
  cbn [List.length fmt.acceptDigits]. rewrite getRune_ascii by lia.
  rewrite A.
  destruct (fmt.acceptDigits _ 10 (budget - 1) t) as [tok rest].
  cbn [fmt.parseDigits].
  replace (fmt.digitOf 10 (byteval c)) with (@None Z); [reflexivity |].
  unfold fmt.digitOf. decide_tests. reflexivity.
Qed.

(** X18: a paragraph whose named style begins with "HEADING_" is listed
    by [GetStructure] whatever follows.  When nothing follows, or a byte
    that is no digit, sign or blank (a letter, say), the scan of the
    level fails and the section has the level 0 the variable began
    with.  The renderer does not treat such a paragraph as a heading. *)
Theorem heading_without_number_has_level_0 (e : StructuralElement)
    (p : Paragraph) (style : ParagraphStyle) (rest : gostring) :
  ElementParagraph e = Some p ->
  ParaStyle p = Some style ->
  NamedStyleType style = lit "HEADING_" ++ rest ->
  rest = [] \/ (exists c t, rest = c :: t /\ 58 <= byteval c < 0x80) ->
  document.sectionOf e
  = Some (document.mkSection (EndIndex e) 0 (StartIndex e)
            (conversion.GetParagraphText p)).
Proof.
  intros Ep Es En Hr. unfold document.sectionOf. rewrite Ep, Es, En.
  change (eqbytes (lit "HEADING_" ++ rest) []) with false.
  replace (HasPrefix (lit "HEADING_" ++ rest) (lit "HEADING_")) with true
    by (unfold HasPrefix; rewrite length_app; reflexivity).
  cbn [negb andb].
  change (skipn 8 (lit "HEADING_" ++ rest)) with rest.
  do 2 f_equal. destruct Hr as [-> | (c & t & -> & Hc)]; [reflexivity |].
  unfold fmt.Sscanf_HEADING_d.
  rewrite SkipSpace_rune by (first [reflexivity | lia]).
  now rewrite scanInt_no_number by (first [reflexivity | lia]).
Qed.

Lemma heading_without_number_has_level_0_witness :
  document.sectionOf (headingElement 3 9 "HEADING_X" "Notes")
  = Some (document.mkSection 9 0 3 (lit "Notes"))
  /\ conversion.elementToMarkdown (headingElement 3 9 "HEADING_X" "Notes")
     = lit "Notes" ++ nl ++ nl ++ nl.
Proof.
  split; [| reflexivity].
  apply (heading_without_number_has_level_0
           (headingElement 3 9 "HEADING_X" "Notes")
           (mkParagraph
              [mkParagraphElement
                 (Some (mkTextRun (lit "Notes" ++ nl) None))]
              (Some (mkParagraphStyle (lit "HEADING_X"))))
           (mkParagraphStyle (lit "HEADING_X")) (lit "X")
           eq_refl eq_refl eq_refl).
  right. exists "X"%char, []. split; [reflexivity |]. vm_compute.
  split; [discriminate | reflexivity].
Defined.

(** ** [EqualFold], rune by rune *)

Lemma foldRunes_sameUpToCase (fold : Z -> Z -> bool) (a b : Z) :
  foldRunes fold a b = true <-> sameUpToCase fold a b.
Proof.
  unfold foldRunes, sameUpToCase, utf8.RuneSelf.
  destruct (Z.eqb_spec b a) as [E | E].
  - split; [now left | reflexivity].
  - destruct (Z.ltb_spec (Z.max a b) 128) as [L | L].
    + rewrite !andb_true_iff, !Z.leb_le, Z.eqb_eq. split.
      * intros [[H1 H2] H3]. right. left. lia.
      * intros [H | [H | [H _]]]; [congruence | lia | lia].
    + split.
      * intros H. right. right. split; [lia | exact H].
      * intros [H | [[H _] | [_ H]]]; [congruence | lia | exact H].
Qed.

Lemma runesFrom_skipn (k : nat) : forall s,
  runesFrom k s = runes (skipn k s).
Proof.
  induction k as [| k IH]; intros s; [reflexivity |].
  destruct s as [| c s]; [reflexivity |]. cbn [runesFrom skipn]. apply IH.
Qed.

Lemma runes_cons (c : ascii) (s : gostring) :
  runes (c :: s)
  = fst (utf8.DecodeRuneInString (c :: s))
      :: runes (skipn (snd (utf8.DecodeRuneInString (c :: s))) (c :: s)).
Proof.
  unfold runes at 1. cbn [runesFrom].
  pose proof (decode_size c s) as H.
  destruct (utf8.DecodeRuneInString (c :: s)) as [r size].
  cbn [fst snd] in *. rewrite runesFrom_skipn.
  destruct size as [| size]; [lia |].
  replace (S size - 1)%nat with size by lia. reflexivity.
Qed.

Lemma runes_ascii (c : ascii) (s : gostring) :
  byteval c < 0x80 -> runes (c :: s) = byteval c :: runes s.
Proof. intros H. now rewrite runes_cons, decode_ascii. Qed.

(** The loop over the runes compares the strings rune by rune, to the
    end of both. *)
Lemma foldUnicode_runes (fold : Z -> Z -> bool) (s : gostring) :
  forall skip t,
  foldUnicode fold skip s t = true
  <-> Forall2 (sameUpToCase fold) (runesFrom skip s) (runes t).
Proof.
  induction s as [| c s IH]; intros skip t.
  - cbn [foldUnicode runesFrom]. destruct t as [| d t].
    + split; [constructor | reflexivity].
    + rewrite runes_cons. split; [discriminate | intros H; inversion H].
  - cbn [foldUnicode runesFrom]. destruct skip as [| k]; [| apply IH].
    destruct (utf8.DecodeRuneInString (c :: s)) as [sr size].
    destruct t as [| d t].
    + split; [discriminate | intros H; inversion H].
    + rewrite (runes_cons d t).
      destruct (utf8.DecodeRuneInString (d :: t)) as [tr tsize].
      cbn [fst snd].
      destruct (foldRunes fold sr tr) eqn:F.
      * rewrite IH. apply foldRunes_sameUpToCase in F. split.
        -- intros H. now constructor.
        -- intros H. now inversion H.
      * split; [discriminate |]. intros H. inversion H; subst.
        match goal with
        | K : sameUpToCase _ _ _ |- _ =>
          apply foldRunes_sameUpToCase in K; congruence
        end.
Qed.

(** [EqualFold] holds of two strings exactly when they have the same
    number of runes and these are equal up to case, one by one. *)
Lemma EqualFold_runes (fold : Z -> Z -> bool) (s : gostring) :
  forall t,
  EqualFold fold s t = true
  <-> Forall2 (sameUpToCase fold) (runes s) (runes t).
Proof.
  induction s as [| c s IH]; intros [| d t]; cbn [EqualFold].
  - cbn. split; [constructor | reflexivity].
  - rewrite runes_cons. cbn.
    split; [discriminate | intros H; inversion H].
  - rewrite runes_cons. cbn.
    split; [discriminate | intros H; inversion H].
  - pose proof (byteval_range c). pose proof (byteval_range d).
    destruct (Z.leb_spec utf8.RuneSelf (Z.lor (byteval c) (byteval d)))
      as [L | L].
    + apply (foldUnicode_runes fold (c :: s) 0%nat (d :: t)).
    + pose proof (lor2 (byteval c) (byteval d)) as M.
      unfold utf8.RuneSelf in L.
      rewrite !runes_ascii by lia.
      assert (F : foldRunes fold (byteval c) (byteval d)
                  = (if byteval d =? byteval c then true
                     else (65 <=? Z.min (byteval c) (byteval d))
                          && (Z.min (byteval c) (byteval d) <=? 90)
                          && (Z.max (byteval c) (byteval d)
                              =? Z.min (byteval c) (byteval d) + 32))).
      { unfold foldRunes, utf8.RuneSelf.
        destruct (byteval d =? byteval c); [reflexivity |].
        destruct (Z.ltb_spec (Z.max (byteval c) (byteval d)) 128);
          [reflexivity | lia]. }
      pose proof (foldRunes_sameUpToCase fold (byteval c) (byteval d)) as S.
      rewrite F in S.
      destruct (byteval d =? byteval c).
      * rewrite IH. split.
        -- intros H'. constructor; [now apply S | exact H'].
        -- intros H'. now inversion H'.
      * destruct ((65 <=? Z.min (byteval c) (byteval d))
                  && (Z.min (byteval c) (byteval d) <=? 90)
                  && (Z.max (byteval c) (byteval d)
                      =? Z.min (byteval c) (byteval d) + 32)).
        -- rewrite IH. split.
           ++ intros H'. constructor; [now apply S | exact H'].
           ++ intros H'. now inversion H'.
        -- split; [discriminate |]. intros H'. inversion H'; subst.
           match goal with
           | K : sameUpToCase _ _ _ |- _ => apply S in K; discriminate
           end.
Qed.

(** C6: [FindSection] scans the sections of [GetStructure], which are the
    heading paragraphs in document order, and returns the first one whose
    title [EqualFold] equates with the name, nil when there is none.
    [EqualFold] compares the whole strings: it holds exactly when title
    and name have the same number of runes and these are equal up to
    case one by one, so a name that is a part of a title, or has a part
    more, finds nothing; on ASCII strings that is equality of the
    lower-cased strings.  (The runes are those Go decodes: a byte that
    begins no valid UTF-8 sequence counts as U+FFFD.)  Of the headings
    "Intro" and "intro details" the name "INTRO" finds the first; the
    name "Rxyz" does not match the title "Résumé draft". *)
Theorem FindSection_first_exact_match
    (simpleFoldReaches : Z -> Z -> bool) (doc : Document)
    (sectionName : gostring) :
  document.GetStructure doc
  = flat_map
      (fun element =>
         match document.sectionOf element with
         | Some section => [section]
         | None => []
         end)
      (BodyContent (DocBody doc))
  /\ (forall section,
      document.FindSection simpleFoldReaches doc sectionName = Some section
      <-> exists before after,
          document.GetStructure doc = before ++ section :: after
          /\ EqualFold simpleFoldReaches (document.SectionTitle section)
               sectionName = true
          /\ Forall
               (fun s =>
                  EqualFold simpleFoldReaches (document.SectionTitle s)
                    sectionName = false) before)
  /\ (document.FindSection simpleFoldReaches doc sectionName = None
      <-> Forall
            (fun s =>
               EqualFold simpleFoldReaches (document.SectionTitle s)
                 sectionName = false) (document.GetStructure doc))
  /\ (forall title,
      EqualFold simpleFoldReaches title sectionName = true
      <-> Forall2 (sameUpToCase simpleFoldReaches)
            (runes title) (runes sectionName))
  /\ (forall title,
      EqualFold simpleFoldReaches title sectionName = true ->
      List.length (runes title) = List.length (runes sectionName))
  /\ (forall title,
      asciiOnly title -> asciiOnly sectionName ->
      EqualFold simpleFoldReaches title sectionName = true
      <-> map lowerByte title = map lowerByte sectionName)
  /\ document.GetStructure introDoc
     = [document.mkSection 7 1 1 (lit "Intro");
        document.mkSection 21 2 7 (lit "intro details")]
  /\ document.FindSection simpleFoldReaches introDoc (lit "INTRO")
     = Some (document.mkSection 7 1 1 (lit "Intro"))
  /\ document.FindSection simpleFoldReaches introDoc (lit "intro")
     = Some (document.mkSection 7 1 1 (lit "Intro"))
  /\ document.FindSection simpleFoldReaches introDoc (lit "intro det")
     = None
  /\ EqualFold simpleFoldReaches (lit "Résumé draft") (lit "Rxyz") = false
  /\ EqualFold simpleFoldReaches (lit "Résumé") (lit "RÉSUMÉ")
     = simpleFoldReaches 201 233.
Proof.
  split; [apply GetStructure_sections |].
  split; [intros section; apply findIn_some |].
  split; [apply findIn_none |].
  split; [intros title; apply EqualFold_runes |].
  split.
  { intros title E. apply EqualFold_runes in E.
    eapply Forall2_length, E. }
  split; [intros title; apply EqualFold_ascii |].
  do 4 (split; [reflexivity |]).
  split.
  - vm_compute. now destruct (simpleFoldReaches 120 233).
  - vm_compute. now destruct (simpleFoldReaches 201 233).
Qed.
